(** * BiFormer-Cifar100: the training and evaluation drivers of [engine.py]

    A shallow embedding of [train_one_epoch] and [evaluate].  Both drivers
    are written in a small state, trace and error monad: the state holds the
    objects the Python code mutates (model and optimizer, EMA shadow model,
    metric logger, captured-activations cache, the [batch_num] counter) and
    whether the directory of the figures exists on disk, the trace lists the
    calls made on the outside world in program order, and the result says
    whether the driver returned, exited or raised.

    Python floats are IEEE-754 binary64 numbers; the arithmetic that the
    drivers perform on them themselves (the TensorBoard coordinate
    [epoch_1000x]) is modelled with round-to-nearest-even on rationals. *)

From Stdlib Require Import ZArith QArith Qround Qabs Qpower Lqa Lia List Bool.
From Stdlib Require Import Floats.SpecFloat.
From stdpp Require Import base option list gmap strings pretty.

Local Open Scope Z_scope.

(** ** Python exceptions and results *)

Inductive exn : Type :=
| ZeroDivisionError
| OverflowError
| ValueError
| KeyError
| IndexError
| AxisError
| AttributeError
| FileNotFoundError.

Inductive res (A : Type) : Type :=
| Ok (a : A)
| Err (e : exn).
Arguments Ok {A} a.
Arguments Err {A} e.

Definition res_bind {A B} (r : res A) (f : A -> res B) : res B :=
  match r with
  | Ok a => f a
  | Err e => Err e
  end.

#[global] Instance res_ret : MRet res := fun A a => Ok a.
#[global] Instance res_mbind : MBind res := fun A B f r => res_bind r f.

Definition of_option {A} (e : exn) (o : option A) : res A :=
  match o with
  | Some a => Ok a
  | None => Err e
  end.

(** ** Python floats *)

Module PyFloat.

(** A binary64 datum: a finite value (kept as the rational it denotes; the
    sign of a zero is not tracked, none of the drivers' operations observes
    it), an infinity or a NaN. *)
Inductive pyfloat : Type :=
| Fin (q : Q)
| Inf (neg : bool)
| NaN.

(** [math.isfinite] *)
Definition isfinite (x : pyfloat) : bool :=
  match x with
  | Fin _ => true
  | Inf _ | NaN => false
  end.

Definition prec : Z := 53.
Definition emin : Z := -1074.
Definition emax : Z := 1024.

Definition pow2 (k : Z) : Q := (2 ^ k)%Q.

(** [floor (log2 |q|)] for [q <> 0]. *)
Definition ilog2 (q : Q) : Z :=
  let d := Z.log2 (Z.abs (Qnum q)) - Z.log2 (Zpos (Qden q)) in
  if Qle_bool (pow2 d) (Qabs q) then d else d - 1.

(** Rounding of a rational to the nearest integer, ties to even. *)
Definition rne (q : Q) : Z :=
  let f := Qfloor q in
  match (q - inject_Z f ?= 1 # 2)%Q with
  | Lt => f
  | Gt => f + 1
  | Eq => if Z.even f then f else f + 1
  end.

(** The exponent of the unit in the last place of [q] in binary64. *)
Definition ulp_exp (q : Q) : Z := Z.max (ilog2 q - (prec - 1)) emin.

(** Round to nearest even in binary64 with an unbounded exponent range
    above: mantissa and exponent, and the value. *)
Definition round_me (q : Q) : Z * Z :=
  if Qeq_bool q 0 then (0, 0)
  else let ex := ulp_exp q in (rne (q / pow2 ex), ex).

Definition RN (q : Q) : Q :=
  let '(m, ex) := round_me q in (inject_Z m * pow2 ex)%Q.

Definition overflows (v : Q) : bool := Qle_bool (pow2 emax) (Qabs v).

(** A C double operation: the exact result rounded, an overflow gives an
    infinity. *)
Definition fround (q : Q) : pyfloat :=
  let v := RN q in
  if overflows v then Inf (negb (Qle_bool 0 v)) else Fin v.

(** Conversions and divisions of Python integers raise on overflow. *)
Definition fround_exn (q : Q) : res pyfloat :=
  let v := RN q in
  if overflows v then Err OverflowError else Ok (Fin v).

(** [float(z)] as performed when an [int] meets a [float] operand. *)
Definition float_of_int (z : Z) : res pyfloat := fround_exn (inject_Z z).

(** [a / b] on two Python integers. *)
Definition int_truediv (a b : Z) : res pyfloat :=
  if (b =? 0)%Z then Err ZeroDivisionError
  else fround_exn (inject_Z a / inject_Z b).

Definition fadd (x y : pyfloat) : pyfloat :=
  match x, y with
  | Fin a, Fin b => fround (a + b)
  | NaN, _ | _, NaN => NaN
  | Inf s, Inf t => if eqb s t then Inf s else NaN
  | Inf s, Fin _ | Fin _, Inf s => Inf s
  end.

Definition fmul (x y : pyfloat) : pyfloat :=
  match x, y with
  | Fin a, Fin b => fround (a * b)
  | NaN, _ | _, NaN => NaN
  | Inf s, Inf t => Inf (xorb s t)
  | Inf s, Fin b | Fin b, Inf s =>
      if Qeq_bool b 0 then NaN else Inf (xorb s (negb (Qle_bool 0 b)))
  end.

(** [x + z] and [x * z] for a float [x] and an integer [z]. *)
Definition fadd_int (x : pyfloat) (z : Z) : res pyfloat :=
  res_bind (float_of_int z) (fun fz => Ok (fadd x fz)).

Definition fmul_int (x : pyfloat) (z : Z) : res pyfloat :=
  res_bind (float_of_int z) (fun fz => Ok (fmul x fz)).

(** Truncation toward zero. *)
Definition Qtrunc (q : Q) : Z := Z.quot (Qnum q) (Zpos (Qden q)).

(** [int(x)] *)
Definition int_of_float (x : pyfloat) : res Z :=
  match x with
  | Fin q => Ok (Qtrunc q)
  | Inf _ => Err OverflowError
  | NaN => Err ValueError
  end.

(** The value denoted by an IEEE datum of the standard library's
    specification of binary64, to compare the operations above with. *)
Definition of_spec (f : spec_float) : pyfloat :=
  match f with
  | S754_zero _ => Fin 0
  | S754_infinity s => Inf s
  | S754_nan => NaN
  | S754_finite s m e =>
      Fin ((if s then - inject_Z (Zpos m) else inject_Z (Zpos m)) * pow2 e)
  end.

Definition spec_of_int (z : Z) : spec_float :=
  binary_normalize prec emax z 0 false.

Definition same_float (x y : pyfloat) : bool :=
  match x, y with
  | Fin a, Fin b => Qeq_bool a b
  | Inf s, Inf t => eqb s t
  | NaN, NaN => true
  | _, _ => false
  end.

(** A result of the model is the float that the standard library's
    operation gives. *)
Definition agrees (x : res pyfloat) (f : spec_float) : bool :=
  match x with
  | Ok x => same_float x (of_spec f)
  | Err _ => false
  end.

(** The unit roundoff [2^-53] and half the smallest subnormal, [2^-1075]:
    the relative and the absolute part of the error of one rounding. *)
Definition unit_roundoff : Q := 1 # 9007199254740992.
Definition half_subnormal : Q := pow2 (emin - 1).

End PyFloat.
Import PyFloat.

(** ** The TensorBoard coordinate *)

(** [int((data_iter_step / len(data_loader) + epoch) * 1000)]: an integer
    division giving a float, a float plus an integer, a float times an
    integer, and a truncation. *)
Definition epoch_1000x (data_iter_step num_batches epoch : Z) : res Z :=
  x ← int_truediv data_iter_step num_batches;
  x ← fadd_int x epoch;
  x ← fmul_int x 1000;
  int_of_float x.

(** The float that [epoch_1000x] truncates when nothing overflows. *)
Definition coordinate (i n e : Z) : Q :=
  RN (RN (RN (inject_Z i / inject_Z n) + RN (inject_Z e)) * RN (inject_Z 1000)).

(** ** Programs: state, trace of effects, and abnormal termination *)

Inductive outcome (A : Type) : Type :=
| Done (a : A)            (* control reaches the next statement *)
| Exited (code : Z)       (* [sys.exit(code)] *)
| Raised (e : exn).       (* an uncaught exception *)
Arguments Done {A} a.
Arguments Exited {A} code.
Arguments Raised {A} e.

Section Prog.
Context {E S : Type}.

(** A program maps the state to the final state, the effects it performed
    in order, and how it ended. *)
Definition prog (A : Type) : Type := S -> S * list E * outcome A.

Definition ret {A} (a : A) : prog A := fun s => (s, [], Done a).

Definition bind {A B} (m : prog A) (f : A -> prog B) : prog B :=
  fun s =>
    match m s with
    | (s1, t1, Done a) =>
        match f a s1 with
        | (s2, t2, r) => (s2, t1 ++ t2, r)
        end
    | (s1, t1, Exited c) => (s1, t1, Exited c)
    | (s1, t1, Raised e) => (s1, t1, Raised e)
    end.

Definition get : prog S := fun s => (s, [], Done s).
Definition modify (f : S -> S) : prog unit := fun s => (f s, [], Done tt).
Definition emit (e : E) : prog unit := fun s => (s, [e], Done tt).
Definition sys_exit {A} (code : Z) : prog A := fun s => (s, [], Exited code).
Definition raise {A} (e : exn) : prog A := fun s => (s, [], Raised e).

Definition lift {A} (r : res A) : prog A :=
  match r with
  | Ok a => ret a
  | Err e => raise e
  end.

(** [for i, x in enumerate(l, start): body] *)
Fixpoint for_enum {A} (start : nat) (l : list A) (body : nat -> A -> prog unit)
  : prog unit :=
  match l with
  | [] => ret tt
  | x :: l' => bind (body start x) (fun _ => for_enum (Datatypes.S start) l' body)
  end.

(** [for x in l: body] *)
Definition for_each {A} (l : list A) (body : A -> prog unit) : prog unit :=
  for_enum 0 l (fun _ => body).

Definition final {A} (r : S * list E * outcome A) : S := r.1.1.
Definition trace {A} (r : S * list E * outcome A) : list E := r.1.2.
Definition result {A} (r : S * list E * outcome A) : outcome A := r.2.
End Prog.
Arguments prog : clear implicits.

Declare Scope prog_scope.
Delimit Scope prog_scope with prog.
Notation "x <- m ;; k" := (bind m (fun x => k))
  (at level 100, m at next level, right associativity) : prog_scope.
Notation "m ;; k" := (bind m (fun _ => k))
  (at level 100, right associativity) : prog_scope.

(** ** NumPy arrays

    An array is its shape and its elements in row-major order.  Only the
    operations [evaluate] applies are modelled; how a mean of floats is
    accumulated is left to the parameter [np_mean]. *)

#[global] Instance pyfloat_inhabited : Inhabited pyfloat := populate NaN.

Record ndarray : Type := { shape : list nat; data : list pyfloat }.

Module Np.
Section Np.
Variable np_mean : list pyfloat -> pyfloat.

Definition numel (sh : list nat) : nat := foldr Nat.mul 1%nat sh.

Definition well_formed (a : ndarray) : Prop :=
  length (data a) = numel (shape a).

Definition tabulate {A} (n : nat) (f : nat -> A) : list A := f <$> seq 0 n.

(** [a.shape[k]] *)
Definition shape_at (a : ndarray) (k : nat) : res nat :=
  of_option IndexError (shape a !! k).

(** [a.mean(axis=k)] *)
Definition mean (axis : nat) (a : ndarray) : res ndarray :=
  d ← of_option AxisError (shape a !! axis);
  let inner := numel (drop (S axis) (shape a)) in
  let outer := numel (take axis (shape a)) in
  mret {| shape := take axis (shape a) ++ drop (S axis) (shape a);
          data := tabulate (outer * inner) (fun idx =>
                    np_mean (tabulate d (fun k =>
                      data a !!! (idx / inner * d * inner + k * inner
                                  + idx mod inner)%nat))) |}.

(** [a.reshape(dims)] *)
Definition reshape (dims : list nat) (a : ndarray) : res ndarray :=
  if (numel dims =? numel (shape a))%nat
  then Ok {| shape := dims; data := data a |}
  else Err ValueError.

(** [a.reshape(dims..., -1)]: the last dimension is inferred. *)
Definition reshape_infer (dims : list nat) (a : ndarray) : res ndarray :=
  let known := numel dims in
  let total := numel (shape a) in
  if ((known =? 0) || negb (total mod known =? 0))%nat then Err ValueError
  else Ok {| shape := dims ++ [(total / known)%nat]; data := data a |}.

(** [a[i]] *)
Definition index (i : nat) (a : ndarray) : res ndarray :=
  match shape a with
  | [] => Err IndexError
  | d :: sh =>
      if (i <? d)%nat
      then Ok {| shape := sh;
                 data := take (numel sh) (drop (i * numel sh) (data a)) |}
      else Err IndexError
  end.

(** [np.repeat(a, reps, axis=k)] *)
Definition repeat (reps axis : nat) (a : ndarray) : res ndarray :=
  d ← of_option AxisError (shape a !! axis);
  let inner := numel (drop (S axis) (shape a)) in
  let outer := numel (take axis (shape a)) in
  mret {| shape := <[axis := (d * reps)%nat]> (shape a);
          data := tabulate (outer * (d * reps) * inner) (fun idx =>
                    data a !!! (idx / (d * reps * inner) * d * inner
                                + idx / inner mod (d * reps) / reps * inner
                                + idx mod inner)%nat) |}.
End Np.
End Np.

(** ** The collaborators

    The tensors and objects that the drivers only hand around, and the
    operations of the model, the optimizer, the loss functions, the gradient
    scaler, the EMA shadow model, the distributed runtime and the metric
    logger that the drivers call. *)

(** A meter of the metric logger, kept as the [(value, n)] updates it
    received, oldest first. *)
Abbreviation meter := (list (pyfloat * Z)).

(** The captured-activations cache: each qualified name with the arrays
    recorded under it, oldest first. *)
Abbreviation cache_t := (gmap string (list ndarray)).

Class Collaborators : Type := {
  Samples : Type;                               (* a batch of inputs *)
  Labels : Type;                                (* a batch of training targets *)
  Output : Type;                                (* the model's outputs for a batch *)
  Loss : Type;                                  (* a loss tensor with its graph *)
  World : Type;                                 (* the live model and its optimizer *)
  Ema : Type;                                   (* the EMA shadow model *)
  Param : Type;                                 (* a model parameter *)
  Image : Type;                                 (* an image of the original dataset *)
  set_mode : bool -> World -> World;            (* [model.train(flag)] *)
  forward : World -> Samples -> Output;         (* [model(samples)] *)
  criterion : Samples -> Output -> Labels -> Loss;
  item : Loss -> pyfloat;                       (* [loss.item()] *)
  zero_grad : World -> World;                   (* [optimizer.zero_grad()] *)
  is_second_order : World -> bool;
  loss_scaler : Loss -> pyfloat -> bool -> World -> World;
  lr_of : World -> pyfloat;                     (* [optimizer.param_groups[0]["lr"]] *)
  ema_update : Ema -> World -> Ema;             (* [model_ema.update(model)] *)
  all_reduce_mean : pyfloat -> pyfloat;
  reduce_meter : meter -> meter;                (* a meter after the cross-worker reduction *)
  global_avg : meter -> pyfloat;
  np_mean : list pyfloat -> pyfloat;            (* the mean of the elements of a slice *)
  captures : World -> Samples -> list (string * ndarray);
                                                (* what a forward pass records, in order *)
  named_parameters : World -> list (string * Param);
  param_size : Param -> list nat;               (* [param.size()] *)
  plot_kernels : Param -> nat -> nat -> nat -> res unit;
                                                (* [param.view(-1, 1, k_w, k_h)], [make_grid] with
                                                   [nrow=in_channels] and the plot of the grid:
                                                   returns or raises *)
  cross_entropy : Output -> list Z -> pyfloat;  (* [criterion(output, target).item()] *)
  accuracy : Output -> list Z -> pyfloat * pyfloat;   (* top-1 and top-5, as floats *)
  shape0 : Samples -> nat;                      (* [images.shape[0]] *)
  str_float : pyfloat -> string;
  str_meters : gmap string meter -> string;
  str_summary : pyfloat -> pyfloat -> pyfloat -> string
}.

(** ** The drivers *)

Local Open Scope prog_scope.

Section Engine.
Context `{Collaborators}.

(** *** The outside world *)

(** One cell of the 10 x 10 attention figure: the axes it is drawn on, the
    original image (shown resized to 42 x 42) and the attention map laid
    over it. *)
Record cell : Type := {
  cell_row : nat;
  cell_col : nat;
  cell_image : Image;
  cell_overlay : ndarray;
  cell_alpha : pyfloat
}.

Inductive figure : Type :=
| KernelGrid (weight : Param)     (* the kernels of a convolution, one per tile *)
| AttentionGrid (cells : list cell).

Inductive event : Type :=
| EvPrint (msg : string)
| EvSetMode (training : bool)                 (* [model.train(flag)], [model.eval()] *)
| EvForward (x : Samples)                     (* [model(x)] under autocast *)
| EvZeroGrad                                  (* [optimizer.zero_grad()] *)
| EvScaledStep (clip_grad : pyfloat) (create_graph : bool)  (* [loss_scaler(...)] *)
| EvCudaSynchronize                           (* [torch.cuda.synchronize()] *)
| EvEmaUpdate                                 (* [model_ema.update(model)] *)
| EvAllReduceMean (v : pyfloat)               (* [utils.all_reduce_mean(v)] *)
| EvAddScalar (tag : string) (v : pyfloat) (step : Z)  (* [log_writer.add_scalar] *)
| EvSynchronizeMeters                         (* [synchronize_between_processes()] *)
| EvRcParams                                  (* [rcParams.update(config)] *)
| EvCacheClear                                (* [local_cache.clear()] *)
| EvEnsureDir (path : string)                 (* [os.makedirs] unless the path exists *)
| EvSavefig (path : string) (fig : figure).   (* [plt.savefig(path)] *)

(** Modelled from the spec: [utils.MetricLogger] and [utils.SmoothedValue]
    are not part of the source tree.  The aggregator "exposes per-name
    scalar update (optionally weighted by count), cross-worker reduction,
    and global-average readout": a meter is the list of its updates, an
    update without a count has weight one, and the reduction and the
    readout are the collaborators [reduce_meter] and [global_avg]. *)
Definition meter_update (name : string) (v : pyfloat) (n : Z)
    (meters : gmap string meter) : gmap string meter :=
  <[name := (meters !!! name) ++ [(v, n)]]> meters.

Definition add_meter (name : string) (meters : gmap string meter)
  : gmap string meter :=
  <[name := []]> meters.

Definition synchronize_between_processes (meters : gmap string meter)
  : gmap string meter :=
  reduce_meter <$> meters.

Definition global_avgs (meters : gmap string meter) : gmap string pyfloat :=
  global_avg <$> meters.

(** Modelled from the spec: [utils.MetricLogger] is not part of the source
    tree.  [evaluate] reads the meters [acc1], [acc5] and [loss] as
    attributes of the logger for its "one-line accuracy/loss summary"; a
    name under which nothing was recorded is no attribute of it. *)
Definition meter_attr (meters : gmap string meter) (name : string) : res meter :=
  of_option AttributeError (meters !! name).

(** *** [train_one_epoch] *)

Record train_state : Type := {
  t_world : World;                  (* the live model and its optimizer *)
  t_ema : option Ema;               (* [model_ema] *)
  t_meters : gmap string meter      (* [metric_logger.meters] *)
}.

Definition set_t_world (f : World -> World) (s : train_state) : train_state :=
  {| t_world := f (t_world s); t_ema := t_ema s; t_meters := t_meters s |}.
Definition set_t_ema (f : World -> option Ema -> option Ema) (s : train_state)
  : train_state :=
  {| t_world := t_world s; t_ema := f (t_world s) (t_ema s);
     t_meters := t_meters s |}.
Definition set_t_meters (f : gmap string meter -> gmap string meter)
    (s : train_state) : train_state :=
  {| t_world := t_world s; t_ema := t_ema s; t_meters := f (t_meters s) |}.

Section Train.
Variable mixup_fn : option (Samples * Labels -> Samples * Labels).
Variable epoch : Z.
Variable max_norm : pyfloat.
Variable log_writer : option string.        (* the sink, known by its [log_dir] *)

Definition mixed (batch : Samples * Labels) : Samples * Labels :=
  match mixup_fn with
  | Some f => f batch
  | None => batch
  end.

(** The loss tensor of a batch for given model parameters. *)
Definition batch_loss (w : World) (batch : Samples * Labels) : Loss :=
  let '(samples, targets) := mixed batch in
  criterion samples (forward w samples) targets.

(** The scalar loss of a batch in a state, [loss.item()]. *)
Definition loss_at (s : train_state) (batch : Samples * Labels) : pyfloat :=
  item (batch_loss (t_world s) batch).

(** The body of the loop over the batches. *)
Definition train_step (num_batches data_iter_step : nat)
    (batch : Samples * Labels) : prog event train_state unit :=
  let '(samples, targets) := mixed batch in
  s <- get ;;
  emit (EvForward samples) ;;
  let outputs := forward (t_world s) samples in
  let loss := criterion samples outputs targets in
  let loss_value := item loss in
  if negb (isfinite loss_value) then
    emit (EvPrint ("Loss is " +:+ str_float loss_value +:+ ", stopping training")) ;;
    sys_exit 1
  else
    emit EvZeroGrad ;;
    modify (set_t_world zero_grad) ;;
    s <- get ;;
    let second_order := is_second_order (t_world s) in
    emit (EvScaledStep max_norm second_order) ;;
    modify (set_t_world (loss_scaler loss max_norm second_order)) ;;
    emit EvCudaSynchronize ;;
    s <- get ;;
    match t_ema s with
    | Some _ =>
        emit EvEmaUpdate ;;
        modify (set_t_ema (fun w => fmap (fun e => ema_update e w)))
    | None => ret tt
    end ;;
    modify (set_t_meters (meter_update "loss" loss_value 1)) ;;
    s <- get ;;
    let lr := lr_of (t_world s) in
    modify (set_t_meters (meter_update "lr" lr 1)) ;;
    emit (EvAllReduceMean loss_value) ;;
    let loss_value_reduce := all_reduce_mean loss_value in
    match log_writer with
    | Some _ =>
        epoch_1000x <- lift (epoch_1000x (Z.of_nat data_iter_step)
                                         (Z.of_nat num_batches) epoch) ;;
        emit (EvAddScalar "loss" loss_value_reduce epoch_1000x) ;;
        emit (EvAddScalar "lr" lr epoch_1000x)
    | None => ret tt
    end.

(** The diagnostic of the stability guard. *)
Definition stop_message (loss_value : pyfloat) : string :=
  "Loss is " +:+ str_float loss_value +:+ ", stopping training".

(** The model and optimizer after the optimization step on a loss. *)
Definition stepped (loss : Loss) (w : World) : World :=
  loss_scaler loss max_norm (is_second_order (zero_grad w)) (zero_grad w).

(** What [train_one_epoch] does before it enters the loop. *)
Definition train_prologue (set_training_mode : bool) (s : train_state)
  : train_state :=
  {| t_world := set_mode set_training_mode (t_world s); t_ema := t_ema s;
     t_meters := add_meter "lr" ∅ |}.

Definition train_prologue_trace (set_training_mode : bool) : list event :=
  EvSetMode set_training_mode ::
  match log_writer with
  | Some log_dir => [EvPrint ("log_dir: " +:+ log_dir)]
  | None => []
  end.

(** The closed form of a step whose loss is finite: the state it leaves
    and the effects of its parts. *)
Definition after_step (batch : Samples * Labels) (s : train_state)
  : train_state :=
  let loss := batch_loss (t_world s) batch in
  let w := stepped loss (t_world s) in
  {| t_world := w;
     t_ema := (fun e => ema_update e w) <$> t_ema s;
     t_meters := meter_update "lr" (lr_of w) 1
                   (meter_update "loss" (item loss) 1 (t_meters s)) |}.

Definition ema_events (ema : option Ema) : list event :=
  match ema with
  | Some _ => [EvEmaUpdate]
  | None => []
  end.

Definition logged (num_batches data_iter_step : nat) (loss_value lr : pyfloat)
  : list event * outcome unit :=
  match log_writer with
  | Some _ =>
      match epoch_1000x (Z.of_nat data_iter_step) (Z.of_nat num_batches) epoch with
      | Ok x => ([EvAddScalar "loss" (all_reduce_mean loss_value) x;
                  EvAddScalar "lr" lr x], Done tt)
      | Err e => ([], Raised e)
      end
  | None => ([], Done tt)
  end.

(** The models reached after each batch of a list, in order. *)
Fixpoint worlds (w : World) (batches : list (Samples * Labels)) : list World :=
  match batches with
  | [] => []
  | b :: rest => let w' := stepped (batch_loss w b) w in w' :: worlds w' rest
  end.

(** The learning rates handed to the log sink, in order. *)
Definition logged_lrs (t : list event) : list pyfloat :=
  omap (fun e => match e with
                 | EvAddScalar tag v _ => if String.eqb tag "lr" then Some v else None
                 | _ => None
                 end) t.

(** The statements of [train_one_epoch] after its loop. *)
Definition train_epilogue : prog event train_state (gmap string pyfloat) :=
  emit EvSynchronizeMeters ;;
  modify (set_t_meters synchronize_between_processes) ;;
  s <- get ;;
  emit (EvPrint ("Averaged stats: " +:+ str_meters (t_meters s))) ;;
  ret (global_avgs (t_meters s)).

(** The progress lines that [metric_logger.log_every] prints while it
    hands out the batches are not part of the trace. *)
Definition train_one_epoch (set_training_mode : bool)
    (data_loader : list (Samples * Labels))
  : prog event train_state (gmap string pyfloat) :=
  emit (EvSetMode set_training_mode) ;;
  modify (set_t_world (set_mode set_training_mode)) ;;
  modify (set_t_meters (fun _ => add_meter "lr" ∅)) ;;
  match log_writer with
  | Some log_dir => emit (EvPrint ("log_dir: " +:+ log_dir))
  | None => ret tt
  end ;;
  for_enum 0 data_loader (train_step (length data_loader)) ;;
  train_epilogue.
End Train.

(** *** [evaluate] *)

(** Modelled from the spec: [Visualizer.visualizer.local_cache] is not part
    of the source tree.  It is "a mapping from qualified tensor name to a
    numeric array, populated as a side effect of one forward pass": each
    name holds the arrays recorded under it, in order; [clear] empties the
    mapping and an instrumented function appends its array. *)
Definition cache_clear (c : cache_t) : cache_t := ∅.

Definition cache_record (c : cache_t) (entry : string * ndarray) : cache_t :=
  <[entry.1 := (c !!! entry.1) ++ [entry.2]]> c.

Definition cache_record_all (entries : list (string * ndarray)) (c : cache_t)
  : cache_t :=
  foldl cache_record c entries.

(** [cache[name][0]] *)
Definition cache_first (c : cache_t) (name : string) : res ndarray :=
  l ← of_option KeyError (c !! name);
  of_option IndexError (l !! 0%nat).

Record eval_state : Type := {
  e_world : World;
  e_cache : cache_t;                (* [local_cache.cache] *)
  e_meters : gmap string meter;     (* [metric_logger.meters] *)
  batch_num : nat;
  visual_dir : bool                 (* whether the directory [out/visual] exists *)
}.

Definition set_e_world (f : World -> World) (s : eval_state) : eval_state :=
  {| e_world := f (e_world s); e_cache := e_cache s;
     e_meters := e_meters s; batch_num := batch_num s;
     visual_dir := visual_dir s |}.
Definition set_e_cache (f : cache_t -> cache_t) (s : eval_state) : eval_state :=
  {| e_world := e_world s; e_cache := f (e_cache s);
     e_meters := e_meters s; batch_num := batch_num s;
     visual_dir := visual_dir s |}.
Definition set_e_meters (f : gmap string meter -> gmap string meter)
    (s : eval_state) : eval_state :=
  {| e_world := e_world s; e_cache := e_cache s;
     e_meters := f (e_meters s); batch_num := batch_num s;
     visual_dir := visual_dir s |}.
Definition set_batch_num (f : nat -> nat) (s : eval_state) : eval_state :=
  {| e_world := e_world s; e_cache := e_cache s;
     e_meters := e_meters s; batch_num := f (batch_num s);
     visual_dir := visual_dir s |}.
Definition set_visual_dir (f : bool -> bool) (s : eval_state) : eval_state :=
  {| e_world := e_world s; e_cache := e_cache s;
     e_meters := e_meters s; batch_num := batch_num s;
     visual_dir := f (visual_dir s) |}.

(** [plt.savefig(path)] for a path in [out/visual]: the file is written
    when the directory exists, and [FileNotFoundError] is raised when it
    does not. *)
Definition savefig (path : string) (fig : figure) : prog event eval_state unit :=
  s <- get ;;
  if visual_dir s then emit (EvSavefig path fig) else raise FileNotFoundError.

(** [if not os.path.exists(path): os.makedirs(path)] for [out/visual] *)
Definition ensure_visual_dir : prog event eval_state unit :=
  emit (EvEnsureDir "out/visual") ;;
  modify (set_visual_dir (fun _ => true)).

(** [param.size()[k]] *)
Definition size_at (param : Param) (k : nat) : res nat :=
  of_option IndexError (param_size param !! k).

Definition kernels_path : string :=
  "out/visual/convolutional kernels in downsample 0.png".

(** The float literal [0.2]. *)
Definition alpha_02 : pyfloat := fround (2 # 10).

Definition figure_path (batch_num : nat) (alpha : pyfloat) : string :=
  "out/visual/figure and attn " +:+ pretty batch_num +:+ " alpha "
    +:+ str_float alpha +:+ ".png".

(** The statements under [# mean & reshape]. *)
Definition reduce_attention (x r_weight attn_weight : ndarray)
  : res (nat * ndarray) :=
  batch_size ← Np.shape_at x 0;
  win_size ← Np.shape_at attn_weight 2;
  attn_weight ← Np.mean np_mean 1 attn_weight;
  positions ← Np.shape_at r_weight 1;
  attn_weight ← Np.reshape_infer [batch_size; (positions * win_size)%nat] attn_weight;
  attn_weight ← Np.mean np_mean 2 attn_weight;
  mret (batch_size, attn_weight).

(** The attention map laid over sample [i].  [int(math.sqrt(n))] is the
    integer square root for every length an array can have (the float
    square root of [n < 2^52] truncates to it). *)
Definition attention_map_of (attn_weight : ndarray) (i : nat) : res ndarray :=
  attention_map ← Np.index i attn_weight;
  n ← Np.shape_at attention_map 0;
  let length := Nat.sqrt n in
  attention_map ← Np.reshape [length; length] attention_map;
  attention_map ← Np.repeat 3 0 attention_map;
  Np.repeat 3 1 attention_map.

(** The loop [for i in range(100)], over the given indices; the cells are
    listed in the order they are drawn. *)
Fixpoint draw_cells (ori_dataset : list (Image * Z)) (target : list Z)
    (attn_weight : ndarray) (batch_size batch_num : nat) (alpha : pyfloat)
    (indices : list nat) : res (list cell) :=
  match indices with
  | [] => Ok []
  | i :: rest_indices =>
      sample ← of_option IndexError
                 (ori_dataset !! (batch_size * batch_num + i)%nat);
      let '(image, label) := sample in
      t ← of_option IndexError (target !! i);
      drawn ← (if (label =? t)%Z then
                 attention_map ← attention_map_of attn_weight i;
                 mret [ {| cell_row := (i / 10)%nat; cell_col := (i mod 10)%nat;
                           cell_image := image; cell_overlay := attention_map;
                           cell_alpha := alpha |} ]
               else mret []);
      rest ← draw_cells ori_dataset target attn_weight batch_size batch_num alpha rest_indices;
      mret (drawn ++ rest)
  end.

(** All of the visualization branch up to the figure: the cells drawn for
    a batch, given the cache left by its forward pass. *)
Definition attention_cells (dataset : list (Image * Z)) (target : list Z)
    (cache : cache_t) (batch_num : nat) (alpha : pyfloat) : res (list cell) :=
  x ← cache_first cache "Block.local_images.images";
  r_weight ← cache_first cache "Block.local_r_weight.r_weight";
  r_idx ← cache_first cache "Block.local_r_idx.r_idx";
  attn_weight ← cache_first cache "Block.local_attn_weight.attn_weight";
  reduced ← reduce_attention x r_weight attn_weight;
  draw_cells dataset target reduced.2 reduced.1 batch_num alpha (seq 0 100).

(** The cache holds, under the four names that the visualization branch
    reads, tensors of the shapes that the model captures: images
    [(B, ...)], routing weights [(_, P, ...)] and attention weights
    [(B * P, Hd, W, K)], with [P * W] a square [L * L]. *)
Definition captured_shapes (cache : cache_t) (B P Hd W K L : nat) : Prop :=
  exists x r_weight r_idx attn_weight,
    cache_first cache "Block.local_images.images" = Ok x
    /\ cache_first cache "Block.local_r_weight.r_weight" = Ok r_weight
    /\ cache_first cache "Block.local_r_idx.r_idx" = Ok r_idx
    /\ cache_first cache "Block.local_attn_weight.attn_weight" = Ok attn_weight
    /\ shape x !! 0%nat = Some B
    /\ shape r_weight !! 1%nat = Some P
    /\ shape attn_weight = [(B * P)%nat; Hd; W; K]
    /\ (P * W = L * L)%nat
    /\ (0 < L)%nat.

(** Whether sample [i] of a batch is drawn: the label stored in the
    original dataset at its global index is the batch's target. *)
Definition label_matches (dataset : list (Image * Z)) (target : list Z)
    (batch_size batch_num i : nat) : bool :=
  match dataset !! (batch_size * batch_num + i)%nat, target !! i with
  | Some (_, label), Some t => (label =? t)%Z
  | _, _ => false
  end.

(** The attention figures saved in a trace, each as its list of cells. *)
Definition attention_figures (t : list event) : list (list cell) :=
  omap (fun e => match e with
                 | EvSavefig _ (AttentionGrid cells) => Some cells
                 | _ => None
                 end) t.

(** The figures saved in a trace. *)
Definition figures (t : list event) : list figure :=
  omap (fun e => match e with
                 | EvSavefig _ fig => Some fig
                 | _ => None
                 end) t.

(** Every forward pass in a trace comes right after a clearing of the
    cache. *)
Fixpoint cleared_before_forward (t : list event) : bool :=
  match t with
  | [] => true
  | EvCacheClear :: t' =>
      match t' with
      | EvForward _ :: t'' => cleared_before_forward t''
      | _ => cleared_before_forward t'
      end
  | EvForward _ :: _ => false
  | _ :: t' => cleared_before_forward t'
  end.

Section Evaluate.
Variable ori_dataset : option (list (Image * Z)).

(** The visualization branch of one batch. *)
Definition visualize (dataset : list (Image * Z)) (target : list Z)
  : prog event eval_state unit :=
  s <- get ;;
  let cache := e_cache s in
  x <- lift (cache_first cache "Block.local_images.images") ;;
  r_weight <- lift (cache_first cache "Block.local_r_weight.r_weight") ;;
  r_idx <- lift (cache_first cache "Block.local_r_idx.r_idx") ;;
  attn_weight <- lift (cache_first cache "Block.local_attn_weight.attn_weight") ;;
  reduced <- lift (reduce_attention x r_weight attn_weight) ;;
  let '(batch_size, attn_weight) := reduced in
  for_each [alpha_02] (fun alpha =>
    s <- get ;;
    cells <- lift (draw_cells dataset target attn_weight batch_size
                              (batch_num s) alpha (seq 0 100)) ;;
    ensure_visual_dir ;;
    savefig (figure_path (batch_num s) alpha) (AttentionGrid cells) ;;
    emit (EvPrint (figure_path (batch_num s) alpha +:+ " saved"))) ;;
  modify (set_batch_num (fun n => (n + 1)%nat)).

(** Whether a batch with these targets enters the visualization branch. *)
Definition visualized (target : list Z) : bool :=
  match ori_dataset with
  | Some _ => (100 <=? length target)%nat
  | None => false
  end.

(** The metrics of a batch, as [evaluate] records them. *)
Definition record_metrics (w : World) (batch : Samples * list Z)
    (meters : gmap string meter) : gmap string meter :=
  let output := forward w batch.1 in
  meter_update "acc5" (accuracy output batch.2).2 (Z.of_nat (shape0 batch.1))
    (meter_update "acc1" (accuracy output batch.2).1 (Z.of_nat (shape0 batch.1))
       (meter_update "loss" (cross_entropy output batch.2) 1 meters)).

(** The body of the loop over the batches. *)
Definition eval_step (batch : Samples * list Z) : prog event eval_state unit :=
  let '(images, target) := batch in
  emit EvCacheClear ;;
  modify (set_e_cache cache_clear) ;;
  s <- get ;;
  emit (EvForward images) ;;
  let output := forward (e_world s) images in
  modify (set_e_cache (cache_record_all (captures (e_world s) images))) ;;
  match ori_dataset with
  | Some dataset =>
      if (100 <=? length target)%nat then visualize dataset target else ret tt
  | None => ret tt
  end ;;
  let loss := cross_entropy output target in
  let '(acc1, acc5) := accuracy output target in
  let batch_size := shape0 images in
  modify (set_e_meters (meter_update "loss" loss 1)) ;;
  modify (set_e_meters (meter_update "acc1" acc1 (Z.of_nat batch_size))) ;;
  modify (set_e_meters (meter_update "acc5" acc5 (Z.of_nat batch_size))).

(** The figure of the first downsampling convolution.  It is saved to
    [out/visual] before anything has created that directory. *)
Definition visualize_kernels : prog event eval_state unit :=
  match ori_dataset with
  | Some _ =>
      s <- get ;;
      for_each (named_parameters (e_world s)) (fun entry =>
        let '(name, param) := entry in
        if String.eqb "downsample_layers.0.0.weight" name then
          in_channels <- lift (size_at param 1) ;;
          out_channels <- lift (size_at param 0) ;;
          k_w <- lift (size_at param 3) ;;
          k_h <- lift (size_at param 2) ;;
          lift (plot_kernels param in_channels k_w k_h) ;;
          savefig kernels_path (KernelGrid param)
        else ret tt)
  | None => ret tt
  end.

(** The statements of [evaluate] after its loop. *)
Definition eval_epilogue : prog event eval_state (gmap string pyfloat) :=
  emit EvSynchronizeMeters ;;
  modify (set_e_meters synchronize_between_processes) ;;
  s <- get ;;
  top1 <- lift (meter_attr (e_meters s) "acc1") ;;
  top5 <- lift (meter_attr (e_meters s) "acc5") ;;
  losses <- lift (meter_attr (e_meters s) "loss") ;;
  emit (EvPrint (str_summary (global_avg top1) (global_avg top5) (global_avg losses))) ;;
  ret (global_avgs (e_meters s)).

(** The progress lines of [metric_logger.log_every] are not part of the
    trace. *)
Definition evaluate (data_loader : list (Samples * list Z))
  : prog event eval_state (gmap string pyfloat) :=
  emit EvRcParams ;;
  visualize_kernels ;;
  modify (set_e_meters (fun _ => ∅)) ;;
  emit (EvSetMode false) ;;
  modify (set_e_world (set_mode false)) ;;
  modify (set_batch_num (fun _ => 0%nat)) ;;
  for_each data_loader eval_step ;;
  eval_epilogue.

(** The closed form of [eval_step]: the cells of the batch's figure when
    the visualization branch is entered, and the run of the step. *)
Definition drawn (target : list Z) (cache : cache_t) (batch_num : nat)
  : option (res (list cell)) :=
  match ori_dataset with
  | Some dataset =>
      if (100 <=? length target)%nat
      then Some (attention_cells dataset target cache batch_num alpha_02)
      else None
  | None => None
  end.

Definition figure_events (batch_num : nat) (cells : list cell) : list event :=
  [EvEnsureDir "out/visual";
   EvSavefig (figure_path batch_num alpha_02) (AttentionGrid cells);
   EvPrint (figure_path batch_num alpha_02 +:+ " saved")].

Definition forwarded (images : Samples) (s : eval_state) : eval_state :=
  set_e_cache (fun _ => cache_record_all (captures (e_world s) images) ∅) s.

Definition eval_step_run (batch : Samples * list Z) (s : eval_state)
  : eval_state * list event * outcome unit :=
  let s1 := forwarded batch.1 s in
  let metrics := set_e_meters (record_metrics (e_world s) batch) in
  match drawn batch.2 (e_cache s1) (batch_num s) with
  | None => (metrics s1, [EvCacheClear; EvForward batch.1], Done tt)
  | Some (Ok cells) =>
      (metrics (set_batch_num (fun n => (n + 1)%nat)
                  (set_visual_dir (fun _ => true) s1)),
       [EvCacheClear; EvForward batch.1] ++ figure_events (batch_num s) cells,
       Done tt)
  | Some (Err e) => (s1, [EvCacheClear; EvForward batch.1], Raised e)
  end.

(** The kernels figure of a parameter: the sizes read, the grid plotted
    and the file written, or the exception raised on the way. *)
Definition kernel_figure (dir_exists : bool) (param : Param) : res event :=
  in_channels ← size_at param 1;
  out_channels ← size_at param 0;
  k_w ← size_at param 3;
  k_h ← size_at param 2;
  _ ← plot_kernels param in_channels k_w k_h;
  if dir_exists then Ok (EvSavefig kernels_path (KernelGrid param))
  else Err FileNotFoundError.

(** The closed form of [visualize_kernels]: the figures written before the
    loop and how the loop over the parameters ends. *)
Fixpoint kernels_run (dir_exists : bool) (params : list (string * Param))
  : list event * outcome unit :=
  match params with
  | [] => ([], Done tt)
  | (name, param) :: rest =>
      if String.eqb "downsample_layers.0.0.weight" name then
        match kernel_figure dir_exists param with
        | Ok ev =>
            let r := kernels_run dir_exists rest in (ev :: r.1, r.2)
        | Err e => ([], Raised e)
        end
      else kernels_run dir_exists rest
  end.

Definition kernel_stage (s : eval_state) : list event * outcome unit :=
  match ori_dataset with
  | Some _ => kernels_run (visual_dir s) (named_parameters (e_world s))
  | None => ([], Done tt)
  end.

(** The state in which the loop over the batches starts. *)
Definition eval_prologue (s : eval_state) : eval_state :=
  {| e_world := set_mode false (e_world s); e_cache := e_cache s;
     e_meters := ∅; batch_num := 0; visual_dir := visual_dir s |}.

(** The meters after a list of batches, for a model [w]. *)
Definition eval_meters (w : World) (batches : list (Samples * list Z))
    (meters : gmap string meter) : gmap string meter :=
  foldl (fun m b => record_metrics w b m) meters batches.
End Evaluate.
End Engine.

(** ** What a run shows

    Readings of a trace, and the closed forms of the quantities that the
    drivers accumulate over the batches. *)

Section Runs.
Context `{Collaborators}.

(** The batches handed to the model, in order. *)
Definition forwards (t : list event) : list Samples :=
  omap (fun e => match e with
                 | EvForward x => Some x
                 | _ => None
                 end) t.

(** The entries handed to [log_writer.add_scalar], in order. *)
Definition scalars (t : list event) : list (string * pyfloat * Z) :=
  omap (fun e => match e with
                 | EvAddScalar tag v x => Some (tag, v, x)
                 | _ => None
                 end) t.

(** The paths handed to [plt.savefig], in order. *)
Definition saved_paths (t : list event) : list string :=
  omap (fun e => match e with
                 | EvSavefig path _ => Some path
                 | _ => None
                 end) t.

(** The number of updates of the EMA shadow model. *)
Definition ema_updates (t : list event) : nat :=
  length (omap (fun e => match e with
                         | EvEmaUpdate => Some tt
                         | _ => None
                         end) t).

(** The values handed to [utils.all_reduce_mean], in order. *)
Definition all_reduces (t : list event) : list pyfloat :=
  omap (fun e => match e with
                 | EvAllReduceMean v => Some v
                 | _ => None
                 end) t.

(** The modes that the model was put in, in order. *)
Definition modes (t : list event) : list bool :=
  omap (fun e => match e with
                 | EvSetMode flag => Some flag
                 | _ => None
                 end) t.

(** The effects of an optimization step and of its logging. *)
Definition is_training_event (e : event) : bool :=
  match e with
  | EvZeroGrad | EvScaledStep _ _ | EvCudaSynchronize | EvEmaUpdate
  | EvAllReduceMean _ | EvAddScalar _ _ _ => true
  | _ => false
  end.

(** An event that neither trains nor sets the mode of the model. *)
Definition quiet (e : event) : Prop :=
  is_training_event e = false /\ forall flag, e <> EvSetMode flag.

(** The two entries that a step hands to the log sink. *)
Definition log_entries (loss_value lr : pyfloat) (x : Z)
  : list (string * pyfloat * Z) :=
  [("loss", all_reduce_mean loss_value, x); ("lr", lr, x)].

(** The four names under which [evaluate] reads the cache. *)
Definition cache_names : list string :=
  ["Block.local_images.images"; "Block.local_r_weight.r_weight";
   "Block.local_r_idx.r_idx"; "Block.local_attn_weight.attn_weight"].

(** As [captured_shapes], but with any number [P * W] of attention
    positions. *)
Definition captured_dims (cache : cache_t) (B P Hd W K : nat) : Prop :=
  exists x r_weight r_idx attn_weight,
    cache_first cache "Block.local_images.images" = Ok x
    /\ cache_first cache "Block.local_r_weight.r_weight" = Ok r_weight
    /\ cache_first cache "Block.local_r_idx.r_idx" = Ok r_idx
    /\ cache_first cache "Block.local_attn_weight.attn_weight" = Ok attn_weight
    /\ shape x !! 0%nat = Some B
    /\ shape r_weight !! 1%nat = Some P
    /\ shape attn_weight = [(B * P)%nat; Hd; W; K]
    /\ (B * P * W)%nat <> 0%nat.

(** The position of a cell in the grid, row by row. *)
Definition cell_position (c : cell) : nat := (cell_row c * 10 + cell_col c)%nat.

Section TrainRuns.
Variable mixup_fn : option (Samples * Labels -> Samples * Labels).
Variable max_norm : pyfloat.

(** The scalar losses of the batches of a list, each for the model left by
    the batches before it. *)
Fixpoint losses (w : World) (batches : list (Samples * Labels)) : list pyfloat :=
  match batches with
  | [] => []
  | b :: rest =>
      let loss := batch_loss mixup_fn w b in
      item loss :: losses (stepped max_norm loss w) rest
  end.

(** The state after the steps on a list of batches with finite losses. *)
Definition after_steps (batches : list (Samples * Labels)) (s : train_state)
  : train_state :=
  foldl (fun s b => after_step mixup_fn max_norm b s) s batches.
End TrainRuns.
End Runs.

(** ** A small instance of the collaborators

    A model whose state counts the optimization steps taken, whose loss on a
    batch is the batch's label, and whose forward pass captures tensors of the
    shapes that [evaluate] expects.  The concrete runs below are made on it. *)

Module Tiny.
Definition total (l : list pyfloat) : option Q :=
  foldr (fun x acc =>
           match x, acc with
           | Fin a, Some b => Some (a + b)%Q
           | _, _ => None
           end) (Some 0%Q) l.

Definition mean (l : list pyfloat) : pyfloat :=
  match l, total l with
  | _ :: _, Some t => Fin (Qred (t / inject_Z (Z.of_nat (length l))))
  | _, _ => NaN
  end.

(** An array of the given shape holding [0, 1, 2, ...]. *)
Definition arange (sh : list nat) : ndarray :=
  {| shape := sh;
     data := (fun i => Fin (inject_Z (Z.of_nat i))) <$> seq 0 (Np.numel sh) |}.

(** Four spatial positions, two heads, a window of one and three keys. *)
Definition captured (images : nat) : list (string * ndarray) :=
  [("Block.local_images.images", arange [images]);
   ("Block.local_r_weight.r_weight", arange [images; 4; 1]%nat);
   ("Block.local_r_idx.r_idx", arange [images; 4; 1]%nat);
   ("Block.local_attn_weight.attn_weight", arange [(images * 4)%nat; 2; 1; 3]%nat)].

Definition show (x : pyfloat) : string :=
  match x with
  | Fin _ => "0.2"
  | Inf false => "inf"
  | Inf true => "-inf"
  | NaN => "nan"
  end.

#[local] Instance collaborators : Collaborators := {|
  Samples := nat;
  Labels := pyfloat;
  Output := nat;
  Loss := pyfloat;
  World := nat;
  Ema := nat;
  Param := nat;
  Image := nat;
  set_mode := fun _ w => w;
  forward := fun _ x => x;
  criterion := fun _ _ targets => targets;
  item := fun loss => loss;
  zero_grad := fun w => w;
  is_second_order := fun _ => false;
  loss_scaler := fun _ _ _ w => Datatypes.S w;
  lr_of := fun w => Fin (inject_Z (Z.of_nat w));
  ema_update := fun _ w => w;
  all_reduce_mean := fun v => v;
  reduce_meter := fun m => m;
  global_avg := fun m => mean (fst <$> m);
  np_mean := mean;
  captures := fun _ images => captured images;
  named_parameters := fun _ => [("downsample_layers.0.0.weight", 0%nat);
                                ("norm.weight", 1%nat)];
  param_size := fun p => match p with
                         | O => [8; 3; 4; 4]%nat
                         | _ => [8%nat]
                         end;
  plot_kernels := fun _ _ _ _ => Ok tt;
  cross_entropy := fun _ _ => Fin 1;
  accuracy := fun _ _ => (Fin 50, Fin 100);
  shape0 := fun images => images;
  str_float := show;
  str_meters := fun _ => "loss lr";
  str_summary := fun _ _ _ => "* Acc@1 Acc@5 loss"
|}.

Definition train0 : train_state :=
  {| t_world := 0%nat; t_ema := Some 0%nat; t_meters := ∅ |}.

Definition eval0 : eval_state :=
  {| e_world := 0%nat; e_cache := {[ "stale" := [arange [1%nat]] ]};
     e_meters := ∅; batch_num := 7; visual_dir := true |}.


(** An original dataset of 300 images, image [i] carrying label [i mod 10]. *)
Definition dataset : list (Image * Z) :=
  (fun i => (i, Z.of_nat (i mod 10))) <$> seq 0 300.

(** The targets of a batch of [n] samples starting at dataset index [start]. *)
Definition targets (start n : nat) : list Z :=
  (fun i => Z.of_nat ((start + i) mod 10)) <$> seq 0 n.

(** A state in which one batch has been visualized already. *)
Definition eval1 : eval_state :=
  {| e_world := 0%nat; e_cache := {[ "stale" := [arange [1%nat]] ]};
     e_meters := ∅; batch_num := 1; visual_dir := true |}.

(** Training batches of eight samples; the second loader diverges on its
    second batch. *)
Definition finite_batches : list (Samples * Labels) :=
  [(8%nat, Fin 1); (8%nat, Fin 2); (8%nat, Fin 3)].

Definition first_batch : Samples * Labels := (8%nat, Fin 1).
Definition diverging_batch : Samples * Labels := (8%nat, NaN).
Definition later_batch : Samples * Labels := (8%nat, Fin 2).

(** Evaluation batches of 99, 100 and 150 samples whose targets are the
    labels of the dataset, and one of 150 samples whose targets are all 0. *)
Definition batch_99 : Samples * list Z := (99%nat, targets 0 99).
Definition batch_100 : Samples * list Z := (100%nat, targets 0 100).
Definition batch_150 : Samples * list Z := (150%nat, targets 150 150).
Definition batch_150_zeros : Samples * list Z := (150%nat, replicate 150 0).
End Tiny.

(** ** A model with missing and odd captures

    As the small instance, but the forward pass of the model in state 0
    captures no routing indices, and that of the model in any other state
    captures three attention positions, which form no square. *)

Module Edge.
Definition captured (w images : nat) : list (string * ndarray) :=
  match w with
  | O =>
      [("Block.local_images.images", Tiny.arange [images]);
       ("Block.local_r_weight.r_weight", Tiny.arange [images; 4; 1]%nat);
       ("Block.local_attn_weight.attn_weight",
        Tiny.arange [(images * 4)%nat; 2; 1; 3]%nat)]
  | Datatypes.S _ =>
      [("Block.local_images.images", Tiny.arange [images]);
       ("Block.local_r_weight.r_weight", Tiny.arange [images; 3; 1]%nat);
       ("Block.local_r_idx.r_idx", Tiny.arange [images; 3; 1]%nat);
       ("Block.local_attn_weight.attn_weight",
        Tiny.arange [(images * 3)%nat; 2; 1; 3]%nat)]
  end.

#[local] Instance collaborators : Collaborators := {|
  Samples := nat;
  Labels := pyfloat;
  Output := nat;
  Loss := pyfloat;
  World := nat;
  Ema := nat;
  Param := nat;
  Image := nat;
  set_mode := fun _ w => w;
  forward := fun _ x => x;
  criterion := fun _ _ targets => targets;
  item := fun loss => loss;
  zero_grad := fun w => w;
  is_second_order := fun _ => false;
  loss_scaler := fun _ _ _ w => Datatypes.S w;
  lr_of := fun w => Fin (inject_Z (Z.of_nat w));
  ema_update := fun _ w => w;
  all_reduce_mean := fun v => v;
  reduce_meter := fun m => m;
  global_avg := fun m => Tiny.mean (fst <$> m);
  np_mean := Tiny.mean;
  captures := captured;
  named_parameters := fun _ => [("downsample_layers.0.0.weight", 0%nat)];
  param_size := fun _ => [8; 3; 4; 4]%nat;
  plot_kernels := fun _ _ _ _ => Ok tt;
  cross_entropy := fun _ _ => Fin 1;
  accuracy := fun _ _ => (Fin 50, Fin 100);
  shape0 := fun images => images;
  str_float := Tiny.show;
  str_meters := fun _ => "loss lr";
  str_summary := fun _ _ _ => "* Acc@1 Acc@5 loss"
|}.

(** The original dataset of the small instance. *)
Definition dataset : list (Image * Z) :=
  (fun i => (i, Z.of_nat (i mod 10))) <$> seq 0 300.

(** The model that captures no routing indices, and the one that captures
    three attention positions, before any batch. *)
Definition eval_missing : eval_state :=
  {| e_world := 0%nat; e_cache := ∅; e_meters := ∅; batch_num := 0;
     visual_dir := true |}.


(** A batch of 150 samples whose targets are the labels of the dataset. *)
Definition batch_150 : Samples * list Z :=
  (150%nat, (fun i => Z.of_nat (i mod 10)) <$> seq 0 150).
End Edge.

(** * Properties *)

(** ** Binary64 rounding *)

Section PyFloatFacts.
Local Open Scope Q_scope.

Lemma pow2_pos k : 0 < pow2 k.
Proof. unfold pow2. by apply Qpower_0_lt. Qed.

Lemma pow2_neq0 k : ~ pow2 k == 0.
Proof. intros Hk. pose proof (pow2_pos k) as Hp. rewrite Hk in Hp. discriminate. Qed.

Lemma pow2_add a b : pow2 (a + b) == pow2 a * pow2 b.
Proof. unfold pow2. by apply Qpower_plus. Qed.

Lemma pow2_le a b : (a <= b)%Z -> pow2 a <= pow2 b.
Proof. intros Hab. unfold pow2. by apply Qpower_le_compat_l. Qed.

Lemma pow2_lt a b : (a < b)%Z -> pow2 a < pow2 b.
Proof. intros Hab. unfold pow2. by apply Qpower_lt_compat_l. Qed.

Lemma pow2_lt_inv a b : pow2 a < pow2 b -> (a < b)%Z.
Proof. unfold pow2. intros Hab. by apply Qpower_lt_compat_l_inv in Hab. Qed.

Lemma pow2_nonneg_Z k : (0 <= k)%Z -> pow2 k == inject_Z (2 ^ k).
Proof. intros Hk. unfold pow2. by rewrite Zpower_Qpower. Qed.

Lemma pow2_succ k : pow2 (k + 1) == 2 * pow2 k.
Proof. rewrite pow2_add. unfold pow2 at 2. cbn. ring. Qed.

(** [|q|] lies in the binade given by [ilog2]. *)
Lemma ilog2_spec q :
  ~ q == 0 -> pow2 (ilog2 q) <= Qabs q /\ Qabs q < pow2 (ilog2 q + 1).
Proof.
  intros Hq. destruct q as [a b]. unfold ilog2. cbn [Qnum Qden].
  assert (Ha : (0 < Z.abs a)%Z).
  { destruct (Z.eq_dec a 0%Z) as [->|]; [|lia]. exfalso. apply Hq. reflexivity. }
  pose proof (Z.log2_spec (Z.abs a) Ha) as [Hal Hau].
  pose proof (Z.log2_spec (Zpos b) ltac:(lia)) as [Hbl Hbu].
  pose proof (Z.log2_nonneg (Z.abs a)) as Hla.
  pose proof (Z.log2_nonneg (Zpos b)) as Hlb.
  set (la := Z.log2 (Z.abs a)) in *. set (lb := Z.log2 (Zpos b)) in *.
  assert (Hval : Qabs (a # b) == inject_Z (Z.abs a) / inject_Z (Zpos b)).
  { unfold Qabs. rewrite (Qmake_Qdiv (Z.abs a) b). reflexivity. }
  assert (Hbpos : 0 < inject_Z (Zpos b)).
  { change 0 with (inject_Z 0). rewrite <- Zlt_Qlt. lia. }
  (* 2^(d-1) < |q| < 2^(d+1) *)
  assert (Hlow : pow2 (la - lb - 1) < Qabs (a # b)).
  { rewrite Hval. apply Qlt_shift_div_l; [exact Hbpos|].
    apply Qlt_le_trans with (pow2 (la - lb - 1) * pow2 (lb + 1)).
    - apply Qmult_lt_l; [apply pow2_pos|].
      rewrite (pow2_nonneg_Z (lb + 1)) by lia. rewrite <- Zlt_Qlt.
      by replace (lb + 1)%Z with (Z.succ lb) by lia.
    - rewrite <- pow2_add. replace (la - lb - 1 + (lb + 1))%Z with la by lia.
      rewrite (pow2_nonneg_Z la) by lia. by rewrite <- Zle_Qle. }
  assert (Hhigh : Qabs (a # b) < pow2 (la - lb + 1)).
  { rewrite Hval. apply Qlt_shift_div_r; [exact Hbpos|].
    apply Qlt_le_trans with (pow2 (la - lb + 1) * pow2 lb).
    - rewrite <- pow2_add. replace (la - lb + 1 + lb)%Z with (la + 1)%Z by lia.
      rewrite (pow2_nonneg_Z (la + 1)) by lia. rewrite <- Zlt_Qlt.
      by replace (la + 1)%Z with (Z.succ la) by lia.
    - apply Qmult_le_l; [apply pow2_pos|].
      rewrite (pow2_nonneg_Z lb) by lia. by rewrite <- Zle_Qle. }
  destruct (Qle_bool (pow2 (la - lb)) (Qabs (a # b))) eqn:Hcmp.
  - apply Qle_bool_iff in Hcmp. split; [exact Hcmp|exact Hhigh].
  - split.
    + by apply Qlt_le_weak.
    + replace (la - lb - 1 + 1)%Z with (la - lb)%Z by lia.
      apply Qnot_le_lt. intros Hle. apply Qle_bool_iff in Hle. congruence.
Qed.

Lemma floor_bounds q : inject_Z (Qfloor q) <= q /\ q < inject_Z (Qfloor q) + 1.
Proof.
  split; [apply Qfloor_le|].
  pose proof (Qlt_floor q) as Hlt. by rewrite inject_Z_plus in Hlt.
Qed.

Lemma rne_cases q :
  let f := Qfloor q in
  (rne q = f /\ q - inject_Z f <= 1 # 2
     /\ (q - inject_Z f == 1 # 2 -> Z.even f = true))
  \/ (rne q = (f + 1)%Z /\ 1 # 2 <= q - inject_Z f
      /\ (q - inject_Z f == 1 # 2 -> Z.even f = false)).
Proof.
  intros f. unfold rne. fold f.
  destruct (Qcompare_spec (q - inject_Z f) (1 # 2)) as [Heq|Hlt|Hgt].
  - destruct (Z.even f) eqn:Hev.
    + left. split; [reflexivity|]. split; [by rewrite Heq|done].
    + right. split; [reflexivity|]. split; [by rewrite Heq|done].
  - left. split; [reflexivity|]. split; [by apply Qlt_le_weak|].
    intros Heq. rewrite Heq in Hlt. discriminate.
  - right. split; [reflexivity|]. split; [by apply Qlt_le_weak|].
    intros Heq. rewrite Heq in Hgt. discriminate.
Qed.

(** The rounded integer is within one half of the rational. *)
Lemma rne_bounds q :
  inject_Z (rne q) - (1 # 2) <= q /\ q <= inject_Z (rne q) + (1 # 2).
Proof.
  pose proof (floor_bounds q) as [Hl Hu].
  destruct (rne_cases q) as [(-> & Hd & _)|(-> & Hd & _)].
  - split; lra.
  - rewrite inject_Z_plus. change (inject_Z 1) with 1. split; lra.
Qed.

Lemma rne_mono q1 q2 : q1 <= q2 -> (rne q1 <= rne q2)%Z.
Proof.
  intros Hle. pose proof (Qfloor_resp_le _ _ Hle) as Hf.
  pose proof (floor_bounds q1) as [Hl1 Hu1].
  pose proof (floor_bounds q2) as [Hl2 Hu2].
  destruct (rne_cases q1) as [(-> & Hd1 & He1)|(-> & Hd1 & He1)];
    destruct (rne_cases q2) as [(-> & Hd2 & He2)|(-> & Hd2 & He2)]; try lia.
  destruct (Z.eq_dec (Qfloor q1) (Qfloor q2)) as [Heq|Hne]; [|lia].
  exfalso. rewrite Heq in *.
  assert (Hhalf1 : q1 - inject_Z (Qfloor q2) == 1 # 2) by lra.
  assert (Hhalf2 : q2 - inject_Z (Qfloor q2) == 1 # 2) by lra.
  specialize (He1 Hhalf1). specialize (He2 Hhalf2). congruence.
Qed.

Lemma rne_inject_Z q z : q == inject_Z z -> rne q = z.
Proof.
  intros Hq. assert (Hf : Qfloor q = z) by (rewrite Hq; apply Qfloor_Z).
  destruct (rne_cases q) as [(-> & _)|(_ & Hd & _)]; [exact Hf|].
  rewrite Hf in Hd. lra.
Qed.

Lemma rne_ge q z : inject_Z z <= q -> (z <= rne q)%Z.
Proof.
  intros Hle. pose proof (rne_mono _ _ Hle) as Hm.
  by rewrite (rne_inject_Z (inject_Z z) z) in Hm.
Qed.

Lemma rne_le q z : q <= inject_Z z -> (rne q <= z)%Z.
Proof.
  intros Hle. pose proof (rne_mono _ _ Hle) as Hm.
  by rewrite (rne_inject_Z (inject_Z z) z) in Hm.
Qed.

Lemma RN_zero q : q == 0 -> RN q == 0.
Proof.
  intros Hq. unfold RN, round_me.
  apply Qeq_bool_iff in Hq as ->. reflexivity.
Qed.

Lemma RN_nonzero q :
  ~ q == 0 ->
  RN q = inject_Z (rne (q / pow2 (ulp_exp q))) * pow2 (ulp_exp q).
Proof.
  intros Hq. unfold RN, round_me.
  destruct (Qeq_bool q 0) eqn:Hz; [|reflexivity].
  by apply Qeq_bool_iff in Hz.
Qed.

Lemma scaled_back q k : q / pow2 k * pow2 k == q.
Proof. field. apply pow2_neq0. Qed.

(** The rounding error is at most half a unit in the last place. *)
Lemma RN_error q :
  ~ q == 0 ->
  RN q - q <= pow2 (ulp_exp q) * (1 # 2)
  /\ q - RN q <= pow2 (ulp_exp q) * (1 # 2).
Proof.
  intros Hq. rewrite (RN_nonzero q Hq).
  set (p := pow2 (ulp_exp q)). set (y := q / p).
  pose proof (pow2_pos (ulp_exp q)) as Hp. fold p in Hp.
  pose proof (rne_bounds y) as [Hl Hu].
  assert (Hqy : q == y * p) by (unfold y, p; symmetry; apply scaled_back).
  set (m := inject_Z (rne y)) in *.
  assert (H1 : (m - y) * p <= (1 # 2) * p) by (apply Qmult_le_compat_r; lra).
  assert (H2 : (y - m) * p <= (1 # 2) * p) by (apply Qmult_le_compat_r; lra).
  assert (E1 : (m - y) * p == m * p - q) by (rewrite Hqy; ring).
  assert (E2 : (y - m) * p == q - m * p) by (rewrite Hqy; ring).
  rewrite E1 in H1. rewrite E2 in H2. split; lra.
Qed.

Lemma ilog2_mono q1 q2 : 0 < q1 -> q1 <= q2 -> (ilog2 q1 <= ilog2 q2)%Z.
Proof.
  intros Hpos Hle.
  destruct (ilog2_spec q1) as [Hl1 _]; [lra|].
  destruct (ilog2_spec q2) as [_ Hu2]; [lra|].
  rewrite Qabs_pos in Hl1 by lra. rewrite Qabs_pos in Hu2 by lra.
  assert (Hlt : pow2 (ilog2 q1) < pow2 (ilog2 q2 + 1)) by lra.
  apply pow2_lt_inv in Hlt. lia.
Qed.

Lemma RN_nonneg q : 0 <= q -> 0 <= RN q.
Proof.
  intros Hq. destruct (Qeq_dec q 0) as [Hz|Hnz].
  - rewrite (RN_zero q Hz). lra.
  - rewrite (RN_nonzero q Hnz). apply Qmult_le_0_compat.
    + change 0 with (inject_Z 0). rewrite <- Zle_Qle. apply rne_ge.
      change (inject_Z 0) with 0. apply Qle_shift_div_l; [apply pow2_pos|lra].
    + apply Qlt_le_weak, pow2_pos.
Qed.

(** Rounding is monotone on the positive rationals. *)
Lemma RN_mono_pos q1 q2 : 0 < q1 -> q1 <= q2 -> RN q1 <= RN q2.
Proof.
  intros Hpos Hle.
  rewrite (RN_nonzero q1), (RN_nonzero q2) by lra.
  pose proof (ilog2_mono q1 q2 Hpos Hle) as Hlog.
  assert (Hex : (ulp_exp q1 <= ulp_exp q2)%Z) by (unfold ulp_exp; lia).
  pose proof (pow2_pos (ulp_exp q1)) as Hp1.
  pose proof (pow2_pos (ulp_exp q2)) as Hp2.
  destruct (Z.eq_dec (ulp_exp q1) (ulp_exp q2)) as [Heq|Hne].
  - rewrite Heq in *. apply Qmult_le_compat_r; [|lra].
    rewrite <- Zle_Qle. apply rne_mono.
    apply Qmult_le_compat_r; [exact Hle|].
    apply Qlt_le_weak, Qinv_lt_0_compat, Hp2.
  - (* a binade boundary lies between the two *)
    assert (Hex2 : ulp_exp q2 = (ilog2 q2 - (prec - 1))%Z) by (unfold ulp_exp in *; lia).
    assert (Hex1 : (ilog2 q1 - (prec - 1) <= ulp_exp q1)%Z) by (unfold ulp_exp; lia).
    destruct (ilog2_spec q1) as [_ Hu1]; [lra|].
    destruct (ilog2_spec q2) as [Hl2 _]; [lra|].
    rewrite Qabs_pos in Hu1 by lra. rewrite Qabs_pos in Hl2 by lra.
    apply Qle_trans with (pow2 (ulp_exp q1 + prec)).
    + rewrite pow2_add, (Qmult_comm (pow2 (ulp_exp q1))).
      apply Qmult_le_compat_r; [|lra].
      rewrite (pow2_nonneg_Z prec) by (unfold prec; lia).
      rewrite <- Zle_Qle. apply rne_le.
      rewrite <- (pow2_nonneg_Z prec) by (unfold prec; lia).
      apply Qle_shift_div_r; [exact Hp1|].
      rewrite Qmult_comm, <- pow2_add.
      apply Qle_trans with (pow2 (ilog2 q1 + 1)); [lra|].
      apply pow2_le. unfold prec in *. lia.
    + apply Qle_trans with (pow2 (ulp_exp q2 + (prec - 1))).
      * apply pow2_le. unfold prec. lia.
      * rewrite pow2_add, (Qmult_comm (pow2 (ulp_exp q2))).
        apply Qmult_le_compat_r; [|lra].
        rewrite (pow2_nonneg_Z (prec - 1)) by (unfold prec; lia).
        rewrite <- Zle_Qle. apply rne_ge.
        rewrite <- (pow2_nonneg_Z (prec - 1)) by (unfold prec; lia).
        apply Qle_shift_div_l; [exact Hp2|].
        rewrite Qmult_comm, <- pow2_add.
        replace (ulp_exp q2 + (prec - 1))%Z with (ilog2 q2) by lia. exact Hl2.
Qed.

Lemma RN_mono_nonneg q1 q2 : 0 <= q1 -> q1 <= q2 -> RN q1 <= RN q2.
Proof.
  intros Hq1 Hle. destruct (Qeq_dec q1 0) as [Hz|Hnz].
  - rewrite (RN_zero q1 Hz). apply RN_nonneg. lra.
  - apply RN_mono_pos; [|exact Hle].
    destruct (Qlt_le_dec 0 q1) as [|Hneg]; [done|]. exfalso. apply Hnz. lra.
Qed.

Lemma rne_comp q q' : q == q' -> rne q = rne q'.
Proof.
  intros Hq. unfold rne. rewrite (Qfloor_comp q q' Hq).
  assert (Hd : q - inject_Z (Qfloor q') == q' - inject_Z (Qfloor q')) by lra.
  by rewrite (Qcompare_comp _ _ Hd (1 # 2) (1 # 2) (Qeq_refl _)).
Qed.

(** Ties-to-even is symmetric about zero. *)
Lemma rne_opp y : rne (- y) = (- rne y)%Z.
Proof.
  pose proof (floor_bounds y) as [Hl Hu].
  pose proof (floor_bounds (- y)) as [Hl' Hu'].
  pose proof (rne_cases y) as Hy. pose proof (rne_cases (- y)) as Hy'.
  cbv zeta in Hy, Hy'.
  set (f := Qfloor y) in *. set (g := Qfloor (- y)) in *. clearbody f g.
  assert (Hfg : f = (- g)%Z \/ f = (- g - 1)%Z).
  { assert (H1 : inject_Z f < inject_Z (- g + 1)).
    { rewrite inject_Z_plus, inject_Z_opp. change (inject_Z 1) with 1. lra. }
    assert (H2 : inject_Z (- g - 1) < inject_Z (f + 1)).
    { unfold Z.sub. rewrite !inject_Z_plus, !inject_Z_opp.
      change (inject_Z 1) with 1. lra. }
    rewrite <- Zlt_Qlt in H1, H2. lia. }
  assert (Hg : inject_Z g == - inject_Z f \/ inject_Z g == - inject_Z f - 1).
  { destruct Hfg as [->| ->].
    - left. rewrite inject_Z_opp. ring.
    - right. unfold Z.sub. rewrite inject_Z_plus, !inject_Z_opp.
      change (inject_Z 1) with 1. ring. }
  assert (Hpar : f = (- g - 1)%Z -> Z.even g = negb (Z.even f)).
  { intros ->. replace (- g - 1)%Z with (- Z.succ g)%Z by lia.
    rewrite Z.even_opp, Z.even_succ, <- Z.negb_even. by rewrite negb_involutive. }
  destruct Hy as [(-> & Hd & He)|(-> & Hd & He)];
    destruct Hy' as [(-> & Hd' & He')|(-> & Hd' & He')].
  - destruct Hfg as [Hfg|Hfg]; [lia|]. exfalso.
    destruct Hg as [Hg|Hg]; [rewrite Hfg in Hg; revert Hg;
      unfold Z.sub; rewrite inject_Z_plus, !inject_Z_opp;
      change (inject_Z 1) with 1; intros Hg; lra|].
    assert (T : y - inject_Z f == 1 # 2) by lra.
    assert (T' : - y - inject_Z g == 1 # 2) by lra.
    specialize (He T). specialize (He' T'). rewrite (Hpar Hfg), He in He'. done.
  - destruct Hfg as [Hfg|Hfg]; [|lia]. exfalso.
    destruct Hg as [Hg|Hg]; [lra|]. rewrite Hfg in Hg. revert Hg.
    rewrite inject_Z_opp. intros Hg. lra.
  - destruct Hfg as [Hfg|Hfg]; [|lia]. exfalso.
    destruct Hg as [Hg|Hg]; [lra|]. rewrite Hfg in Hg. revert Hg.
    rewrite inject_Z_opp. intros Hg. lra.
  - exfalso. destruct Hfg as [Hfg|Hfg].
    + destruct Hg as [Hg|Hg]; [lra|]. rewrite Hfg in Hg. revert Hg.
      rewrite inject_Z_opp. intros Hg. lra.
    + destruct Hg as [Hg|Hg]; [rewrite Hfg in Hg; revert Hg;
        unfold Z.sub; rewrite inject_Z_plus, !inject_Z_opp;
        change (inject_Z 1) with 1; intros Hg; lra|].
      assert (T : y - inject_Z f == 1 # 2) by lra.
      assert (T' : - y - inject_Z g == 1 # 2) by lra.
      specialize (He T). specialize (He' T'). rewrite (Hpar Hfg), He in He'. done.
Qed.

Lemma ilog2_opp q : ilog2 (- q) = ilog2 q.
Proof.
  destruct q as [a b]. unfold ilog2, Qabs, Qopp. cbn [Qnum Qden].
  by rewrite Z.abs_opp.
Qed.

Lemma RN_opp q : RN (- q) == - RN q.
Proof.
  destruct (Qeq_dec q 0) as [Hz|Hnz].
  - rewrite (RN_zero q Hz), (RN_zero (- q)); [reflexivity|]. rewrite Hz. reflexivity.
  - rewrite (RN_nonzero q Hnz), (RN_nonzero (- q)).
    2:{ intros Hq. apply Hnz. lra. }
    unfold ulp_exp. rewrite ilog2_opp. fold (ulp_exp q).
    rewrite (rne_comp (- q / pow2 (ulp_exp q)) (- (q / pow2 (ulp_exp q)))).
    2:{ field. apply pow2_neq0. }
    rewrite rne_opp, inject_Z_opp. ring.
Qed.

(** Rounding is monotone. *)
Lemma RN_mono q1 q2 : q1 <= q2 -> RN q1 <= RN q2.
Proof.
  intros Hle. destruct (Qlt_le_dec q1 0) as [Hneg1|Hpos1].
  - assert (E1 : RN q1 == - RN (- q1)).
    { rewrite RN_opp. ring. }
    destruct (Qlt_le_dec q2 0) as [Hneg2|Hpos2].
    + assert (E2 : RN q2 == - RN (- q2)).
      { rewrite RN_opp. ring. }
      pose proof (RN_mono_nonneg (- q2) (- q1) ltac:(lra) ltac:(lra)). lra.
    + pose proof (RN_nonneg (- q1) ltac:(lra)).
      pose proof (RN_nonneg q2 Hpos2). lra.
  - by apply RN_mono_nonneg.
Qed.

Lemma Qtrunc_nonneg q : 0 <= q -> Qtrunc q = Qfloor q.
Proof.
  destruct q as [a b]. unfold Qle, Qtrunc, Qfloor. cbn. intros Ha.
  apply Z.quot_div_nonneg; lia.
Qed.

Lemma Qtrunc_opp q : Qtrunc (- q) = (- Qtrunc q)%Z.
Proof.
  destruct q as [a b]. unfold Qtrunc, Qopp. cbn [Qnum Qden].
  apply Z.quot_opp_l. lia.
Qed.

(** Truncation toward zero is monotone. *)
Lemma Qtrunc_mono q1 q2 : q1 <= q2 -> (Qtrunc q1 <= Qtrunc q2)%Z.
Proof.
  intros Hle.
  assert (Hpos : forall q, 0 <= q -> (0 <= Qtrunc q)%Z).
  { intros q Hq. rewrite Qtrunc_nonneg by exact Hq.
    change 0%Z with (Qfloor 0). by apply Qfloor_resp_le. }
  destruct (Qlt_le_dec q1 0) as [Hneg1|Hpos1].
  - assert (E1 : Qtrunc q1 = (- Qtrunc (- q1))%Z).
    { rewrite Qtrunc_opp. lia. }
    destruct (Qlt_le_dec q2 0) as [Hneg2|Hpos2].
    + assert (E2 : Qtrunc q2 = (- Qtrunc (- q2))%Z).
      { rewrite Qtrunc_opp. lia. }
      rewrite E1, E2, !Qtrunc_nonneg by lra.
      pose proof (Qfloor_resp_le (- q2) (- q1) ltac:(lra)). lia.
    + pose proof (Hpos (- q1) ltac:(lra)). pose proof (Hpos q2 Hpos2). lia.
  - rewrite !Qtrunc_nonneg by lra. by apply Qfloor_resp_le.
Qed.

Lemma RN_comp q q' : q == q' -> RN q == RN q'.
Proof.
  intros Hq. apply Qle_antisym; apply RN_mono; rewrite Hq; apply Qle_refl.
Qed.

Lemma Qtrunc_comp q q' : q == q' -> Qtrunc q = Qtrunc q'.
Proof.
  intros Hq. apply Z.le_antisymm; apply Qtrunc_mono; rewrite Hq; apply Qle_refl.
Qed.

Lemma overflows_comp q q' : q == q' -> overflows q = overflows q'.
Proof.
  intros Hq. unfold overflows.
  destruct (Qle_bool _ (Qabs q)) eqn:H1, (Qle_bool _ (Qabs q')) eqn:H2; try done.
  - apply Qle_bool_iff in H1. rewrite Hq in H1. apply Qle_bool_iff in H1. congruence.
  - apply Qle_bool_iff in H2. rewrite <- Hq in H2. apply Qle_bool_iff in H2. congruence.
Qed.

Lemma half_subnormal_small : 0 < half_subnormal /\ half_subnormal <= 1 # 18446744073709551616.
Proof.
  split; [apply pow2_pos|].
  apply Qle_trans with (pow2 (-64)).
  - apply pow2_le. unfold emin. lia.
  - unfold pow2. apply Qle_bool_iff. reflexivity.
Qed.

Lemma ulp_bound q :
  0 < q -> pow2 (ulp_exp q) <= q * (2 * unit_roundoff) + 2 * half_subnormal.
Proof.
  intros Hq. pose proof (pow2_pos (emin - 1)) as Hv. fold half_subnormal in Hv.
  assert (Hemin : pow2 emin == 2 * half_subnormal).
  { unfold half_subnormal. replace emin with (emin - 1 + 1)%Z at 1 by lia.
    apply pow2_succ. }
  unfold ulp_exp. destruct (Z.max_spec (ilog2 q - (prec - 1)) emin) as [[_ ->]|[_ ->]].
  - rewrite Hemin. assert (0 <= q * (2 * unit_roundoff)); [|lra].
    apply Qmult_le_0_compat; [lra|]. unfold unit_roundoff. lra.
  - destruct (ilog2_spec q) as [Hl _]; [lra|]. rewrite Qabs_pos in Hl by lra.
    replace (ilog2 q - (prec - 1))%Z with (ilog2 q + - (prec - 1))%Z by lia.
    rewrite pow2_add.
    assert (E : pow2 (- (prec - 1)) == 2 * unit_roundoff) by reflexivity.
    rewrite E.
    assert (pow2 (ilog2 q) * (2 * unit_roundoff) <= q * (2 * unit_roundoff)); [|lra].
    apply Qmult_le_compat_r; [exact Hl|]. unfold unit_roundoff. lra.
Qed.

Lemma RN_bounds q :
  0 <= q ->
  q * (1 - unit_roundoff) - half_subnormal <= RN q
  /\ RN q <= q * (1 + unit_roundoff) + half_subnormal.
Proof.
  intros Hq. pose proof half_subnormal_small as [Hv _].
  destruct (Qeq_dec q 0) as [Hz|Hnz].
  - rewrite (RN_zero q Hz), Hz. split; lra.
  - assert (Hpos : 0 < q).
    { destruct (Qlt_le_dec 0 q) as [|Hneg]; [done|]. exfalso. apply Hnz. lra. }
    pose proof (RN_error q Hnz) as [H1 H2].
    pose proof (ulp_bound q Hpos) as Hulp.
    split; lra.
Qed.

Lemma not_overflows q : Qabs q < pow2 emax -> overflows q = false.
Proof.
  intros Hq. unfold overflows. destruct (Qle_bool _ _) eqn:Hle; [|done].
  apply Qle_bool_iff in Hle. lra.
Qed.


Lemma epoch_1000x_inv i n e c :
  epoch_1000x i n e = Ok c -> n <> 0%Z /\ c = Qtrunc (coordinate i n e).
Proof.
  unfold epoch_1000x, int_truediv, fadd_int, fmul_int, float_of_int, fround_exn,
    coordinate.
  destruct (n =? 0)%Z eqn:Hn; [discriminate|]. apply Z.eqb_neq in Hn.
  destruct (overflows (RN (inject_Z i / inject_Z n))); [discriminate|].
  cbn [mbind res_mbind res_bind].
  destruct (overflows (RN (inject_Z e))); [discriminate|].
  cbn [mbind res_mbind res_bind fadd]. unfold fround at 1.
  destruct (overflows (RN (RN _ + RN _))).
  { destruct (overflows (RN (inject_Z 1000))); [discriminate|].
    cbn [res_bind fmul]. destruct (Qeq_bool _ 0); discriminate. }
  destruct (overflows (RN (inject_Z 1000))); [discriminate|].
  cbn [res_bind fmul]. unfold fround.
  destruct (overflows (RN (RN _ * RN _))); [discriminate|].
  cbn [int_of_float]. by intros [= <-].
Qed.

Lemma epoch_1000x_ok i n e :
  n <> 0%Z ->
  overflows (RN (inject_Z i / inject_Z n)) = false ->
  overflows (RN (inject_Z e)) = false ->
  overflows (RN (RN (inject_Z i / inject_Z n) + RN (inject_Z e))) = false ->
  overflows (coordinate i n e) = false ->
  epoch_1000x i n e = Ok (Qtrunc (coordinate i n e)).
Proof.
  intros Hn H1 H2 H3 H4.
  unfold epoch_1000x, int_truediv, fadd_int, fmul_int, float_of_int, fround_exn.
  apply Z.eqb_neq in Hn. rewrite Hn, H1. cbn [mbind res_mbind res_bind].
  rewrite H2. cbn [mbind res_mbind res_bind fadd]. unfold fround at 1. rewrite H3.
  replace (overflows (RN (inject_Z 1000))) with false by reflexivity.
  cbn [res_bind fmul]. unfold fround. fold (coordinate i n e). by rewrite H4.
Qed.

Lemma RN_1000 : RN (inject_Z 1000) == 1000.
Proof. reflexivity. Qed.

Lemma coordinate_mono i j n e :
  (i <= j)%Z -> (0 < n)%Z -> coordinate i n e <= coordinate j n e.
Proof.
  intros Hij Hn. unfold coordinate. apply RN_mono.
  apply Qmult_le_compat_r; [|rewrite RN_1000; lra].
  apply RN_mono. apply Qplus_le_l. apply RN_mono.
  apply Qmult_le_compat_r; [by rewrite <- Zle_Qle|].
  apply Qlt_le_weak, Qinv_lt_0_compat.
  change 0 with (inject_Z 0). by rewrite <- Zlt_Qlt.
Qed.

Lemma pow2_emax_big : 18446744073709551616 <= pow2 emax.
Proof.
  apply Qle_trans with (pow2 64); [apply Qle_bool_iff; reflexivity|].
  apply pow2_le. unfold emax. lia.
Qed.

Lemma inject_Z_neq0 z : z <> 0%Z -> ~ inject_Z z == 0.
Proof. intros Hz Hq. apply Hz. unfold Qeq in Hq. cbn in Hq. lia. Qed.

(** An integer below [2^53] in magnitude is a binary64 number. *)
Lemma RN_exact_int z :
  (Z.abs z < 2 ^ 53)%Z -> RN (inject_Z z) == inject_Z z.
Proof.
  intros Hz. destruct (Z.eq_dec z 0%Z) as [->|Hz0]; [reflexivity|].
  assert (Hq : ~ inject_Z z == 0) by by apply inject_Z_neq0.
  rewrite (RN_nonzero _ Hq).
  destruct (ilog2_spec _ Hq) as [Hlo _].
  assert (Habs : Qabs (inject_Z z) < pow2 53).
  { rewrite (pow2_nonneg_Z 53) by lia.
    change (Qabs (inject_Z z)) with (inject_Z (Z.abs z)). by rewrite <- Zlt_Qlt. }
  assert (Hlog : (ilog2 (inject_Z z) < 53)%Z).
  { apply pow2_lt_inv. eapply Qle_lt_trans; [exact Hlo|exact Habs]. }
  set (ex := ulp_exp (inject_Z z)).
  assert (Hex : (ex <= 0)%Z) by (unfold ex, ulp_exp, prec, emin; lia).
  assert (Hinv : pow2 ex * pow2 (- ex) == 1).
  { rewrite <- pow2_add. replace (ex + - ex)%Z with 0%Z by lia. reflexivity. }
  assert (Hp : pow2 (- ex) == / pow2 ex).
  { rewrite <- (Qmult_1_l (/ pow2 ex)), <- Hinv. field. apply pow2_neq0. }
  assert (Hscaled : inject_Z z / pow2 ex == inject_Z (z * 2 ^ (- ex))).
  { rewrite inject_Z_mult, <- (pow2_nonneg_Z (- ex)), Hp by lia. reflexivity. }
  rewrite (rne_inject_Z _ _ Hscaled).
  rewrite inject_Z_mult, <- (pow2_nonneg_Z (- ex)) by lia.
  rewrite <- Qmult_assoc, (Qmult_comm (pow2 (- ex))), Hinv. ring.
Qed.

(** The binade of a rational, from its bounds. *)
Lemma ilog2_of_bounds q k : pow2 k <= q -> q < pow2 (k + 1) -> ilog2 q = k.
Proof.
  intros Hl Hu. pose proof (pow2_pos k) as Hk.
  destruct (ilog2_spec q) as [Hl' Hu']; [lra|].
  rewrite Qabs_pos in Hl', Hu' by lra.
  assert (H1 : pow2 k < pow2 (ilog2 q + 1)) by lra.
  assert (H2 : pow2 (ilog2 q) < pow2 (k + 1)) by lra.
  apply pow2_lt_inv in H1, H2. lia.
Qed.

Lemma ilog2_below q k : 0 < q -> q < pow2 (k + 1) -> (ilog2 q <= k)%Z.
Proof.
  intros Hq Hu. destruct (ilog2_spec q) as [Hl' _]; [lra|].
  rewrite Qabs_pos in Hl' by lra.
  assert (H2 : pow2 (ilog2 q) < pow2 (k + 1)) by lra.
  apply pow2_lt_inv in H2. lia.
Qed.

(** In the binade of exponent [k] the binary64 numbers are the multiples
    of [2^(k - 52)]. *)
Lemma RN_binade q k :
  (emin <= k - 52)%Z -> pow2 k <= q -> q < pow2 (k + 1) ->
  RN q == inject_Z (rne (q / pow2 (k - 52))) * pow2 (k - 52).
Proof.
  intros Hk Hl Hu. pose proof (pow2_pos k) as Hpos.
  rewrite RN_nonzero by lra.
  unfold ulp_exp. rewrite (ilog2_of_bounds q k Hl Hu). unfold prec.
  replace (Z.max (k - (53 - 1)) emin) with (k - 52)%Z by lia. reflexivity.
Qed.

(** Below [2^(k + 1)] a rounding errs by at most [2^(k - 53)]. *)
Lemma RN_abs_error q k :
  (emin <= k - 52)%Z -> 0 <= q -> q < pow2 (k + 1) ->
  RN q - q <= pow2 (k - 53) /\ q - RN q <= pow2 (k - 53).
Proof.
  intros Hk H0 Hu. pose proof (pow2_pos (k - 53)) as Hpos.
  destruct (Qeq_dec q 0) as [Hz|Hnz].
  - rewrite (RN_zero q Hz), Hz. split; lra.
  - assert (Hq : 0 < q).
    { destruct (Qlt_le_dec 0 q) as [|Hneg]; [done|]. exfalso. apply Hnz. lra. }
    pose proof (RN_error q Hnz) as [H1 H2].
    assert (Hulp : pow2 (ulp_exp q) <= pow2 (k - 52)).
    { apply pow2_le. pose proof (ilog2_below q k Hq Hu).
      unfold ulp_exp, prec. lia. }
    assert (Hhalf : pow2 (k - 52) == 2 * pow2 (k - 53)).
    { replace (k - 52)%Z with (k - 53 + 1)%Z by lia. apply pow2_succ. }
    split; lra.
Qed.

Lemma rne_above q z : inject_Z z + (1 # 2) < q -> (z + 1 <= rne q)%Z.
Proof.
  intros Hq. pose proof (rne_bounds q) as [_ Hu].
  assert (Hlt : inject_Z z < inject_Z (rne q)) by lra.
  rewrite <- Zlt_Qlt in Hlt. lia.
Qed.

Lemma rne_below q z : q < inject_Z z + (1 # 2) -> (rne q <= z)%Z.
Proof.
  intros Hq. pose proof (rne_bounds q) as [Hl _].
  assert (Hlt : inject_Z (rne q) < inject_Z (z + 1)).
  { rewrite inject_Z_plus. change (inject_Z 1) with 1. lra. }
  rewrite <- Zlt_Qlt in Hlt. lia.
Qed.

Lemma Qfloor_unique q z : inject_Z z <= q -> q < inject_Z z + 1 -> Qfloor q = z.
Proof.
  intros Hl Hu. pose proof (floor_bounds q) as [Hl' Hu'].
  assert (H1 : inject_Z z < inject_Z (Qfloor q + 1)).
  { rewrite inject_Z_plus. change (inject_Z 1) with 1. lra. }
  assert (H2 : inject_Z (Qfloor q) < inject_Z (z + 1)).
  { rewrite inject_Z_plus. change (inject_Z 1) with 1. lra. }
  rewrite <- Zlt_Qlt in H1, H2. lia.
Qed.

(** A shift by two keeps the parity that decides a tie. *)
Lemma rne_add_2 q : rne (q + 2) = (rne q + 2)%Z.
Proof.
  pose proof (floor_bounds q) as [Hl Hu].
  assert (Hf : Qfloor (q + 2) = (Qfloor q + 2)%Z).
  { apply Qfloor_unique; rewrite inject_Z_plus; change (inject_Z 2) with 2; lra. }
  assert (Hd : q + 2 - inject_Z (Qfloor q + 2) == q - inject_Z (Qfloor q)).
  { rewrite inject_Z_plus. change (inject_Z 2) with 2. ring. }
  assert (Hev : Z.even (Qfloor q + 2) = Z.even (Qfloor q)).
  { rewrite Z.even_add. by destruct (Z.even (Qfloor q)). }
  unfold rne. rewrite Hf, Hev, Hd. clear Hf Hev Hd.
  destruct (_ ?= _); [destruct (Z.even (Qfloor q))|..]; lia.
Qed.

(** The coordinate of a sum [y] of the fraction and the epoch. *)
Lemma scaled_between S S' a b :
  S <= a -> b <= S' -> RN (a * 1000) + 1 <= RN (b * 1000) ->
  RN (S * 1000) + 1 <= RN (S' * 1000).
Proof.
  intros Ha Hb Hab.
  assert (H1 : RN (S * 1000) <= RN (a * 1000)) by (apply RN_mono; lra).
  assert (H2 : RN (b * 1000) <= RN (S' * 1000)) by (apply RN_mono; lra).
  lra.
Qed.

Lemma scaled_error S :
  0 <= S -> S <= 4503599627370498 ->
  RN (S * 1000) - S * 1000 <= 256 /\ S * 1000 - RN (S * 1000) <= 256.
Proof.
  intros H0 H1.
  assert (E62 : pow2 (61 + 1) == 4611686018427387904) by reflexivity.
  assert (E8 : pow2 (61 - 53) == 256) by reflexivity.
  destruct (RN_abs_error (S * 1000) 61) as [Hu Hl];
    [unfold emin; lia|lra|lra|]. lra.
Qed.

(** One more epoch moves the coordinate by at least one, as long as the sum
    of the fraction and the epoch is at most [2^52 + 1]: below [2^51] by the
    size of the rounding errors, from [2^51] to [2^52] because the sum moves
    by a whole number of units in the last place, and around [2^52] by the
    values of the few binary64 numbers there. *)
Lemma scaled_step y :
  0 <= y -> y <= 4503599627370497 ->
  RN (RN y * 1000) + 1 <= RN (RN (y + 1) * 1000).
Proof.
  intros Hy0 Hy1.
  assert (E51 : pow2 51 == 2251799813685248) by reflexivity.
  assert (E52 : pow2 52 == 4503599627370496) by reflexivity.
  assert (E53 : pow2 53 == 9007199254740992) by reflexivity.
  assert (T52 : RN 4503599627370496 == 4503599627370496) by reflexivity.
  assert (T52' : RN 4503599627370497 == 4503599627370497) by reflexivity.
  pose proof (RN_nonneg y Hy0) as HS0.
  destruct (Qlt_le_dec y 2251799813685248) as [HA|HA].
  - (* below 2^51 *)
    assert (E3 : pow2 (50 - 53) == 1 # 8) by reflexivity.
    assert (E2 : pow2 (51 - 53) == 1 # 4) by reflexivity.
    destruct (RN_abs_error y 50) as [Hu Hl]; [unfold emin; lia|lra|
      change (50 + 1)%Z with 51%Z; lra|].
    destruct (RN_abs_error (y + 1) 51) as [Hu' Hl']; [unfold emin; lia|lra|
      change (51 + 1)%Z with 52%Z; lra|].
    assert (HS0' : 0 <= RN (y + 1)) by (apply RN_nonneg; lra).
    destruct (scaled_error (RN y)) as [Pu Pl]; [lra|lra|].
    destruct (scaled_error (RN (y + 1))) as [Pu' Pl']; [lra|lra|].
    lra.
  - destruct (Qlt_le_dec (y + 1) 4503599627370496) as [HB|HB].
    + (* from 2^51 to 2^52 *)
      assert (Eh : pow2 (51 - 52) == 1 # 2) by reflexivity.
      assert (HS : RN y == inject_Z (rne (y / pow2 (51 - 52))) * pow2 (51 - 52)).
      { apply RN_binade; [unfold emin; lia|lra|change (51 + 1)%Z with 52%Z; lra]. }
      assert (HS' : RN (y + 1)
                    == inject_Z (rne ((y + 1) / pow2 (51 - 52))) * pow2 (51 - 52)).
      { apply RN_binade; [unfold emin; lia|lra|change (51 + 1)%Z with 52%Z; lra]. }
      assert (Hshift : (y + 1) / pow2 (51 - 52) == y / pow2 (51 - 52) + 2).
      { rewrite Eh. field. }
      rewrite (rne_comp _ _ Hshift), rne_add_2, inject_Z_plus in HS'.
      change (inject_Z 2) with 2 in HS'.
      set (m := inject_Z (rne (y / pow2 (51 - 52)))) in *.
      assert (Hm' : RN (y + 1) <= 4503599627370496).
      { rewrite <- T52. apply RN_mono. lra. }
      destruct (scaled_error (RN y)) as [Pu Pl]; [lra|lra|].
      destruct (scaled_error (RN (y + 1))) as [Pu' Pl']; [lra|lra|].
      lra.
    + destruct (Qlt_le_dec y 4503599627370496) as [HC|HC].
      * (* the last unit below 2^52 *)
        destruct (Qlt_le_dec y (18014398509481983 # 4)) as [HD|HD].
        -- apply (scaled_between _ _ (9007199254740991 # 2) 4503599627370496).
           ++ assert (Eh : pow2 (51 - 52) == 1 # 2) by reflexivity.
              assert (HS : RN y == inject_Z (rne (y / pow2 (51 - 52)))
                                   * pow2 (51 - 52)).
              { apply RN_binade;
                  [unfold emin; lia|lra|change (51 + 1)%Z with 52%Z; lra]. }
              rewrite HS.
              assert (Hm : (rne (y / pow2 (51 - 52)) <= 9007199254740991)%Z).
              { apply rne_below. rewrite Eh.
                change (inject_Z 9007199254740991) with 9007199254740991.
                assert (Ey : y / (1 # 2) == 2 * y) by field. lra. }
              rewrite Zle_Qle in Hm.
              change (inject_Z 9007199254740991) with 9007199254740991 in Hm.
              set (m := inject_Z (rne (y / pow2 (51 - 52)))) in *.
              rewrite Eh. lra.
           ++ rewrite <- T52. apply RN_mono. lra.
           ++ apply Qle_bool_iff. vm_compute. reflexivity.
        -- apply (scaled_between _ _ 4503599627370496 4503599627370497).
           ++ rewrite <- T52. apply RN_mono. lra.
           ++ assert (Eo : pow2 (52 - 52) == 1) by reflexivity.
              assert (HS : RN (y + 1)
                           == inject_Z (rne ((y + 1) / pow2 (52 - 52)))
                              * pow2 (52 - 52)).
              { apply RN_binade;
                  [unfold emin; lia|lra|change (52 + 1)%Z with 53%Z; lra]. }
              rewrite HS.
              assert (Hm : (4503599627370496 + 1
                            <= rne ((y + 1) / pow2 (52 - 52)))%Z).
              { apply rne_above. rewrite Eo.
                change (inject_Z 4503599627370496) with 4503599627370496.
                assert (Ey : (y + 1) / 1 == y + 1) by field. lra. }
              rewrite Zle_Qle in Hm.
              change (inject_Z (4503599627370496 + 1)) with 4503599627370497 in Hm.
              set (m := inject_Z (rne ((y + 1) / pow2 (52 - 52)))) in *.
              rewrite Eo. lra.
           ++ apply Qle_bool_iff. vm_compute. reflexivity.
      * (* the first unit above 2^52 *)
        destruct (Qlt_le_dec (9007199254740993 # 2) y) as [HD|HD].
        -- apply (scaled_between _ _ 4503599627370497 4503599627370498).
           ++ rewrite <- T52'. apply RN_mono. lra.
           ++ assert (Eo : pow2 (52 - 52) == 1) by reflexivity.
              assert (HS : RN (y + 1)
                           == inject_Z (rne ((y + 1) / pow2 (52 - 52)))
                              * pow2 (52 - 52)).
              { apply RN_binade;
                  [unfold emin; lia|lra|change (52 + 1)%Z with 53%Z; lra]. }
              rewrite HS.
              assert (Hm : (4503599627370497 + 1
                            <= rne ((y + 1) / pow2 (52 - 52)))%Z).
              { apply rne_above. rewrite Eo.
                change (inject_Z 4503599627370497) with 4503599627370497.
                assert (Ey : (y + 1) / 1 == y + 1) by field. lra. }
              rewrite Zle_Qle in Hm.
              change (inject_Z (4503599627370497 + 1)) with 4503599627370498 in Hm.
              set (m := inject_Z (rne ((y + 1) / pow2 (52 - 52)))) in *.
              rewrite Eo. lra.
           ++ apply Qle_bool_iff. vm_compute. reflexivity.
        -- apply (scaled_between _ _ (RN (9007199254740993 # 2))
                    (RN 4503599627370497)).
           ++ apply RN_mono. lra.
           ++ apply RN_mono. lra.
           ++ apply Qle_bool_iff. vm_compute. reflexivity.
Qed.

(** Up to the epoch [2^53] nothing overflows and the coordinate is not
    negative. *)
Lemma coordinate_defined i n e :
  (0 <= i <= n)%Z -> (0 < n)%Z -> (0 <= e <= 2 ^ 53)%Z ->
  0 <= coordinate i n e
  /\ overflows (RN (inject_Z i / inject_Z n)) = false
  /\ overflows (RN (inject_Z e)) = false
  /\ overflows (RN (RN (inject_Z i / inject_Z n) + RN (inject_Z e))) = false
  /\ overflows (coordinate i n e) = false.
Proof.
  intros Hi Hn He. unfold coordinate.
  pose proof half_subnormal_small as [Hv0 Hv]. pose proof pow2_emax_big as Hbig.
  assert (Hn' : 0 < inject_Z n) by (change 0 with (inject_Z 0); rewrite <- Zlt_Qlt; lia).
  assert (Hx0 : 0 <= inject_Z i / inject_Z n).
  { apply Qle_shift_div_l; [exact Hn'|]. rewrite Qmult_0_l.
    change 0 with (inject_Z 0). rewrite <- Zle_Qle. lia. }
  assert (Hx1 : inject_Z i / inject_Z n <= 1).
  { apply Qle_shift_div_r; [exact Hn'|]. rewrite Qmult_1_l. rewrite <- Zle_Qle. lia. }
  assert (He0 : 0 <= inject_Z e) by (change 0 with (inject_Z 0); rewrite <- Zle_Qle; lia).
  assert (He1 : inject_Z e <= 9007199254740992).
  { change 9007199254740992 with (inject_Z (2 ^ 53)). rewrite <- Zle_Qle. lia. }
  set (X := RN (inject_Z i / inject_Z n)).
  pose proof (RN_bounds _ Hx0) as [HXl HXu]. pose proof (RN_nonneg _ Hx0) as HX0.
  fold X in HXl, HXu, HX0.
  set (FE := RN (inject_Z e)).
  pose proof (RN_bounds _ He0) as [HFl HFu]. pose proof (RN_nonneg _ He0) as HF0.
  fold FE in HFl, HFu, HF0.
  set (S := RN (X + FE)).
  assert (HS : 0 <= X + FE) by lra.
  pose proof (RN_bounds _ HS) as [HSl HSu]. pose proof (RN_nonneg _ HS) as HS0.
  fold S in HSl, HSu, HS0.
  pose proof RN_1000 as HK. set (K := RN (inject_Z 1000)) in *.
  assert (HSK : S * K == 1000 * S) by (rewrite HK; ring).
  assert (HP : 0 <= S * K) by lra.
  pose proof (RN_bounds _ HP) as [HPl HPu]. pose proof (RN_nonneg _ HP) as HP0.
  set (P := RN (S * K)) in *.
  clearbody X FE S K P.
  unfold unit_roundoff in *.
  repeat split.
  - exact HP0.
  - apply not_overflows. rewrite Qabs_pos by exact HX0. lra.
  - apply not_overflows. rewrite Qabs_pos by exact HF0. lra.
  - apply not_overflows. rewrite Qabs_pos by exact HS0. lra.
  - apply not_overflows. rewrite Qabs_pos by exact HP0. lra.
Qed.

(** The coordinate as a function of the sum of the rounded fraction and
    the epoch, for an epoch that is a binary64 number. *)
Lemma coordinate_of_sum i n e :
  (Z.abs e < 2 ^ 53)%Z ->
  coordinate i n e
  == RN (RN (RN (inject_Z i / inject_Z n) + inject_Z e) * 1000).
Proof.
  intros He. unfold coordinate. apply RN_comp.
  rewrite RN_1000. apply Qmult_comp; [|reflexivity].
  apply RN_comp. by rewrite (RN_exact_int e He).
Qed.

(** From one epoch to the next the coordinate grows by at least one, as
    long as the epoch is at most [2^52]; nothing overflows there. *)
Lemma coordinate_step i n e :
  (0 <= i <= n)%Z -> (0 < n)%Z -> (0 <= e <= 2 ^ 52)%Z ->
  0 <= coordinate i n e
  /\ coordinate i n e + 1 <= coordinate i n (e + 1)
  /\ overflows (RN (inject_Z i / inject_Z n)) = false
  /\ overflows (RN (inject_Z e)) = false
  /\ overflows (RN (RN (inject_Z i / inject_Z n) + RN (inject_Z e))) = false
  /\ overflows (coordinate i n e) = false.
Proof.
  intros Hi Hn He.
  destruct (coordinate_defined i n e Hi Hn ltac:(lia)) as (H0 & O1 & O2 & O3 & O4).
  split; [exact H0|]. split; [|by repeat split].
  assert (Hn' : 0 < inject_Z n) by (change 0 with (inject_Z 0); rewrite <- Zlt_Qlt; lia).
  assert (Hx0 : 0 <= inject_Z i / inject_Z n).
  { apply Qle_shift_div_l; [exact Hn'|]. rewrite Qmult_0_l.
    change 0 with (inject_Z 0). rewrite <- Zle_Qle. lia. }
  assert (Hx1 : inject_Z i / inject_Z n <= 1).
  { apply Qle_shift_div_r; [exact Hn'|]. rewrite Qmult_1_l. rewrite <- Zle_Qle. lia. }
  pose proof (RN_nonneg _ Hx0) as HX0.
  assert (HX1 : RN (inject_Z i / inject_Z n) <= 1).
  { assert (E1 : RN 1 == 1) by reflexivity. rewrite <- E1. by apply RN_mono. }
  assert (He0 : 0 <= inject_Z e) by (change 0 with (inject_Z 0); rewrite <- Zle_Qle; lia).
  assert (He1 : inject_Z e <= 4503599627370496).
  { change 4503599627370496 with (inject_Z (2 ^ 52)). rewrite <- Zle_Qle. lia. }
  rewrite (coordinate_of_sum i n e), (coordinate_of_sum i n (e + 1)) by lia.
  set (X := RN (inject_Z i / inject_Z n)) in *.
  assert (Hsum : X + inject_Z (e + 1) == X + inject_Z e + 1).
  { rewrite inject_Z_plus. change (inject_Z 1) with 1. ring. }
  assert (Hnext : RN (RN (X + inject_Z (e + 1)) * 1000)
                  == RN (RN (X + inject_Z e + 1) * 1000)).
  { apply RN_comp. apply Qmult_comp; [|reflexivity]. by apply RN_comp. }
  rewrite Hnext. apply scaled_step; lra.
Qed.
End PyFloatFacts.
(** ** Programs *)

Section ProgFacts.
Context {E S : Type}.
Implicit Types (s : S).

Lemma bind_assoc {A B C} (m : prog E S A) (f : A -> prog E S B) (g : B -> prog E S C) s :
  bind (bind m f) g s = bind m (fun a => bind (f a) g) s.
Proof.
  unfold bind. destruct (m s) as [[s1 t1] [a|c|e]]; try reflexivity.
  destruct (f a s1) as [[s2 t2] [b|c|e]]; try reflexivity.
  - destruct (g b s2) as [[s3 t3] r]. by rewrite app_assoc.
Qed.

Lemma bind_ext {A B} (m : prog E S A) (f g : A -> prog E S B) s :
  (forall a s', f a s' = g a s') -> bind m f s = bind m g s.
Proof.
  intros Hfg. unfold bind. destruct (m s) as [[s1 t1] [a|c|e]]; try reflexivity.
  by rewrite Hfg.
Qed.

Lemma for_enum_app {A} (l1 l2 : list A) (body : nat -> A -> prog E S unit) i s :
  for_enum i (l1 ++ l2) body s =
  bind (for_enum i l1 body) (fun _ => for_enum (i + length l1) l2 body) s.
Proof.
  revert i s. induction l1 as [|x l1 IH]; intros i s; simpl.
  - unfold bind, ret. rewrite Nat.add_0_r.
    by destruct (for_enum i l2 body s) as [[s2 t2] r].
  - rewrite bind_assoc. apply bind_ext. intros _ s'. rewrite IH.
    by replace (i + Datatypes.S (length l1))%nat
      with (Datatypes.S i + length l1)%nat by lia.
Qed.

Lemma bind_exited {A B} (m : prog E S A) (f : A -> prog E S B) s s1 t1 c :
  m s = (s1, t1, Exited c) -> bind m f s = (s1, t1, Exited c).
Proof. intros Hm. unfold bind. by rewrite Hm. Qed.

Lemma bind_raised {A B} (m : prog E S A) (f : A -> prog E S B) s s1 t1 e :
  m s = (s1, t1, Raised e) -> bind m f s = (s1, t1, Raised e).
Proof. intros Hm. unfold bind. by rewrite Hm. Qed.

Lemma bind_done {A B} (m : prog E S A) (f : A -> prog E S B) s s1 t1 a :
  m s = (s1, t1, Done a) ->
  bind m f s = (final (f a s1), t1 ++ trace (f a s1), result (f a s1)).
Proof.
  intros Hm. unfold bind, final, trace, result. rewrite Hm.
  by destruct (f a s1) as [[s2 t2] r].
Qed.
End ProgFacts.

(** ** The training driver *)

Section TrainFacts.
Context `{Collaborators}.
Variable mixup_fn : option (Samples * Labels -> Samples * Labels).
Variable epoch : Z.
Variable max_norm : pyfloat.
Variable log_writer : option string.

Local Abbreviation step := (train_step mixup_fn epoch max_norm log_writer).
Local Abbreviation loss_in := (loss_at mixup_fn).

Lemma train_step_nonfinite n i b s :
  isfinite (loss_in s b) = false ->
  step n i b s =
    (s, [EvForward (mixed mixup_fn b).1; EvPrint (stop_message (loss_in s b))],
     Exited 1).
Proof.
  unfold loss_at, train_step, batch_loss.
  destruct (mixed mixup_fn b) as [samples targets].
  intros Hnf. unfold bind, get, emit; simpl. by rewrite Hnf.
Qed.

Lemma train_step_finite n i b s :
  isfinite (loss_in s b) = true ->
  step n i b s =
    (after_step mixup_fn max_norm b s,
     [EvForward (mixed mixup_fn b).1; EvZeroGrad;
      EvScaledStep max_norm (is_second_order (zero_grad (t_world s)));
      EvCudaSynchronize]
     ++ ema_events (t_ema s)
     ++ [EvAllReduceMean (loss_in s b)]
     ++ (logged epoch log_writer n i (loss_in s b)
           (lr_of (t_world (after_step mixup_fn max_norm b s)))).1,
     (logged epoch log_writer n i (loss_in s b)
           (lr_of (t_world (after_step mixup_fn max_norm b s)))).2).
Proof.
  unfold loss_at, train_step, after_step, logged, batch_loss.
  destruct (mixed mixup_fn b) as [samples targets].
  intros Hf. unfold bind, get, emit, modify; simpl. rewrite Hf; simpl.
  destruct s as [w ema meters]; simpl.
  destruct ema as [e|], log_writer as [dir|]; simpl; try reflexivity;
    destruct (epoch_1000x _ _ _) as [x|err]; reflexivity.
Qed.

Lemma train_one_epoch_loop flag dl s0 :
  let r := bind (for_enum 0 dl (step (length dl))) (fun _ => train_epilogue)
             (train_prologue flag s0) in
  train_one_epoch mixup_fn epoch max_norm log_writer flag dl s0 =
  (final r, train_prologue_trace log_writer flag ++ trace r, result r).
Proof.
  unfold train_one_epoch, train_prologue, train_prologue_trace, train_epilogue.
  unfold bind at 1 2 3 4. unfold emit at 1, modify at 1 2. simpl.
  destruct log_writer as [dir|]; simpl.
  - destruct (bind _ _ _) as [[s2 t2] r]. reflexivity.
  - destruct (bind _ _ _) as [[s2 t2] r]. reflexivity.
Qed.

(** C1: in [train_one_epoch], when the batches before [batch] have been
    processed and the loss of [batch] is not finite, the driver prints the
    diagnostic and exits with status 1: the trace ends with the forward pass
    of that batch and the diagnostic, the model, optimizer, EMA model and
    meters are those left by the earlier batches, and nothing of the later
    batches is performed.  When the loss is finite the step does not exit
    and performs the optimization step. *)
Theorem train_one_epoch_stability_guard flag pre batch post s0 s1 t1 :
  let data_loader := pre ++ batch :: post in
  let loss_value := loss_in s1 batch in
  for_enum 0 pre (step (length data_loader)) (train_prologue flag s0)
    = (s1, t1, Done tt) ->
  (isfinite loss_value = false ->
     train_one_epoch mixup_fn epoch max_norm log_writer flag data_loader s0 =
       (s1,
        train_prologue_trace log_writer flag ++ t1
          ++ [EvForward (mixed mixup_fn batch).1; EvPrint (stop_message loss_value)],
        Exited 1))
  /\ (isfinite loss_value = true ->
       let r := step (length data_loader) (length pre) batch s1 in
       (forall code, result r <> Exited code)
       /\ final r = after_step mixup_fn max_norm batch s1
       /\ EvZeroGrad ∈ trace r
       /\ (forall msg, EvPrint msg ∉ trace r)).
Proof.
  intros data_loader loss_value Hpre. split.
  - intros Hnf. rewrite train_one_epoch_loop. unfold data_loader in *.
    cbv zeta. erewrite bind_exited; [reflexivity|].
    rewrite for_enum_app. erewrite bind_done by exact Hpre.
    simpl for_enum. unfold bind. rewrite train_step_nonfinite by exact Hnf.
    reflexivity.
  - intros Hf r. unfold r, data_loader. rewrite train_step_finite by exact Hf.
    unfold final, trace, result, logged; simpl.
    repeat split.
    + intros code. destruct log_writer; [destruct (epoch_1000x _ _ _)|]; discriminate.
    + rewrite !elem_of_cons. auto.
    + intros msg Hin.
      destruct (t_ema s1), log_writer as [dir|]; simpl in Hin;
        try destruct (epoch_1000x _ _ _); simpl in Hin;
        repeat (apply elem_of_cons in Hin as [Hin|Hin]; [discriminate|]);
        by apply elem_of_nil in Hin.
Qed.

Lemma logged_events n i v lr (e : event) :
  e ∈ (logged epoch log_writer n i v lr).1 ->
  exists tag u x, e = EvAddScalar tag u x.
Proof.
  unfold logged. intros He.
  destruct log_writer; [destruct (epoch_1000x _ _ _)|]; simpl in He;
    repeat (apply elem_of_cons in He as [->|He]; [by do 3 eexists|]);
    by apply elem_of_nil in He.
Qed.

(** C6: in a training step (one that passes the stability guard) the trace
    is: forward pass, [zero_grad], the scaled optimization step, the device
    synchronization, then the EMA update when and only when an EMA model is
    configured, then the rest, which holds no further synchronization, EMA
    update or optimization step.  The synchronization is there whether or
    not an EMA model is configured, and the shadow model is updated from
    the model left by this step's optimization step. *)
Theorem train_step_synchronize_before_ema n i b s :
  isfinite (loss_in s b) = true ->
  let r := step n i b s in
  let w := stepped max_norm (batch_loss mixup_fn (t_world s) b) (t_world s) in
  exists tail,
    trace r =
      [EvForward (mixed mixup_fn b).1; EvZeroGrad;
       EvScaledStep max_norm (is_second_order (zero_grad (t_world s)));
       EvCudaSynchronize]
      ++ match t_ema s with Some _ => [EvEmaUpdate] | None => [] end ++ tail
    /\ (EvCudaSynchronize ∉ tail)
    /\ (EvEmaUpdate ∉ tail)
    /\ (forall clip graph, EvScaledStep clip graph ∉ tail)
    /\ (EvEmaUpdate ∈ trace r <-> is_Some (t_ema s))
    /\ t_ema (final r) = (fun e => ema_update e w) <$> t_ema s.
Proof.
  intros Hf r w. unfold r. rewrite train_step_finite by exact Hf.
  unfold final, trace. cbn [fst snd].
  set (lg := logged _ _ _ _ _ _).
  assert (Htail : forall e : event,
            e ∈ EvAllReduceMean (loss_in s b) :: lg.1 ->
            match e with
            | EvAllReduceMean _ | EvAddScalar _ _ _ => True
            | _ => False
            end).
  { intros e He. apply elem_of_cons in He as [->|He]; [done|].
    by apply logged_events in He as (tag & u & x & ->). }
  exists (EvAllReduceMean (loss_in s b) :: lg.1).
  split; [reflexivity|]. repeat split.
  - intros Hin. by apply Htail in Hin.
  - intros Hin. by apply Htail in Hin.
  - intros clip graph Hin. by apply Htail in Hin.
  - intros Hin. destruct (t_ema s); [by eexists|]. simpl in Hin.
    do 4 (apply elem_of_cons in Hin as [Hin|Hin]; [discriminate|]).
    by apply Htail in Hin.
  - intros [e He]. rewrite He. simpl. rewrite !elem_of_cons. auto 10.
Qed.

Lemma train_step_done n i b s s' t :
  step n i b s = (s', t, Done tt) -> isfinite (loss_in s b) = true.
Proof.
  destruct (isfinite (loss_in s b)) eqn:Hf; [done|].
  rewrite train_step_nonfinite by exact Hf. discriminate.
Qed.

Lemma meters_after_step b s name :
  t_meters (after_step mixup_fn max_norm b s) !!! name =
  t_meters s !!! name
    ++ (if String.eqb name "loss" then [(loss_in s b, 1)] else [])
    ++ (if String.eqb name "lr"
        then [(lr_of (t_world (after_step mixup_fn max_norm b s)), 1)] else []).
Proof.
  unfold after_step, meter_update; simpl.
  destruct (String.eqb_spec name "lr") as [->|Hlr].
  - by rewrite lookup_total_insert_eq, lookup_total_insert_ne by done.
  - rewrite lookup_total_insert_ne by done.
    destruct (String.eqb_spec name "loss") as [->|Hloss].
    + by rewrite lookup_total_insert_eq.
    + rewrite lookup_total_insert_ne by done. by rewrite !app_nil_r.
Qed.

(** C9: the learning rate that step K records in the [lr] meter and hands
    to the log sink is the one of the optimizer as that step's optimization
    update leaves it.  Over a run of batches the [lr] meter grows by the
    learning rates of the successive models [worlds], each with weight one,
    and the sink receives the same values in the same order. *)
Theorem recorded_lr_is_current n i batches s s' t :
  for_enum i batches (step n) s = (s', t, Done tt) ->
  t_meters s' !!! "lr" =
    t_meters s !!! "lr"
      ++ ((fun w => (lr_of w, 1)) <$> worlds mixup_fn max_norm (t_world s) batches)
  /\ logged_lrs t =
      match log_writer with
      | Some _ => lr_of <$> worlds mixup_fn max_norm (t_world s) batches
      | None => []
      end
  /\ last (t_world s :: worlds mixup_fn max_norm (t_world s) batches)
      = Some (t_world s').
Proof.
  revert i s t. induction batches as [|b batches IH]; intros i s t; simpl.
  - unfold ret. intros [= <- <-]. rewrite app_nil_r.
    by destruct log_writer.
  - unfold bind. destruct (step n i b s) as [[s1 t1] [[]|c|e]] eqn:Hstep;
      try discriminate.
    destruct (for_enum _ batches _ s1) as [[s2 t2] r2] eqn:Hrest.
    intros [= -> <- ->]. apply IH in Hrest as (Hm & Hl & Hw).
    pose proof (train_step_done _ _ _ _ _ _ Hstep) as Hf.
    rewrite train_step_finite in Hstep by exact Hf.
    injection Hstep as <- <- Hres.
    rewrite Hm, meters_after_step. simpl. rewrite <- app_assoc. simpl.
    split; [reflexivity|]. split; [|exact Hw].
    unfold logged_lrs in *. rewrite omap_app, Hl.
    unfold logged in *.
    destruct (t_ema s), log_writer as [dir|]; simpl;
      try destruct (epoch_1000x _ _ _); simpl; try discriminate; reflexivity.
Qed.

End TrainFacts.

(** ** Arrays *)

Section NpFacts.
Local Open Scope nat_scope.
Variable np_mean : list pyfloat -> pyfloat.

Lemma div_mul_add q r d : r < d -> (q * d + r) / d = q.
Proof.
  intros Hr. rewrite Nat.div_add_l by lia. rewrite Nat.div_small by lia. lia.
Qed.

Lemma mod_mul_add q r d : r < d -> (q * d + r) mod d = r.
Proof.
  intros Hr. rewrite Nat.add_comm, Nat.Div0.mod_add. by apply Nat.mod_small.
Qed.

Lemma flat_index_lt a n b m : a < n -> b < m -> a * m + b < n * m.
Proof. intros Ha Hb. nia. Qed.

Lemma tabulate_length {A} n (f : nat -> A) : length (Np.tabulate n f) = n.
Proof. unfold Np.tabulate. by rewrite length_fmap, length_seq. Qed.

Lemma tabulate_lookup `{!Inhabited A} n (f : nat -> A) i :
  i < n -> Np.tabulate n f !!! i = f i.
Proof.
  intros Hi. unfold Np.tabulate.
  by rewrite list_lookup_total_alt, list_lookup_fmap, lookup_seq_lt.
Qed.

Lemma tabulate_ext {A} n (f g : nat -> A) :
  (forall i, i < n -> f i = g i) -> Np.tabulate n f = Np.tabulate n g.
Proof.
  intros Hfg. unfold Np.tabulate. apply list_fmap_ext.
  intros i x Hx. apply lookup_seq in Hx as [-> Hi]. by apply Hfg.
Qed.

Lemma take_drop_lookup_total `{!Inhabited A} (l : list A) n k j :
  j < n -> take n (drop k l) !!! j = l !!! (k + j).
Proof.
  intros Hj. rewrite !list_lookup_total_alt.
  by rewrite lookup_take_lt, lookup_drop.
Qed.
End NpFacts.

Section AttentionFacts.
Context `{Collaborators}.
Local Open Scope nat_scope.

Lemma reduce_attention_spec x r_weight attn B P Hd W K :
  shape x !! 0 = Some B ->
  shape r_weight !! 1 = Some P ->
  shape attn = [B * P; Hd; W; K] ->
  B * P * W <> 0 ->
  exists a,
    reduce_attention x r_weight attn = Ok (B, a)
    /\ shape a = [B; P * W]
    /\ length (data a) = B * (P * W)
    /\ forall b p w, b < B -> p < P -> w < W ->
         data a !!! (b * (P * W) + p * W + w) =
         np_mean (Np.tabulate K (fun k =>
           np_mean (Np.tabulate Hd (fun h =>
             data attn !!! ((((b * P + p) * Hd + h) * W + w) * K + k))))).
Proof.
  intros Hx Hr Hattn Hne. destruct attn as [sh d]. cbn [shape data] in *. subst sh.
  unfold reduce_attention, Np.shape_at, Np.mean, Np.reshape_infer.
  rewrite Hx, Hr. cbn -[Np.tabulate Nat.div Nat.modulo Nat.mul Nat.eqb].
  replace (B * P * (W * (K * 1))) with (K * (B * (P * W * 1))) by lia.
  rewrite Nat.Div0.mod_mul, Nat.div_mul by lia.
  replace (B * (P * W * 1) =? 0) with false by (symmetry; apply Nat.eqb_neq; lia).
  cbn -[Np.tabulate Nat.div Nat.modulo Nat.mul].
  eexists. split; [reflexivity|]. cbn [shape data].
  split; [reflexivity|]. split; [rewrite tabulate_length; lia|].
  intros b p w Hb Hp Hw.
  assert (Hpw : p * W + w < P * W) by by apply flat_index_lt.
  assert (Hidx : b * (P * W) + (p * W + w) < B * (P * W)) by by apply flat_index_lt.
  replace (B * (P * W * 1) * 1) with (B * (P * W)) by lia.
  rewrite <- Nat.add_assoc.
  rewrite tabulate_lookup by exact Hidx. f_equal. apply tabulate_ext. intros k Hk.
  rewrite !Nat.mul_1_r, Nat.div_1_r, Nat.mod_1_r, Nat.add_0_r.
  assert (Hwk : w * K + k < W * K) by by apply flat_index_lt.
  replace ((b * (P * W) + (p * W + w)) * K + k)
    with ((b * P + p) * (W * K) + (w * K + k)) by lia.
  rewrite tabulate_lookup.
  2:{ replace (B * P * (W * K)) with ((B * P) * (W * K)) by lia.
      apply flat_index_lt; [by apply flat_index_lt|exact Hwk]. }
  f_equal. apply tabulate_ext. intros h Hh.
  rewrite div_mul_add, mod_mul_add by exact Hwk. f_equal. lia.
Qed.

Lemma attention_map_of_square a B N L i :
  shape a = [B; N] -> i < B -> N = L * L ->
  exists m,
    attention_map_of a i = Ok m
    /\ shape m = [L * 3; L * 3]
    /\ forall r c, r < L * 3 -> c < L * 3 ->
         data m !!! (r * (L * 3) + c) = data a !!! (i * N + (r / 3 * L + c / 3)).
Proof.
  intros Ha Hi HN. destruct a as [sh d]. cbn [shape data] in *. subst sh.
  unfold attention_map_of, Np.index, Np.shape_at, Np.reshape, Np.repeat.
  cbn [shape data]. apply Nat.ltb_lt in Hi as Hi'. rewrite Hi'.
  cbn -[Np.tabulate Nat.div Nat.modulo Nat.mul Nat.eqb Nat.sqrt take drop].
  rewrite HN, Nat.sqrt_square.
  replace (L * (L * 1) =? L * L * 1) with true by (symmetry; apply Nat.eqb_eq; lia).
  cbn -[Np.tabulate Nat.div Nat.modulo Nat.mul take drop].
  eexists. split; [reflexivity|]. cbn [shape data]. split; [reflexivity|].
  intros r c Hr Hc.
  change (take 1 [L * 3; L]) with [L * 3].
  change (drop 1 [L; L]) with [L].
  change (drop 2 [L * 3; L]) with (@nil nat).
  change (take 0 [L; L]) with (@nil nat).
  cbn [Np.numel foldr].
  assert (Hc3 : c / 3 < L) by (apply Nat.Div0.div_lt_upper_bound; lia).
  assert (Hr3 : r / 3 < L) by (apply Nat.Div0.div_lt_upper_bound; lia).
  replace (L * 3 * 1 * (L * 3) * 1) with ((L * 3) * (L * 3)) by lia.
  rewrite tabulate_lookup by by apply flat_index_lt.
  rewrite !Nat.mul_1_r, !Nat.div_1_r, !Nat.mod_1_r, !Nat.add_0_r.
  rewrite div_mul_add, mod_mul_add by exact Hc.
  replace (1 * (L * 3) * L) with ((L * 3) * L) by lia.
  rewrite tabulate_lookup by by apply flat_index_lt.
  rewrite div_mul_add, mod_mul_add by exact Hc3.
  rewrite (Nat.div_small (r * L + c / 3)) by by apply flat_index_lt.
  rewrite (Nat.mod_small r) by exact Hr. cbn [Nat.mul Nat.add].
  rewrite take_drop_lookup_total by by apply flat_index_lt.
  reflexivity.
Qed.


Lemma draw_cells_total (dataset : list (Image * Z)) target a B N L n alpha indices :
  shape a = [B; N] -> N = L * L ->
  Forall (fun i => i < B /\ B * n + i < length dataset /\ i < length target) indices ->
  exists cells, draw_cells dataset target a B n alpha indices = Ok cells.
Proof.
  intros Ha HN. induction 1 as [|i indices (HiB & Hids & Hit) _ [rest IH]].
  - by eexists.
  - cbn [draw_cells].
    destruct (lookup_lt_is_Some_2 dataset _ Hids) as [[image label] ->].
    destruct (lookup_lt_is_Some_2 target _ Hit) as [t ->].
    cbn [of_option mbind res_mbind res_bind]. rewrite IH.
    destruct (attention_map_of_square a B N L i Ha HiB HN) as (m & -> & _).
    destruct (label =? t)%Z; by eexists.
Qed.
End AttentionFacts.

(** ** The evaluation driver *)

Section EvalFacts.
Context `{Collaborators}.
Variable ori_dataset : option (list (Image * Z)).

Lemma visualize_eq dataset target s :
  visualize dataset target s =
  match attention_cells dataset target (e_cache s) (batch_num s) alpha_02 with
  | Ok cells =>
      (set_batch_num (fun n => (n + 1)%nat) (set_visual_dir (fun _ => true) s),
       figure_events (batch_num s) cells, Done tt)
  | Err e => (s, [], Raised e)
  end.
Proof.
  unfold visualize, attention_cells, figure_events.
  unfold bind at 1. unfold get at 1. cbn [fst snd].
  destruct (cache_first _ "Block.local_images.images") as [x|e]; [|reflexivity].
  destruct (cache_first _ "Block.local_r_weight.r_weight") as [rw|e]; [|reflexivity].
  destruct (cache_first _ "Block.local_r_idx.r_idx") as [ri|e]; [|reflexivity].
  destruct (cache_first _ "Block.local_attn_weight.attn_weight") as [aw|e];
    [|reflexivity].
  cbn [mbind res_mbind res_bind lift bind ret fst snd app].
  destruct (reduce_attention x rw aw) as [[bs attn]|e]; [|reflexivity].
  cbv beta iota zeta delta [for_each for_enum bind get lift ret raise
                              mbind res_mbind res_bind fst snd].
  destruct (draw_cells _ _ _ _ _ _ _) as [cells|e]; [|reflexivity].
  cbv beta iota zeta delta [ensure_visual_dir savefig bind get emit modify ret
                              fst snd].
  reflexivity.
Qed.

Lemma eval_step_eq batch s :
  eval_step ori_dataset batch s = eval_step_run ori_dataset batch s.
Proof.
  unfold eval_step, eval_step_run, drawn, forwarded, record_metrics.
  destruct batch as [images target]. cbn [fst snd].
  destruct (accuracy _ _) as [acc1 acc5] eqn:Hacc.
  destruct ori_dataset as [dataset|]; [destruct (100 <=? length target)%nat|];
    cbv beta iota zeta delta [bind emit modify get ret fst snd].
  - rewrite visualize_eq. cbn [e_cache set_e_cache e_world batch_num].
    destruct (attention_cells _ _ _ _ _) as [cells|e]; [|reflexivity].
    cbn [e_world set_batch_num set_visual_dir set_e_cache]. by rewrite Hacc.
  - cbn [e_world set_e_cache]. by rewrite Hacc.
  - cbn [e_world set_e_cache]. by rewrite Hacc.
Qed.

Lemma meter_update_lookup name name' v n (m : gmap string meter) :
  meter_update name v n m !!! name' =
  m !!! name' ++ (if String.eqb name' name then [(v, n)] else []).
Proof.
  unfold meter_update. destruct (String.eqb_spec name' name) as [->|Hne].
  - by rewrite lookup_total_insert_eq.
  - rewrite lookup_total_insert_ne by done. by rewrite app_nil_r.
Qed.

Lemma cache_record_all_elem entries (c : cache_t) name a :
  a ∈ cache_record_all entries c !!! name ->
  a ∈ c !!! name \/ (name, a) ∈ entries.
Proof.
  revert c. induction entries as [|[k v] entries IH]; intros c; simpl.
  - auto.
  - intros Hin. apply IH in Hin as [Hin|Hin].
    + unfold cache_record in Hin. simpl in Hin.
      destruct (decide (k = name)) as [->|Hne].
      * rewrite lookup_total_insert_eq in Hin.
        apply elem_of_app in Hin as [Hin|Hin]; [by left|].
        apply list_elem_of_singleton in Hin as ->. right. apply elem_of_cons. by left.
      * rewrite lookup_total_insert_ne in Hin by done. by left.
    + right. apply elem_of_cons. by right.
Qed.

Lemma cleared_before_forward_app (t1 t2 : list event) :
  cleared_before_forward t1 = true ->
  cleared_before_forward t2 = true ->
  cleared_before_forward (t1 ++ t2) = true.
Proof.
  remember (length t1) as n eqn:Hn. revert t1 Hn.
  induction n as [n IH] using lt_wf_ind. intros t1 Hn H1 H2.
  destruct t1 as [|e t1]; [exact H2|].
  destruct e; simpl in *; try discriminate;
    try (apply (IH (length t1)); [lia|reflexivity|assumption|assumption]).
  destruct t1 as [|e' t1]; simpl in *.
  - destruct t2 as [|[] t2]; simpl in *; congruence.
  - destruct e'; simpl in *; try discriminate;
      try (apply (IH (length t1)); [lia|reflexivity|assumption|assumption]);
      try (apply (IH (Datatypes.S (length t1)) ltac:(lia) (_ :: t1));
           [reflexivity|assumption|assumption]).
  exact (IH (Datatypes.S (length t1)) ltac:(lia) (EvCacheClear :: t1) eq_refl H1 H2).
Qed.

Lemma cleared_bind {S A B} (m : prog event S A) (f : A -> prog event S B) s :
  cleared_before_forward (trace (m s)) = true ->
  (forall a s', cleared_before_forward (trace (f a s')) = true) ->
  cleared_before_forward (trace (bind m f s)) = true.
Proof.
  intros Hm Hf. unfold bind, trace in *.
  destruct (m s) as [[s1 t1] [a|c|e]]; cbn [fst snd] in *; try exact Hm.
  specialize (Hf a s1). destruct (f a s1) as [[s2 t2] r]. cbn [fst snd] in *.
  by apply cleared_before_forward_app.
Qed.

Lemma cleared_for_enum {S A} (l : list A) (body : nat -> A -> prog event S unit) i s :
  (forall i x s', cleared_before_forward (trace (body i x s')) = true) ->
  cleared_before_forward (trace (for_enum i l body s)) = true.
Proof.
  intros Hbody. revert i s. induction l as [|x l IH]; intros i s.
  - reflexivity.
  - cbn [for_enum]. apply cleared_bind; [apply Hbody|]. intros _ s'. apply IH.
Qed.

(** The loop over the parameters writes the kernels figure of a parameter
    of that name, unless reading its sizes, plotting it or saving the file
    raises; it leaves the state as it is. *)
Lemma kernels_loop (params : list (string * Param)) i (s : eval_state) :
  for_enum i params
    (fun _ entry =>
       let '(name, param) := entry in
       if String.eqb "downsample_layers.0.0.weight" name then
         in_channels <- lift (size_at param 1) ;;
         out_channels <- lift (size_at param 0) ;;
         k_w <- lift (size_at param 3) ;;
         k_h <- lift (size_at param 2) ;;
         lift (plot_kernels param in_channels k_w k_h) ;;
         savefig kernels_path (KernelGrid param)
       else ret tt)%prog s =
  (s, (kernels_run (visual_dir s) params).1, (kernels_run (visual_dir s) params).2).
Proof.
  revert i. induction params as [|[name param] params IH]; intros i.
  - reflexivity.
  - cbn [for_enum kernels_run]. unfold bind at 1.
    destruct (String.eqb _ name).
    + unfold kernel_figure.
      destruct (size_at param 1) as [in_channels|e];
        cbn [mbind res_mbind res_bind];
        cbv beta iota zeta delta [lift bind ret raise fst snd]; [|reflexivity].
      destruct (size_at param 0) as [out_channels|e];
        cbn [mbind res_mbind res_bind]; cbv beta iota zeta; [|reflexivity].
      destruct (size_at param 3) as [k_w|e];
        cbn [mbind res_mbind res_bind]; cbv beta iota zeta; [|reflexivity].
      destruct (size_at param 2) as [k_h|e];
        cbn [mbind res_mbind res_bind]; cbv beta iota zeta; [|reflexivity].
      destruct (plot_kernels param in_channels k_w k_h) as [[]|e];
        cbn [mbind res_mbind res_bind]; cbv beta iota zeta; [|reflexivity].
      unfold savefig, bind, get, emit, raise. cbn [fst snd].
      destruct (visual_dir s); [|reflexivity].
      rewrite IH. reflexivity.
    + cbn [ret]. by rewrite IH.
Qed.

Lemma visualize_kernels_run s :
  visualize_kernels ori_dataset s =
  (s, (kernel_stage ori_dataset s).1, (kernel_stage ori_dataset s).2).
Proof.
  unfold visualize_kernels, kernel_stage.
  destruct ori_dataset as [dataset|]; [|reflexivity].
  unfold bind at 1, get, for_each. cbn [fst snd]. rewrite kernels_loop.
  by destruct (kernels_run _ _) as [t [[]|c|e]].
Qed.

(** The kernels stage writes nothing but kernels figures, to the one path,
    and ends by returning or by raising. *)
Lemma kernels_run_events dir_exists (params : list (string * Param)) :
  Forall (fun e => exists q, e = EvSavefig kernels_path (KernelGrid q))
    (kernels_run dir_exists params).1
  /\ forall c, (kernels_run dir_exists params).2 <> Exited c.
Proof.
  induction params as [|[name param] params [IHev IHres]].
  - split; [constructor|discriminate].
  - cbn [kernels_run]. destruct (String.eqb _ name); [|by split].
    destruct (kernel_figure dir_exists param) as [ev|e] eqn:Hfig.
    + cbn [fst snd]. split; [|exact IHres]. constructor; [|exact IHev].
      unfold kernel_figure in Hfig.
      destruct (size_at param 1); [|discriminate].
      destruct (size_at param 0); [|discriminate].
      destruct (size_at param 3); [|discriminate].
      destruct (size_at param 2); [|discriminate].
      cbn [mbind res_mbind res_bind] in Hfig.
      destruct (plot_kernels _ _ _ _); [|discriminate].
      cbn [mbind res_mbind res_bind] in Hfig.
      destruct dir_exists; [|discriminate]. injection Hfig as <-. by eexists.
    + split; [constructor|discriminate].
Qed.

Lemma kernel_stage_events s :
  Forall (fun e => exists q, e = EvSavefig kernels_path (KernelGrid q))
    (kernel_stage ori_dataset s).1
  /\ forall c, (kernel_stage ori_dataset s).2 <> Exited c.
Proof.
  unfold kernel_stage. destruct ori_dataset.
  - apply kernels_run_events.
  - split; [constructor|discriminate].
Qed.

Ltac epilogue_raised :=
  split; [reflexivity|]; split; [by left|]; split; [by intros ? [=]|].

(** The statements after the loop: the meters are reduced, the summary is
    printed when the three meters it reads exist, and the averages of the
    reduced meters are returned. *)
Lemma eval_epilogue_run s :
  let r := eval_epilogue s in
  let reduced := synchronize_between_processes (e_meters s) in
  final r = set_e_meters synchronize_between_processes s
  /\ (trace r = [EvSynchronizeMeters]
      \/ exists line, trace r = [EvSynchronizeMeters; EvPrint line])
  /\ (forall d, result r = Done d -> d = global_avgs reduced)
  /\ (is_Some (e_meters s !! "acc1") -> is_Some (e_meters s !! "acc5") ->
      is_Some (e_meters s !! "loss") -> result r = Done (global_avgs reduced)).
Proof.
  cbv zeta. unfold eval_epilogue, meter_attr.
  cbv beta iota zeta delta [bind emit modify get final trace result].
  cbn [fst snd e_meters set_e_meters].
  unfold synchronize_between_processes. rewrite !lookup_fmap.
  destruct (e_meters s !! "acc1") as [top1|]; cbn;
    [|epilogue_raised; by intros [? [=]]].
  destruct (e_meters s !! "acc5") as [top5|]; cbn;
    [|epilogue_raised; by intros _ [? [=]]].
  destruct (e_meters s !! "loss") as [losses|]; cbn;
    [|epilogue_raised; by intros _ _ [? [=]]].
  split; [reflexivity|]. split; [right; by eexists|].
  split; [by intros d [= <-]|done].
Qed.

(** [evaluate] first runs the kernels stage; when that raises, the model
    is not put in evaluation mode and no batch is processed. *)
Lemma evaluate_eq data_loader s :
  let k := kernel_stage ori_dataset s in
  let r := bind (for_each data_loader (eval_step ori_dataset))
             (fun _ => eval_epilogue) (eval_prologue s) in
  evaluate ori_dataset data_loader s =
  match k.2 with
  | Done _ => (final r, EvRcParams :: k.1 ++ EvSetMode false :: trace r, result r)
  | Exited c => (s, EvRcParams :: k.1, Exited c)
  | Raised e => (s, EvRcParams :: k.1, Raised e)
  end.
Proof.
  unfold evaluate. unfold bind at 1 2. unfold emit at 1. cbn [fst snd].
  rewrite visualize_kernels_run.
  destruct (kernel_stage ori_dataset s) as [kt [[]|c|e]]; cbn [fst snd];
    [|reflexivity..].
  unfold final, trace, result.
  cbv beta iota zeta delta [bind emit modify].
  change (set_batch_num _ (set_e_world _ (set_e_meters _ s))) with (eval_prologue s).
  destruct (for_each data_loader _ _) as [[s1 t1] [[]|c|e]]; cbn [fst snd app].
  - by destruct (eval_epilogue s1) as [[s2 t2] r2].
  - reflexivity.
  - reflexivity.
Qed.

Lemma kernel_stage_none s :
  ori_dataset = None -> kernel_stage ori_dataset s = ([], Done tt).
Proof. intros Hnone. unfold kernel_stage. by rewrite Hnone. Qed.

Lemma evaluate_after_kernels data_loader s :
  (kernel_stage ori_dataset s).2 = Done tt ->
  let r := bind (for_each data_loader (eval_step ori_dataset))
             (fun _ => eval_epilogue) (eval_prologue s) in
  evaluate ori_dataset data_loader s =
  (final r,
   EvRcParams :: (kernel_stage ori_dataset s).1 ++ EvSetMode false :: trace r,
   result r).
Proof. intros Hk. cbv zeta. rewrite evaluate_eq. cbv zeta. by rewrite Hk. Qed.

Lemma evaluate_done_kernels data_loader s d :
  result (evaluate ori_dataset data_loader s) = Done d ->
  (kernel_stage ori_dataset s).2 = Done tt.
Proof.
  rewrite evaluate_eq. cbv zeta.
  by destruct (kernel_stage ori_dataset s).2 as [[]|c|e].
Qed.

(** C2: whatever the cache holds when a batch starts and whether or not
    an original dataset is given, [eval_step] clears the cache and then runs
    the forward pass, and runs no other forward pass; the cache after the
    step is the empty cache filled by this batch's forward pass alone, so
    every array in it was captured in this pass.  Over the whole of
    [evaluate] every forward pass comes right after a clearing. *)
Theorem cache_cleared_before_every_forward batch s data_loader s0 :
  let r := eval_step ori_dataset batch s in
  let fresh := cache_record_all (captures (e_world s) batch.1) ∅ in
  (exists rest,
      trace r = EvCacheClear :: EvForward batch.1 :: rest
      /\ forall x, EvForward x ∉ rest)
  /\ e_cache (final r) = fresh
  /\ (forall name a, a ∈ fresh !!! name -> (name, a) ∈ captures (e_world s) batch.1)
  /\ cleared_before_forward (trace (evaluate ori_dataset data_loader s0)) = true.
Proof.
  intros r fresh. unfold r. rewrite eval_step_eq.
  assert (Hno : forall cells x,
             EvForward x ∉ figure_events (batch_num s) cells).
  { intros cells x Hin. unfold figure_events in Hin.
    repeat (apply elem_of_cons in Hin as [Hin|Hin]; [discriminate|]).
    by apply elem_of_nil in Hin. }
  split; [|split; [|split]].
  - unfold eval_step_run.
    destruct (drawn _ _ _ _) as [[cells|e]|]; unfold trace; cbn [fst snd app].
    + eexists. split; [reflexivity|]. apply Hno.
    + exists []. split; [reflexivity|]. intros x Hin. by apply elem_of_nil in Hin.
    + exists []. split; [reflexivity|]. intros x Hin. by apply elem_of_nil in Hin.
  - unfold eval_step_run. by destruct (drawn _ _ _ _) as [[cells|e]|].
  - intros name a Hin. apply cache_record_all_elem in Hin as [Hin|Hin]; [|done].
    rewrite lookup_total_empty in Hin. by apply elem_of_nil in Hin.
  - rewrite evaluate_eq. cbv zeta.
    assert (Hkernels : cleared_before_forward (kernel_stage ori_dataset s0).1 = true).
    { destruct (kernel_stage_events s0) as [Hev _].
      induction Hev as [|ev t [q ->] _ IH]; [reflexivity|exact IH]. }
    destruct (kernel_stage ori_dataset s0) as [kt [[]|c|e]];
      unfold trace at 1; cbn [fst snd] in *; [|exact Hkernels..].
    change (EvRcParams :: ?k ++ ?t) with ([EvRcParams] ++ k ++ t).
    apply cleared_before_forward_app; [reflexivity|].
    apply cleared_before_forward_app; [exact Hkernels|].
    change (EvSetMode false :: ?t) with ([EvSetMode false] ++ t).
    apply cleared_before_forward_app; [reflexivity|].
    apply cleared_bind.
    + apply cleared_for_enum. intros _ b s1. rewrite eval_step_eq.
      unfold eval_step_run. by destruct (drawn _ _ _ _) as [[cells|e]|].
    + intros a s'.
      by destruct (eval_epilogue_run s') as (_ & [->|[line ->]] & _).
Qed.

(** The loop of [evaluate]: when it completes, the model is untouched, the
    meters are those of [eval_meters] and [batch_num] has advanced by the
    number of batches that entered the visualization branch. *)
Lemma eval_loop_done batches i s s' t :
  for_enum i batches (fun _ => eval_step ori_dataset) s = (s', t, Done tt) ->
  e_world s' = e_world s
  /\ e_meters s' = eval_meters (e_world s) batches (e_meters s)
  /\ batch_num s' =
      (batch_num s
       + length (List.filter (fun b => visualized ori_dataset b.2) batches))%nat.
Proof.
  revert i s t. induction batches as [|b batches IH]; intros i s t.
  - intros [= <- _]. cbn. auto with lia.
  - cbn [for_enum]. unfold bind. rewrite eval_step_eq.
    destruct (eval_step_run ori_dataset b s) as [[s1 t1] [[]|c|e]] eqn:Hstep;
      try discriminate.
    destruct (for_enum _ batches _ s1) as [[s2 t2] r2] eqn:Hrest.
    intros [= -> _ ->]. apply IH in Hrest as (Hw & Hm & Hn).
    unfold eval_step_run, drawn, forwarded, visualized in *.
    cbn [List.filter eval_meters foldl].
    destruct ori_dataset as [dataset|];
      [destruct (100 <=? length b.2)%nat;
       [destruct (attention_cells _ _ _ _ _); [|discriminate]|]|];
      injection Hstep as <- _; cbn in *; rewrite Hw, Hm, Hn; auto with lia.
Qed.

Lemma eval_loop_total batches i s :
  ori_dataset = None ->
  exists s' t, for_enum i batches (fun _ => eval_step ori_dataset) s = (s', t, Done tt).
Proof.
  intros Hnone.
  assert (Hd : forall t c n, drawn ori_dataset t c n = None).
  { intros. unfold drawn. by rewrite Hnone. }
  revert i s. induction batches as [|b batches IH]; intros i s.
  - by do 2 eexists.
  - cbn [for_enum]. unfold bind. rewrite eval_step_eq.
    unfold eval_step_run. rewrite Hd.
    destruct (IH (Datatypes.S i)
                (set_e_meters (record_metrics (e_world s) b) (forwarded b.1 s)))
      as (s' & t & ->).
    by do 2 eexists.
Qed.

Lemma eval_meters_lookup w batches (m : gmap string meter) name :
  eval_meters w batches m !!! name =
  m !!! name
    ++ (batches ≫= fun b =>
          (if String.eqb name "loss"
           then [(cross_entropy (forward w b.1) b.2, 1)] else [])
          ++ (if String.eqb name "acc1"
              then [((accuracy (forward w b.1) b.2).1, Z.of_nat (shape0 b.1))]
              else [])
          ++ (if String.eqb name "acc5"
              then [((accuracy (forward w b.1) b.2).2, Z.of_nat (shape0 b.1))]
              else [])).
Proof.
  revert m. induction batches as [|b batches IH]; intros m.
  - cbn. by rewrite app_nil_r.
  - change (eval_meters w (b :: batches) m)
      with (eval_meters w batches (record_metrics w b m)).
    rewrite IH.
    unfold record_metrics. rewrite !meter_update_lookup.
    cbn [mbind list_bind]. by rewrite <- !app_assoc.
Qed.

Lemma meter_update_is_Some name v n (meters : gmap string meter) k :
  k = name \/ is_Some (meters !! k) ->
  is_Some (meter_update name v n meters !! k).
Proof.
  intros Hk. unfold meter_update. apply lookup_insert_is_Some'.
  destruct Hk as [->|Hk]; auto.
Qed.

(** Once a batch has been recorded the three meters exist. *)
Lemma eval_meters_keys w batches (meters : gmap string meter) k :
  (batches <> [] /\ k ∈ ["loss"; "acc1"; "acc5"]) \/ is_Some (meters !! k) ->
  is_Some (eval_meters w batches meters !! k).
Proof.
  revert meters. induction batches as [|b batches IH]; intros meters Hk.
  - by destruct Hk as [[? _]|Hk].
  - change (eval_meters w (b :: batches) meters)
      with (eval_meters w batches (record_metrics w b meters)).
    apply IH. right. unfold record_metrics.
    destruct Hk as [[_ Hk]|Hk].
    + repeat (apply elem_of_cons in Hk as [->|Hk]);
        [| | |by apply elem_of_nil in Hk];
        repeat first [ apply meter_update_is_Some; by left
                     | apply meter_update_is_Some; right ].
    + by do 3 (apply meter_update_is_Some; right).
Qed.

(** C7: every batch adds its loss to the [loss] meter with weight one and
    its top-1 and top-5 accuracies to the [acc1] and [acc5] meters with the
    batch size [images.shape[0]] as weight, in the order of the batches;
    when [evaluate] returns, it has reduced the meters across the workers
    and returns, for each meter, the global average of the reduced meter.
    Without an original dataset it returns for every data loader that has a
    batch. *)
Theorem evaluate_records_and_returns_metrics data_loader s :
  let r := evaluate ori_dataset data_loader s in
  let w := set_mode false (e_world s) in
  let meters := eval_meters w data_loader ∅ in
  (ori_dataset = None -> data_loader <> [] -> exists d, result r = Done d)
  /\ (forall d, result r = Done d ->
       meters !!! "loss"
         = (fun b => (cross_entropy (forward w b.1) b.2, 1)) <$> data_loader
       /\ meters !!! "acc1"
         = (fun b => ((accuracy (forward w b.1) b.2).1, Z.of_nat (shape0 b.1)))
             <$> data_loader
       /\ meters !!! "acc5"
         = (fun b => ((accuracy (forward w b.1) b.2).2, Z.of_nat (shape0 b.1)))
             <$> data_loader
       /\ e_meters (final r) = reduce_meter <$> meters
       /\ d = global_avg <$> (reduce_meter <$> meters)
       /\ EvSynchronizeMeters ∈ trace r).
Proof.
  intros r w meters. unfold r. split.
  - intros Hnone Hne.
    rewrite evaluate_after_kernels by (by rewrite kernel_stage_none).
    cbv zeta. unfold result at 1. cbn [fst snd].
    destruct (eval_loop_total data_loader 0 (eval_prologue s) Hnone) as (s' & t & Hloop).
    unfold for_each. erewrite bind_done by exact Hloop.
    apply eval_loop_done in Hloop as (_ & Hm & _).
    destruct (eval_epilogue_run s') as (_ & _ & _ & Hdone).
    eexists. unfold result at 1. cbn [fst snd]. apply Hdone; rewrite Hm;
      apply eval_meters_keys; left; (split; [exact Hne|]);
      repeat first [ by apply elem_of_cons; left | apply elem_of_cons; right ].
  - intros d Hres. pose proof (evaluate_done_kernels _ _ _ Hres) as Hk.
    revert Hres. rewrite evaluate_after_kernels by exact Hk.
    cbv zeta. unfold result at 1, final at 1, trace at 1. cbn [fst snd].
    unfold for_each.
    destruct (for_enum 0 data_loader (fun _ => eval_step ori_dataset)
                (eval_prologue s)) as [[s1 t1] [[]|c|e]] eqn:Hloop.
    2: { erewrite bind_exited by exact Hloop. discriminate. }
    2: { erewrite bind_raised by exact Hloop. discriminate. }
    erewrite bind_done by exact Hloop.
    apply eval_loop_done in Hloop as (Hw & Hm & _).
    cbn [eval_prologue e_world e_meters] in Hw, Hm. fold w in Hm. fold meters in Hm.
    destruct (eval_epilogue_run s1) as (Hfinal & Htrace & Hd & _).
    set (ep := eval_epilogue s1) in *. clearbody ep.
    unfold result, final, trace in *. cbn [fst snd]. intros Hdone.
    apply Hd in Hdone as ->. rewrite Hfinal. cbn [e_meters set_e_meters].
    rewrite !Hm. unfold global_avgs, synchronize_between_processes.
    assert (Hflat : forall (f : Samples * list Z -> pyfloat * Z),
               (data_loader ≫= fun b => [f b]) = f <$> data_loader).
    { intros f. clear. induction data_loader as [|b bs IH]; [done|]. cbn. by rewrite IH. }
    unfold meters. rewrite !eval_meters_lookup, lookup_total_empty. cbn.
    rewrite !Hflat. repeat split; try reflexivity.
    apply elem_of_cons; right. apply elem_of_app; right.
    apply elem_of_cons; right. apply elem_of_app; right.
    destruct Htrace as [->|[line ->]]; apply elem_of_cons; by left.
Qed.

Lemma kernels_run_absent dir_exists (params : list (string * Param)) :
  "downsample_layers.0.0.weight" ∉ params.*1 ->
  kernels_run dir_exists params = ([], Done tt).
Proof.
  induction params as [|[name param] params IH]; [reflexivity|].
  cbn [fmap list_fmap fst]. intros Hnot.
  apply not_elem_of_cons in Hnot as [Hne Hnot]. cbn [kernels_run].
  destruct (String.eqb_spec "downsample_layers.0.0.weight" name) as [Heq|_];
    [by destruct Hne|]. by apply IH.
Qed.

(** When the parameters have distinct names, the kernels stage is the
    figure of the one parameter of that name. *)
Lemma kernels_run_unique dir_exists (params : list (string * Param)) param :
  NoDup params.*1 ->
  ("downsample_layers.0.0.weight", param) ∈ params ->
  kernels_run dir_exists params =
  match kernel_figure dir_exists param with
  | Ok ev => ([ev], Done tt)
  | Err e => ([], Raised e)
  end.
Proof.
  induction params as [|[name q] params IH]; intros Hnd Hin.
  - by apply elem_of_nil in Hin.
  - cbn [fmap list_fmap fst] in Hnd. apply NoDup_cons in Hnd as [Hname Hnd].
    cbn [kernels_run].
    apply elem_of_cons in Hin as [[= <- <-]|Hin].
    + rewrite String.eqb_refl. rewrite (kernels_run_absent _ _ Hname).
      by destruct (kernel_figure dir_exists param).
    + destruct (String.eqb_spec "downsample_layers.0.0.weight" name) as [<-|_].
      * exfalso. apply Hname. apply list_elem_of_fmap.
        by exists ("downsample_layers.0.0.weight", param).
      * by apply IH.
Qed.


Lemma draw_cells_spec dataset target attn batch_size n alpha indices cells :
  draw_cells dataset target attn batch_size n alpha indices = Ok cells ->
  Forall2
    (fun c i =>
       exists label,
         dataset !! (batch_size * n + i)%nat = Some (cell_image c, label)
         /\ target !! i = Some label
         /\ cell_row c = (i / 10)%nat /\ cell_col c = (i mod 10)%nat
         /\ attention_map_of attn i = Ok (cell_overlay c)
         /\ cell_alpha c = alpha)
    cells
    (List.filter (label_matches dataset target batch_size n) indices).
Proof.
  revert cells. induction indices as [|i indices IH]; intros cells.
  - intros [= <-]. constructor.
  - cbn [draw_cells List.filter]. unfold label_matches at 1.
    destruct (dataset !! _) as [[image label]|] eqn:Hds; [|discriminate].
    destruct (target !! i) as [t|] eqn:Ht; [|discriminate].
    cbn [of_option mbind res_mbind res_bind].
    destruct (label =? t)%Z eqn:Heq.
    + apply Z.eqb_eq in Heq. subst label.
      destruct (attention_map_of attn i) as [amap|e] eqn:Hmap;
        cbn [mbind res_mbind res_bind mret res_ret]; [|discriminate].
      destruct (draw_cells _ _ _ _ _ _ indices) as [rest|e];
        cbn [mbind res_mbind res_bind mret res_ret app]; [|discriminate].
      intros [= <-]. constructor; [|by apply IH].
      exists t. by cbn.
    + cbn [mbind res_mbind res_bind mret res_ret].
      destruct (draw_cells _ _ _ _ _ _ indices) as [rest|e];
        cbn [mbind res_mbind res_bind mret res_ret app]; [|discriminate].
      intros [= <-]. by apply IH.
Qed.

Lemma attention_cells_total dataset target cache n alpha B P Hd W K L :
  captured_shapes cache B P Hd W K L ->
  (100 <= B)%nat -> (B * n + 100 <= length dataset)%nat ->
  (100 <= length target)%nat ->
  exists a cells,
    shape a = [B; (P * W)%nat]
    /\ attention_cells dataset target cache n alpha = Ok cells
    /\ draw_cells dataset target a B n alpha (seq 0 100) = Ok cells.
Proof.
  intros (x & rw & ri & attn & Hx & Hrw & Hri & Hattn & HB & HP & Hsh & Hsq & HL)
    HB100 Hds Htarget.
  assert (Hne : (B * P * W)%nat <> 0%nat) by nia.
  destruct (reduce_attention_spec _ _ _ _ _ _ _ _ HB HP Hsh Hne)
    as (a & Hred & Hshape & _).
  destruct (draw_cells_total dataset target a B (P * W) L n alpha (seq 0 100)
              Hshape Hsq) as [cells Hcells].
  { apply Forall_forall. intros i Hi. apply elem_of_seq in Hi. lia. }
  exists a, cells. split; [exact Hshape|]. split; [|exact Hcells].
  unfold attention_cells. rewrite Hx, Hrw, Hri, Hattn.
  cbn [mbind res_mbind res_bind]. rewrite Hred.
  cbn [mbind res_mbind res_bind fst snd]. exact Hcells.
Qed.

Lemma drawn_cells_indices dataset target a B n alpha indices cells :
  draw_cells dataset target a B n alpha indices = Ok cells ->
  (fun c => (cell_row c * 10 + cell_col c)%nat) <$> cells
    = List.filter (label_matches dataset target B n) indices.
Proof.
  intros Hcells. apply draw_cells_spec in Hcells.
  induction Hcells as [|c i cells is' (label & _ & _ & Hrow & Hcol & _) _ IH].
  - reflexivity.
  - cbn [fmap list_fmap]. rewrite Hrow, Hcol. f_equal; [|exact IH].
    pose proof (Nat.div_mod_eq i 10). lia.
Qed.

Lemma figures_app (t1 t2 : list event) :
  figures (t1 ++ t2) = figures t1 ++ figures t2.
Proof. apply omap_app. Qed.

Lemma attention_figures_app (t1 t2 : list event) :
  attention_figures (t1 ++ t2) = attention_figures t1 ++ attention_figures t2.
Proof. apply omap_app. Qed.

Lemma attention_figures_kernels s :
  attention_figures (kernel_stage ori_dataset s).1 = [].
Proof.
  destruct (kernel_stage_events s) as [Hev _].
  induction Hev as [|ev t [q ->] _ IH]; [reflexivity|exact IH].
Qed.

Lemma eval_step_small batch s :
  ori_dataset = None \/ (length batch.2 < 100)%nat ->
  eval_step ori_dataset batch s =
  (set_e_meters (record_metrics (e_world s) batch) (forwarded batch.1 s),
   [EvCacheClear; EvForward batch.1], Done tt).
Proof.
  intros Hsmall. rewrite eval_step_eq. unfold eval_step_run, drawn.
  destruct Hsmall as [->|Hlt]; [reflexivity|].
  destruct ori_dataset; [|reflexivity].
  by replace (100 <=? length batch.2)%nat with false
    by (symmetry; apply Nat.leb_gt; lia).
Qed.

Lemma eval_loop_small batches i s :
  Forall (fun b : Samples * list Z => (length b.2 < 100)%nat) batches ->
  figures (trace (for_enum i batches (fun _ => eval_step ori_dataset) s)) = []
  /\ exists s' t,
       for_enum i batches (fun _ => eval_step ori_dataset) s = (s', t, Done tt).
Proof.
  intros Hall. revert i s. induction Hall as [|b batches Hb _ IH]; intros i s.
  - split; [reflexivity|]. by do 2 eexists.
  - cbn [for_enum]. unfold bind. rewrite eval_step_small by by right.
    destruct (IH (Datatypes.S i)
                (set_e_meters (record_metrics (e_world s) b) (forwarded b.1 s)))
      as (Hfig & s' & t & Hrun).
    rewrite Hrun in *. unfold trace in *. cbn [fst snd] in *.
    split; [|by do 2 eexists]. rewrite figures_app, Hfig. reflexivity.
Qed.

Lemma figures_attention (t : list event) :
  figures t = [] -> attention_figures t = [].
Proof.
  induction t as [|e t IH]; [done|].
  unfold figures, attention_figures in *. cbn [omap list_omap].
  destruct e; try exact IH. discriminate.
Qed.

(** C3 (as the code has it): a batch saves no figure at all unless an
    original dataset is given and the batch has at least 100 targets; when
    every batch has fewer than 100 targets, [evaluate] saves no attention
    figure: the only figures it saves are those of the convolution kernels,
    written before the loop, and once that stage has returned, the whole of
    [evaluate] returns (given a batch at all); a batch of at least 100
    targets (150, say) whose captured tensors have the expected shapes and
    whose samples are in the dataset saves exactly one attention figure,
    whose cells are exactly the positions [i < 100], in order, at which the
    dataset label equals [target[i]]: at most 100 cells, and all 100 when
    every label matches. *)
Theorem visualization_trigger_and_cells :
  (forall batch s,
      ori_dataset = None \/ (length batch.2 < 100)%nat ->
      figures (trace (eval_step ori_dataset batch s)) = [])
  /\ (forall data_loader s,
        Forall (fun b : Samples * list Z => (length b.2 < 100)%nat) data_loader ->
        let r := evaluate ori_dataset data_loader s in
        let kernels := visualize_kernels ori_dataset s in
        attention_figures (trace r) = []
        /\ figures (trace r) = figures (trace kernels)
        /\ (result kernels = Done tt -> data_loader <> [] ->
             exists d, result r = Done d))
  /\ (forall dataset batch s B P Hd W K L,
        ori_dataset = Some dataset ->
        (100 <= length batch.2)%nat ->
        captured_shapes (e_cache (forwarded batch.1 s)) B P Hd W K L ->
        (100 <= B)%nat ->
        (B * batch_num s + 100 <= length dataset)%nat ->
        let r := eval_step ori_dataset batch s in
        exists cells,
          result r = Done tt
          /\ figures (trace r) = [AttentionGrid cells]
          /\ (fun c => (cell_row c * 10 + cell_col c)%nat) <$> cells
             = List.filter (label_matches dataset batch.2 B (batch_num s))
                 (seq 0 100)
          /\ (length cells <= 100)%nat
          /\ ((forall i, (i < 100)%nat ->
                 label_matches dataset batch.2 B (batch_num s) i = true) ->
               length cells = 100%nat)).
Proof.
  split; [|split].
  - intros batch s Hsmall. by rewrite eval_step_small.
  - intros data_loader s Hall r kernels. unfold r, kernels.
    rewrite visualize_kernels_run, evaluate_eq. cbv zeta.
    pose proof (attention_figures_kernels s) as Hkernels.
    destruct (kernel_stage ori_dataset s) as [kt [[]|c|e]]; cbn [fst snd] in *;
      [|by repeat split..].
    unfold result, trace at 1 3. cbn [fst snd].
    destruct (eval_loop_small data_loader 0 (eval_prologue s) Hall)
      as (Hfig & s' & t & Hrun).
    unfold for_each. erewrite bind_done by exact Hrun.
    rewrite Hrun in Hfig. unfold trace in *. cbn [fst snd] in *.
    destruct (eval_epilogue_run s') as (_ & Htrace & _ & Hdone).
    assert (Hep : figures (trace (eval_epilogue s')) = []).
    { by destruct Htrace as [->|[line ->]]. }
    assert (Hkeys : data_loader <> [] ->
              forall k, k ∈ ["loss"; "acc1"; "acc5"] -> is_Some (e_meters s' !! k)).
    { intros Hne k Hk. apply eval_loop_done in Hrun as (_ & -> & _).
      apply eval_meters_keys. by left. }
    set (ep := eval_epilogue s') in *. clearbody ep. unfold trace in Hep.
    split; [|split].
    + change (EvRcParams :: ?k ++ EvSetMode false :: ?u)
        with ([EvRcParams] ++ k ++ [EvSetMode false] ++ u).
      rewrite !attention_figures_app, Hkernels.
      by rewrite (figures_attention t Hfig), (figures_attention _ Hep).
    + change (EvRcParams :: ?k ++ EvSetMode false :: ?u)
        with ([EvRcParams] ++ k ++ [EvSetMode false] ++ u).
      rewrite !figures_app, Hfig, Hep. cbn. by rewrite app_nil_r.
    + intros _ Hne. eexists. apply Hdone; apply (Hkeys Hne);
        repeat first [ by apply elem_of_cons; left | apply elem_of_cons; right ].
  - intros dataset batch s B P Hd W K L Hori Hlen Hcap HB Hds r.
    destruct (attention_cells_total dataset batch.2 _ (batch_num s) alpha_02
                _ _ _ _ _ _ Hcap HB Hds Hlen) as (a & cells & _ & Hcells & Hdraw).
    exists cells. unfold r. rewrite eval_step_eq. unfold eval_step_run, drawn.
    rewrite Hori. apply Nat.leb_le in Hlen as Hlen'. rewrite Hlen', Hcells.
    unfold result, trace. cbn [fst snd].
    pose proof (drawn_cells_indices _ _ _ _ _ _ _ _ Hdraw) as Hidx.
    assert (Hcount : length cells
              = length (List.filter (label_matches dataset batch.2 B (batch_num s))
                          (seq 0 100))).
    { by rewrite <- Hidx, length_fmap. }
    repeat split; try done.
    + rewrite Hcount. etransitivity; [apply List.filter_length_le|].
      by rewrite length_seq.
    + intros Hall. rewrite Hcount.
      rewrite List.forallb_filter_id; [by rewrite length_seq|].
      apply List.forallb_forall. intros i Hi. apply Hall.
      apply in_seq in Hi. lia.
Qed.

Lemma draw_cells_overlays dataset target a B N L n alpha indices cells :
  shape a = [B; N] -> N = (L * L)%nat ->
  Forall (fun i => (i < B)%nat) indices ->
  draw_cells dataset target a B n alpha indices = Ok cells ->
  Forall2
    (fun c i =>
       shape (cell_overlay c) = [(L * 3)%nat; (L * 3)%nat]
       /\ forall row col, (row < L * 3)%nat -> (col < L * 3)%nat ->
            data (cell_overlay c) !!! (row * (L * 3) + col)%nat
            = data a !!! (i * N + (row / 3 * L + col / 3))%nat)
    cells
    (List.filter (label_matches dataset target B n) indices).
Proof.
  intros Ha HN Hall Hcells. apply draw_cells_spec in Hcells.
  assert (Hdrawn : Forall (fun i => (i < B)%nat)
                     (List.filter (label_matches dataset target B n) indices)).
  { eapply incl_Forall; [apply incl_filter|exact Hall]. }
  induction Hcells as [|c i cells is' (label & _ & _ & _ & _ & Hmap & _) _ IH].
  - constructor.
  - apply Forall_cons in Hdrawn as [Hi Hdrawn]. constructor; [|by apply IH].
    destruct (attention_map_of_square a B N L i Ha Hi HN) as (m & Hm & Hsh & Hdata).
    rewrite Hm in Hmap. injection Hmap as <-. by split.
Qed.

(** C4: in a batch that enters the visualization branch, with captured
    attention weights of shape [(B * P, Hd, W, K)] ([B] samples, [P] spatial
    positions taken from the routing weights' second dimension, [Hd] heads,
    a window of [W] and [K] keys) and [P * W] a square, the branch reduces
    the attention weights to a [(B, P * W)] array whose entry for sample
    [b], position [p] and window cell [w] is the mean over the keys of the
    mean over the heads, and saves one figure; the overlay of each cell
    drawn in that figure, for the sample [i] of the cell, is the [(3 L, 3 L)]
    grid, with [L] the integer square root of [P * W], whose entry
    [(row, col)] is entry [(row / 3, col / 3)] of the [L] by [L] grid of the
    reduced vector of sample [i]. *)
Theorem attention_mean_reshape_upsample dataset batch s B P Hd W K L :
  ori_dataset = Some dataset ->
  (100 <= length batch.2)%nat ->
  captured_shapes (e_cache (forwarded batch.1 s)) B P Hd W K L ->
  (100 <= B)%nat ->
  (B * batch_num s + 100 <= length dataset)%nat ->
  let cache := e_cache (forwarded batch.1 s) in
  let r := eval_step ori_dataset batch s in
  exists x r_weight attn a cells,
    cache_first cache "Block.local_images.images" = Ok x
    /\ cache_first cache "Block.local_r_weight.r_weight" = Ok r_weight
    /\ cache_first cache "Block.local_attn_weight.attn_weight" = Ok attn
    /\ reduce_attention x r_weight attn = Ok (B, a)
    /\ shape a = [B; (P * W)%nat]
    /\ (forall b p w, (b < B)%nat -> (p < P)%nat -> (w < W)%nat ->
          data a !!! (b * (P * W) + p * W + w)%nat =
          np_mean (Np.tabulate K (fun k =>
            np_mean (Np.tabulate Hd (fun h =>
              data attn !!! ((((b * P + p) * Hd + h) * W + w) * K + k)%nat)))))
    /\ L = Nat.sqrt (P * W)
    /\ result r = Done tt
    /\ figures (trace r) = [AttentionGrid cells]
    /\ Forall2
         (fun c i =>
            shape (cell_overlay c) = [(L * 3)%nat; (L * 3)%nat]
            /\ forall row col, (row < L * 3)%nat -> (col < L * 3)%nat ->
                 data (cell_overlay c) !!! (row * (L * 3) + col)%nat
                 = data a !!! (i * (P * W) + (row / 3 * L + col / 3))%nat)
         cells
         (List.filter (label_matches dataset batch.2 B (batch_num s)) (seq 0 100)).
Proof.
  intros Hori Hlen
    (x & rw & ri & attn & Hx & Hrw & Hri & Hattn & HB & HP & Hsh & Hsq & HL)
    HB100 Hds cache r.
  assert (Hne : (B * P * W)%nat <> 0%nat) by nia.
  destruct (reduce_attention_spec _ _ _ _ _ _ _ _ HB HP Hsh Hne)
    as (a & Hred & Hshape & _ & Hdata).
  assert (Hindices : Forall (fun i => (i < B)%nat) (seq 0 100)).
  { apply Forall_forall. intros i Hi. apply elem_of_seq in Hi. lia. }
  destruct (draw_cells_total dataset batch.2 a B (P * W) L (batch_num s) alpha_02
              (seq 0 100) Hshape Hsq) as [cells Hcells].
  { apply Forall_forall. intros i Hi. apply elem_of_seq in Hi. lia. }
  assert (Hbranch : attention_cells dataset batch.2 cache (batch_num s) alpha_02
                    = Ok cells).
  { unfold attention_cells, cache. rewrite Hx, Hrw, Hri, Hattn.
    cbn [mbind res_mbind res_bind]. rewrite Hred.
    cbn [mbind res_mbind res_bind fst snd]. exact Hcells. }
  exists x, rw, attn, a, cells.
  do 6 (split; [assumption|]).
  split; [by rewrite Hsq, Nat.sqrt_square|].
  unfold r. rewrite eval_step_eq. unfold eval_step_run, drawn.
  rewrite Hori. apply Nat.leb_le in Hlen as Hlen'. fold cache.
  rewrite Hlen', Hbranch. unfold result, trace. cbn [fst snd].
  do 2 (split; [reflexivity|]).
  exact (draw_cells_overlays _ _ _ _ _ _ _ _ _ _ Hshape Hsq Hindices Hcells).
Qed.

Lemma attention_cells_inv dataset target cache n alpha cells :
  attention_cells dataset target cache n alpha = Ok cells ->
  exists x B a,
    cache_first cache "Block.local_images.images" = Ok x
    /\ shape x !! 0%nat = Some B
    /\ draw_cells dataset target a B n alpha (seq 0 100) = Ok cells.
Proof.
  unfold attention_cells.
  destruct (cache_first _ "Block.local_images.images") as [x|]; [|discriminate].
  destruct (cache_first _ "Block.local_r_weight.r_weight") as [rw|]; [|discriminate].
  destruct (cache_first _ "Block.local_r_idx.r_idx") as [ri|]; [|discriminate].
  destruct (cache_first _ "Block.local_attn_weight.attn_weight") as [aw|];
    [|discriminate].
  cbn [mbind res_mbind res_bind].
  destruct (reduce_attention x rw aw) as [[B a]|] eqn:Hred; [|discriminate].
  cbn [mbind res_mbind res_bind fst snd]. intros Hcells.
  exists x, B, a. repeat split; try done.
  unfold reduce_attention, Np.shape_at in Hred.
  destruct (shape x !! 0%nat) as [B'|]; [|discriminate].
  cbn [of_option mbind res_mbind res_bind] in Hred.
  destruct (of_option IndexError (shape aw !! 2%nat)); [|discriminate].
  cbn [mbind res_mbind res_bind] in Hred.
  destruct (Np.mean np_mean 1 aw); [|discriminate].
  cbn [mbind res_mbind res_bind] in Hred.
  destruct (of_option IndexError (shape rw !! 1%nat)); [|discriminate].
  cbn [mbind res_mbind res_bind] in Hred.
  destruct (Np.reshape_infer _ _); [|discriminate].
  cbn [mbind res_mbind res_bind] in Hred.
  destruct (Np.mean np_mean 2 _); [|discriminate].
  cbn [mbind res_mbind res_bind mret res_ret] in Hred. by injection Hred as -> _.
Qed.

(** C5: [batch_num] is 0 when the loop of [evaluate] starts and, when a
    batch is reached, equals the number of earlier batches that entered the
    visualization branch; batches that skip the branch leave it unchanged.
    In the figure of a batch that enters the branch, the cell of local index
    [i] shows the image stored in the original dataset at index
    [batch_size * batch_num + i], where [batch_size] is the leading
    dimension of the captured images, and a cell is drawn for [i] exactly
    when the label stored there equals [target[i]]. *)
Theorem batch_counter_and_global_index pre batch post s s' t :
  for_each (pre ++ batch :: post) (eval_step ori_dataset) (eval_prologue s)
    = (s', t, Done tt) ->
  exists s1 t1,
    for_each pre (eval_step ori_dataset) (eval_prologue s) = (s1, t1, Done tt)
    /\ batch_num s1
       = length (List.filter (fun b => visualized ori_dataset b.2) pre)
    /\ batch_num (final (eval_step ori_dataset batch s1))
       = (batch_num s1 + if visualized ori_dataset batch.2 then 1 else 0)%nat
    /\ batch_num s'
       = length (List.filter (fun b => visualized ori_dataset b.2)
                   (pre ++ batch :: post))
    /\ (forall dataset,
          ori_dataset = Some dataset -> (100 <= length batch.2)%nat ->
          exists x batch_size cells,
            cache_first (e_cache (forwarded batch.1 s1))
              "Block.local_images.images" = Ok x
            /\ shape x !! 0%nat = Some batch_size
            /\ EvSavefig (figure_path (batch_num s1) alpha_02) (AttentionGrid cells) ∈ t
            /\ Forall2
                 (fun c i =>
                    exists label,
                      dataset !! (batch_size * batch_num s1 + i)%nat
                        = Some (cell_image c, label)
                      /\ batch.2 !! i = Some label
                      /\ cell_row c = (i / 10)%nat
                      /\ cell_col c = (i mod 10)%nat)
                 cells
                 (List.filter
                    (label_matches dataset batch.2 batch_size (batch_num s1))
                    (seq 0 100))).
Proof.
  intros Hrun. pose proof Hrun as Hwhole. unfold for_each in *.
  apply eval_loop_done in Hwhole as (_ & _ & Hn').
  rewrite for_enum_app in Hrun. unfold bind in Hrun.
  destruct (for_enum 0 pre _ _) as [[s1 t1] [[]|c|e]] eqn:Hpre; try discriminate.
  exists s1, t1. split; [reflexivity|].
  apply eval_loop_done in Hpre as (_ & _ & Hn1).
  cbn [eval_prologue batch_num] in Hn1, Hn'.
  split; [exact Hn1|].
  cbn [for_enum] in Hrun. unfold bind in Hrun. rewrite eval_step_eq in *.
  destruct (eval_step_run ori_dataset batch s1) as [[s2 t2] [[]|c|e]] eqn:Hstep;
    try discriminate.
  destruct (for_enum _ post _ s2) as [[s3 t3] r3]. injection Hrun as <- <- ->.
  unfold eval_step_run, drawn, visualized in *.
  split; [|split; [exact Hn'|]].
  - unfold final. cbn [fst].
    destruct ori_dataset as [dataset|];
      [destruct (100 <=? length batch.2)%nat;
       [destruct (attention_cells _ _ _ _ _); [|discriminate]|]|];
      injection Hstep as <- _; cbn; lia.
  - intros dataset Hori Hlen. rewrite Hori in Hstep.
    apply Nat.leb_le in Hlen. rewrite Hlen in Hstep.
    destruct (attention_cells _ _ _ _ _) as [cells|] eqn:Hcells; [|discriminate].
    injection Hstep as _ <-.
    apply attention_cells_inv in Hcells as (x & B & a & Hx & HB & Hdraw).
    exists x, B, cells. repeat split; try done.
    + apply elem_of_app; right. apply elem_of_app; left.
      unfold figure_events. rewrite !elem_of_cons. auto.
    + apply draw_cells_spec in Hdraw.
      eapply Forall2_impl; [exact Hdraw|].
      intros c i (label & ? & ? & ? & ? & _). by exists label.
Qed.
End EvalFacts.

(** ** The range of the TensorBoard coordinate *)

Section CoordinateFacts.
Local Open Scope Q_scope.

(** The ways in which the coordinate fails: a division by zero when there
    is no batch to divide by, an overflow otherwise. *)
Lemma epoch_1000x_err i n e x :
  epoch_1000x i n e = Err x ->
  (x = ZeroDivisionError /\ n = 0%Z) \/ (x = OverflowError /\ n <> 0%Z).
Proof.
  unfold epoch_1000x, int_truediv, fadd_int, fmul_int, float_of_int, fround_exn.
  destruct (n =? 0)%Z eqn:Hn.
  { apply Z.eqb_eq in Hn. intros [= <-]. by left. }
  apply Z.eqb_neq in Hn. intros Herr. right. split; [|exact Hn]. revert Herr.
  destruct (overflows (RN (inject_Z i / inject_Z n))); [by intros [= <-]|].
  cbn [mbind res_mbind res_bind].
  destruct (overflows (RN (inject_Z e))); [by intros [= <-]|].
  cbn [mbind res_mbind res_bind fadd]. unfold fround at 1.
  replace (overflows (RN (inject_Z 1000))) with false by reflexivity.
  destruct (overflows (RN (RN _ + RN _))).
  { cbn [res_bind fmul].
    replace (Qeq_bool (RN (inject_Z 1000)) 0) with false by reflexivity.
    cbn [int_of_float]. by intros [= <-]. }
  cbn [res_bind fmul]. unfold fround.
  destruct (overflows (RN (RN _ * RN _))); cbn [int_of_float]; [|discriminate].
  by intros [= <-].
Qed.

Lemma Qtrunc_inject_Z z : Qtrunc (inject_Z z) = z.
Proof. unfold Qtrunc. cbn. apply Z.quot_1_r. Qed.

Lemma coordinate_first n e :
  n <> 0%Z -> (Z.abs (1000 * e) < 2 ^ 53)%Z ->
  coordinate 0 n e == inject_Z (1000 * e).
Proof.
  intros Hn He. unfold coordinate.
  assert (H0 : RN (inject_Z 0 / inject_Z n) == 0).
  { apply RN_zero. unfold Qdiv. change (inject_Z 0) with 0. ring. }
  assert (He' : RN (inject_Z e) == inject_Z e) by (apply RN_exact_int; lia).
  assert (Hs : RN (RN (inject_Z 0 / inject_Z n) + RN (inject_Z e)) == inject_Z e).
  { rewrite <- He' at 2. apply RN_comp. rewrite H0, He'. ring. }
  transitivity (RN (inject_Z (1000 * e))).
  - apply RN_comp. rewrite Hs, RN_1000, inject_Z_mult. ring.
  - by apply RN_exact_int.
Qed.

Lemma coordinate_last n e :
  n <> 0%Z -> (0 <= e)%Z -> (1000 * (e + 1) < 2 ^ 53)%Z ->
  coordinate n n e == inject_Z (1000 * (e + 1)).
Proof.
  intros Hn He0 He. unfold coordinate.
  assert (Hn' : ~ inject_Z n == 0) by by apply inject_Z_neq0.
  assert (H1 : RN (inject_Z n / inject_Z n) == 1).
  { transitivity (RN (inject_Z 1)); [|by apply RN_exact_int].
    apply RN_comp. change (inject_Z 1) with 1. by field. }
  assert (He' : RN (inject_Z e) == inject_Z e) by (apply RN_exact_int; lia).
  assert (Hs : RN (RN (inject_Z n / inject_Z n) + RN (inject_Z e))
               == inject_Z (e + 1)).
  { transitivity (RN (inject_Z (e + 1))); [|apply RN_exact_int; lia].
    apply RN_comp. rewrite H1, He', inject_Z_plus. change (inject_Z 1) with 1. ring. }
  transitivity (RN (inject_Z (1000 * (e + 1)))).
  - apply RN_comp. rewrite Hs, RN_1000, inject_Z_mult. ring.
  - apply RN_exact_int. lia.
Qed.

(** X1: the coordinate fails with [ZeroDivisionError] exactly when the data
    loader has no batch, and otherwise only by overflow; it never fails
    with the [ValueError] of [int(nan)]. *)
Theorem epoch_1000x_errors i n e :
  (epoch_1000x i n e = Err ZeroDivisionError <-> n = 0%Z)
  /\ (forall x, epoch_1000x i n e = Err x ->
        x = ZeroDivisionError \/ x = OverflowError).
Proof.
  split; [split|].
  - intros Herr. apply epoch_1000x_err in Herr as [[_ Hn]|[[=] _]]. exact Hn.
  - intros ->. unfold epoch_1000x, int_truediv. reflexivity.
  - intros x Herr. apply epoch_1000x_err in Herr as [[-> _]|[-> _]]; auto.
Qed.

(** X2: for a step [i] of [n] batches in an epoch [e] up to [2^43], the
    coordinate is defined and lies between [1000 * e] and [1000 * (e + 1)];
    the first step of the epoch is logged at [1000 * e] exactly. *)
Theorem epoch_1000x_range i n e :
  (0 <= i <= n)%Z -> (0 < n)%Z -> (0 <= e <= 2 ^ 43)%Z ->
  exists x,
    epoch_1000x i n e = Ok x
    /\ (1000 * e <= x <= 1000 * (e + 1))%Z
    /\ (i = 0%Z -> x = (1000 * e)%Z).
Proof.
  intros Hi Hn He.
  destruct (coordinate_step i n e Hi Hn ltac:(lia)) as (_ & _ & H1 & H2 & H3 & H4).
  exists (Qtrunc (coordinate i n e)).
  split; [apply epoch_1000x_ok; auto; lia|].
  assert (Hfirst : Qtrunc (coordinate 0 n e) = (1000 * e)%Z).
  { rewrite (Qtrunc_comp _ _ (coordinate_first n e ltac:(lia) ltac:(lia))).
    apply Qtrunc_inject_Z. }
  assert (Hlast : Qtrunc (coordinate n n e) = (1000 * (e + 1))%Z).
  { rewrite (Qtrunc_comp _ _ (coordinate_last n e ltac:(lia) ltac:(lia) ltac:(lia))).
    apply Qtrunc_inject_Z. }
  split; [split|].
  - rewrite <- Hfirst. apply Qtrunc_mono, coordinate_mono; lia.
  - rewrite <- Hlast. apply Qtrunc_mono, coordinate_mono; lia.
  - intros ->. exact Hfirst.
Qed.
End CoordinateFacts.

(** ** Runs of the training driver *)

Section TrainRunFacts.
Context `{Collaborators}.
Variable mixup_fn : option (Samples * Labels -> Samples * Labels).
Variable epoch : Z.
Variable max_norm : pyfloat.
Variable log_writer : option string.

Local Abbreviation step := (train_step mixup_fn epoch max_norm log_writer).
Local Abbreviation loss_in := (loss_at mixup_fn).
Local Abbreviation next := (after_step mixup_fn max_norm).
Local Abbreviation entries := (logged epoch log_writer).

(** The effects of a step whose loss is finite, up to its log entries. *)
Local Abbreviation step_events := (fun b s =>
  [EvForward (mixed mixup_fn b).1; EvZeroGrad;
   EvScaledStep max_norm (is_second_order (zero_grad (t_world s)));
   EvCudaSynchronize]
  ++ ema_events (t_ema s) ++ [EvAllReduceMean (loss_in s b)]).

(** A loop that completes has taken a step on its first batch, with a
    finite loss and a defined coordinate, and completes on the rest. *)
Lemma train_loop_cons n i b batches s s' t :
  for_enum i (b :: batches) (step n) s = (s', t, Done tt) ->
  isfinite (loss_in s b) = true
  /\ (entries n i (loss_in s b) (lr_of (t_world (next b s)))).2 = Done tt
  /\ exists t2,
       for_enum (S i) batches (step n) (next b s) = (s', t2, Done tt)
       /\ t = (step_events b s
               ++ (entries n i (loss_in s b) (lr_of (t_world (next b s)))).1)
              ++ t2.
Proof.
  cbn [for_enum]. unfold bind.
  destruct (step n i b s) as [[s1 t1] [[]|c|e]] eqn:Hstep; try discriminate.
  destruct (for_enum _ batches _ s1) as [[s2 t2] r2] eqn:Hrest.
  intros [= -> <- ->].
  pose proof (train_step_done _ _ _ _ _ _ _ _ _ _ Hstep) as Hf.
  split; [exact Hf|].
  rewrite train_step_finite in Hstep by exact Hf. injection Hstep as <- <- Hres.
  split; [exact Hres|]. exists t2. split; [exact Hrest|].
  f_equal. rewrite <- !app_assoc. reflexivity.
Qed.

Lemma entries_done n i v lr :
  (entries n i v lr).2 = Done tt ->
  match log_writer with
  | Some _ =>
      exists x, epoch_1000x (Z.of_nat i) (Z.of_nat n) epoch = Ok x
                /\ (entries n i v lr).1
                   = [EvAddScalar "loss" (all_reduce_mean v) x; EvAddScalar "lr" lr x]
  | None => (entries n i v lr).1 = []
  end.
Proof.
  unfold logged. destruct log_writer as [dir|]; [|done].
  destruct (epoch_1000x _ _ _) as [x|e]; [|discriminate]. intros _. by exists x.
Qed.

(** Readings of the events of one step. *)
Lemma omap_entries {A} (f : event -> option A) n i v lr :
  (forall tag u x, f (EvAddScalar tag u x) = None) ->
  omap f (entries n i v lr).1 = [].
Proof.
  intros Hf. unfold logged. destruct log_writer as [dir|]; [|done].
  destruct (epoch_1000x _ _ _) as [x|err]; [|done].
  cbn. by rewrite !Hf.
Qed.

(** The meters after a run of steps. *)
Lemma meters_after_steps batches s name :
  t_meters (after_steps mixup_fn max_norm batches s) !!! name =
  t_meters s !!! name
    ++ (if String.eqb name "loss"
        then (fun v => (v, 1)) <$> losses mixup_fn max_norm (t_world s) batches
        else if String.eqb name "lr"
        then (fun w => (lr_of w, 1)) <$> worlds mixup_fn max_norm (t_world s) batches
        else []).
Proof.
  revert s. induction batches as [|b batches IH]; intros s.
  - cbn. destruct (String.eqb name "loss"), (String.eqb name "lr");
      by rewrite app_nil_r.
  - cbn [after_steps foldl losses worlds]. fold (after_steps mixup_fn max_norm batches (next b s)).
    rewrite IH, meters_after_step.
    change (t_world (next b s))
      with (stepped max_norm (batch_loss mixup_fn (t_world s) b) (t_world s)).
    unfold loss_at.
    destruct (String.eqb name "loss") eqn:Hloss, (String.eqb name "lr") eqn:Hlr;
      rewrite <- ?app_assoc; try reflexivity.
    apply String.eqb_eq in Hloss, Hlr. congruence.
Qed.

Lemma keys_after_steps batches s k :
  is_Some (t_meters (after_steps mixup_fn max_norm batches s) !! k)
  <-> (batches <> [] /\ (k = "loss" \/ k = "lr")) \/ is_Some (t_meters s !! k).
Proof.
  revert s. induction batches as [|b batches IH]; intros s.
  - cbn. split; [by right|]. by intros [[? _]|?].
  - cbn [after_steps foldl]. fold (after_steps mixup_fn max_norm batches (next b s)).
    rewrite IH. unfold after_step, meter_update. cbn [t_meters].
    rewrite !lookup_insert_is_Some'. split.
    + intros [[_ Hk]|[Hk|[Hk|Hk]]]; auto.
    + intros [[_ [Hk|Hk]]|Hk]; auto.
Qed.

(** A loop over batches with finite losses completes, provided the
    coordinate is defined. *)
Lemma train_loop_total n i batches s :
  Forall (fun v => isfinite v = true)
    (losses mixup_fn max_norm (t_world s) batches) ->
  log_writer = None
  \/ ((0 <= epoch <= 2 ^ 50)%Z /\ (i + length batches <= n)%nat) ->
  exists t,
    for_enum i batches (step n) s
    = (after_steps mixup_fn max_norm batches s, t, Done tt).
Proof.
  revert i s. induction batches as [|b batches IH]; intros i s Hfin Hlog.
  - by eexists.
  - cbn [losses] in Hfin. apply Forall_cons in Hfin as [Hf Hfin].
    assert (Hdone : (entries n i (loss_in s b) (lr_of (t_world (next b s)))).2
                    = Done tt).
    { unfold logged. destruct Hlog as [->|[He Hn]]; [done|].
      destruct log_writer as [dir|]; [|done]. cbn [length] in Hn.
      destruct (coordinate_step (Z.of_nat i) (Z.of_nat n) epoch
                  ltac:(lia) ltac:(lia) ltac:(lia))
        as (_ & _ & H1 & H2 & H3 & H4).
      by rewrite epoch_1000x_ok by (auto; lia). }
    destruct (IH (S i) (next b s)) as [t2 Hrest].
    { exact Hfin. }
    { destruct Hlog as [->|[He Hn]]; [by left|]. right. cbn [length] in Hn.
      split; [exact He|lia]. }
    cbn [for_enum]. unfold bind.
    rewrite train_step_finite by exact Hf. rewrite Hdone.
    cbn [after_steps foldl]. fold (after_steps mixup_fn max_norm batches (next b s)).
    rewrite Hrest. by eexists.
Qed.

(** A loop raises only when the coordinate overflows, and stops only with
    status 1. *)
Lemma train_loop_stops n i batches s :
  n <> 0%nat ->
  match result (for_enum i batches (step n) s) with
  | Done _ => True
  | Exited c => c = 1%Z
  | Raised e => e = OverflowError /\ is_Some log_writer
  end.
Proof.
  intros Hn. revert i s. induction batches as [|b batches IH]; intros i s; [done|].
  cbn [for_enum]. unfold bind, result.
  destruct (isfinite (loss_in s b)) eqn:Hf.
  - rewrite train_step_finite by exact Hf.
    destruct (entries n i _ _) as [lg [[]|c|e]] eqn:Hlg; cbn [fst snd].
    + specialize (IH (S i) (next b s)). unfold result in IH.
      by destruct (for_enum _ batches _ _) as [[s2 t2] r2].
    + unfold logged in Hlg. destruct log_writer; [|discriminate].
      destruct (epoch_1000x _ _ _); discriminate.
    + unfold logged in Hlg. destruct log_writer as [dir|]; [|discriminate].
      destruct (epoch_1000x _ _ _) as [x|err] eqn:Herr; [discriminate|].
      injection Hlg as _ <-.
      apply epoch_1000x_err in Herr as [[_ Hz]|[-> _]]; [lia|]. by split.
  - by rewrite train_step_nonfinite by exact Hf.
Qed.

(** X3: an epoch over at least one batch, all of whose losses are finite,
    returns, without a log sink or for an epoch number up to [2^50]; the
    mapping it returns has exactly the keys [loss] and [lr], with the
    global averages of the reduced meters: that of the losses of the
    batches and that of the learning rates left by the successive steps,
    each recorded with weight one. *)
Theorem train_one_epoch_returns flag data_loader s0 :
  let w0 := set_mode flag (t_world s0) in
  data_loader <> [] ->
  Forall (fun v => isfinite v = true)
    (losses mixup_fn max_norm w0 data_loader) ->
  log_writer = None \/ (0 <= epoch <= 2 ^ 50)%Z ->
  exists d,
    result (train_one_epoch mixup_fn epoch max_norm log_writer flag data_loader s0)
    = Done d
    /\ (forall k, is_Some (d !! k) <-> k = "loss" \/ k = "lr")
    /\ d !! "loss"
       = Some (global_avg (reduce_meter
                 ((fun v => (v, 1))
                    <$> losses mixup_fn max_norm w0 data_loader)))
    /\ d !! "lr"
       = Some (global_avg (reduce_meter
                 ((fun w => (lr_of w, 1))
                    <$> worlds mixup_fn max_norm w0 data_loader))).
Proof.
  intros w0 Hne Hfin Hlog. rewrite train_one_epoch_loop. cbv zeta.
  destruct (train_loop_total (length data_loader) 0 data_loader
              (train_prologue flag s0) Hfin) as [t Hloop].
  { destruct Hlog as [->|He]; [by left|]. right. split; [exact He|]. cbn. lia. }
  erewrite bind_done by exact Hloop.
  set (s1 := after_steps mixup_fn max_norm data_loader (train_prologue flag s0)).
  unfold result, train_epilogue, bind, emit, modify, get, ret. cbn [fst snd].
  eexists. split; [reflexivity|].
  cbn [t_meters set_t_meters].
  unfold global_avgs, synchronize_between_processes.
  assert (Hkeys : forall k, is_Some (t_meters s1 !! k) <-> k = "loss" \/ k = "lr").
  { intros k. unfold s1. rewrite keys_after_steps.
    cbn [train_prologue t_meters]. unfold add_meter.
    rewrite lookup_insert_is_Some', lookup_empty, <- not_eq_None_Some. split.
    - intros [[_ Hk]|[<-|Hk]]; auto. done.
    - intros Hk. left. by split. }
  assert (Hlook : forall k, is_Some (t_meters s1 !! k) ->
            (global_avg <$> (reduce_meter <$> t_meters s1)) !! k
            = Some (global_avg (reduce_meter (t_meters s1 !!! k)))).
  { intros k Hk. rewrite !lookup_fmap, (lookup_lookup_total _ _ Hk). reflexivity. }
  assert (Hinit : forall k, t_meters (train_prologue flag s0) !!! k = []).
  { intros k. cbn [train_prologue t_meters]. unfold add_meter.
    destruct (decide (k = "lr")) as [->|Hk].
    - by rewrite lookup_total_insert_eq.
    - by rewrite lookup_total_insert_ne, lookup_total_empty. }
  split; [|split].
  - intros k. rewrite !lookup_fmap, !fmap_is_Some. apply Hkeys.
  - rewrite Hlook by (apply Hkeys; by left). unfold s1.
    by rewrite meters_after_steps, Hinit.
  - rewrite Hlook by (apply Hkeys; by right). unfold s1.
    by rewrite meters_after_steps, Hinit.
Qed.

(** X4: the only exception that the statements of [train_one_epoch]
    themselves raise is the [OverflowError] of the coordinate, which takes
    a log sink and a batch; in particular the driver never divides by
    zero, the loop body being run only when the data loader has a batch.
    When it exits, it does with status 1. *)
Theorem train_one_epoch_raises_only_overflow flag data_loader s0 :
  let r := train_one_epoch mixup_fn epoch max_norm log_writer flag data_loader s0 in
  (forall e, result r = Raised e ->
     e = OverflowError /\ is_Some log_writer /\ data_loader <> [])
  /\ (forall c, result r = Exited c -> c = 1%Z).
Proof.
  cbv zeta. rewrite train_one_epoch_loop. cbv zeta.
  unfold result. cbn [snd].
  destruct data_loader as [|b batches].
  { split; intros ?; discriminate. }
  pose proof (train_loop_stops (length (b :: batches)) 0 (b :: batches)
                (train_prologue flag s0) ltac:(done)) as Hstop.
  unfold result in Hstop. unfold bind.
  destruct (for_enum 0 (b :: batches) _ _) as [[s1 t1] [[]|c|e]]; cbn [snd] in *.
  - unfold train_epilogue, bind, emit, modify, get, ret. cbn.
    split; intros ?; discriminate.
  - split; [intros ?; discriminate|]. by intros c' [= <-].
  - split; [|intros ?; discriminate]. intros e' [= <-].
    destruct Hstop as [-> Hw]. done.
Qed.

(** X5: over a loop that completes, the entries handed to the log sink
    are, for each batch in order, the reduced loss and the learning rate of
    that step, both at the coordinate of the step; the coordinates never
    go back.  Without a sink nothing is logged. *)
Theorem epoch_log_entries n i batches s s' t :
  for_enum i batches (step n) s = (s', t, Done tt) ->
  match log_writer with
  | Some _ =>
      exists xs,
        Forall2 (fun k x => epoch_1000x (Z.of_nat k) (Z.of_nat n) epoch = Ok x)
          (seq i (length batches)) xs
        /\ scalars t
           = mjoin (zip_with (fun vl x => log_entries vl.1 vl.2 x)
                      (zip (losses mixup_fn max_norm (t_world s) batches)
                           (lr_of <$> worlds mixup_fn max_norm (t_world s) batches))
                      xs)
        /\ forall j k x y, (j <= k)%nat -> xs !! j = Some x -> xs !! k = Some y ->
                           (x <= y)%Z
  | None => scalars t = []
  end.
Proof.
  revert i s t. induction batches as [|b batches IH]; intros i s t.
  { intros [= <- <-]. destruct log_writer; [|done].
    exists []. split; [constructor|]. split; [done|].
    intros j k x y _ Hx. by rewrite lookup_nil in Hx. }
  intros Hloop. apply train_loop_cons in Hloop as (_ & Hdone & t2 & Hrest & ->).
  apply entries_done in Hdone. specialize (IH _ _ _ Hrest).
  assert (Hsplit : scalars ((step_events b s
                     ++ (entries n i (loss_in s b) (lr_of (t_world (next b s)))).1)
                    ++ t2)
                   = scalars (entries n i (loss_in s b)
                                (lr_of (t_world (next b s)))).1 ++ scalars t2).
  { unfold scalars. rewrite !omap_app. by destruct (t_ema s). }
  rewrite Hsplit. clear Hsplit Hrest.
  destruct log_writer as [dir|].
  - destruct Hdone as (x & Hx & ->).
    destruct IH as (xs & Hxs & -> & Hsorted).
    exists (x :: xs). split; [by constructor|]. split; [reflexivity|].
    assert (Hfirst : forall k y, xs !! k = Some y -> (x <= y)%Z).
    { intros k y Hy.
      destruct (Forall2_lookup_r _ _ _ _ _ Hxs Hy) as (k' & Hk' & Hky).
      apply lookup_seq in Hk' as [-> _].
      apply epoch_1000x_inv in Hx as [Hn ->].
      apply epoch_1000x_inv in Hky as [_ ->].
      apply Qtrunc_mono, coordinate_mono; lia. }
    intros [|j] [|k] x1 y1 Hjk; cbn [lookup list_lookup]; intros Hx1 Hy1.
    + injection Hx1 as <-. injection Hy1 as <-. lia.
    + injection Hx1 as <-. by eapply Hfirst.
    + lia.
    + eapply (Hsorted j k); [lia|done|done].
  - by rewrite Hdone, IH.
Qed.

(** X6: every step of a loop that completes calls the cross-worker mean on
    its loss, with or without a log sink: the values handed to
    [utils.all_reduce_mean] are the losses of the batches, in order; and
    the model is run once per batch, on the samples that the mixup
    returns. *)
Theorem all_reduce_every_step n i batches s s' t :
  for_enum i batches (step n) s = (s', t, Done tt) ->
  all_reduces t = losses mixup_fn max_norm (t_world s) batches
  /\ forwards t = (fun b => (mixed mixup_fn b).1) <$> batches.
Proof.
  revert i s t. induction batches as [|b batches IH]; intros i s t.
  - by intros [= <- <-].
  - intros Hloop. apply train_loop_cons in Hloop as (_ & _ & t2 & Hrest & ->).
    destruct (IH _ _ _ Hrest) as [Hall Hfw].
    unfold all_reduces, forwards in *. rewrite !omap_app, Hall, Hfw.
    rewrite !omap_entries by done.
    split; by destruct (t_ema s).
Qed.

(** X7: over a loop that completes, the EMA shadow model, when there is
    one, is updated once per batch, from the model left by that batch's
    step; without one, no update is made and none appears. *)
Theorem ema_updated_once_per_batch n i batches s s' t :
  for_enum i batches (step n) s = (s', t, Done tt) ->
  t_ema s'
  = (fun e => foldl ema_update e (worlds mixup_fn max_norm (t_world s) batches))
      <$> t_ema s
  /\ ema_updates t = match t_ema s with
                     | Some _ => length batches
                     | None => 0%nat
                     end.
Proof.
  revert i s t. induction batches as [|b batches IH]; intros i s t.
  - intros [= <- <-]. by destruct (t_ema s).
  - intros Hloop. apply train_loop_cons in Hloop as (_ & _ & t2 & Hrest & ->).
    destruct (IH _ _ _ Hrest) as [Hema Hcount].
    unfold ema_updates in *. rewrite !omap_app, !length_app, Hcount, Hema.
    rewrite omap_entries by done.
    cbn [after_step t_ema t_world worlds]. unfold stepped.
    destruct (t_ema s); cbn; split; reflexivity || lia.
Qed.
End TrainRunFacts.

(** ** The edges of the visualization *)

Section AttentionEdgeFacts.
Context `{Collaborators}.
Local Open Scope nat_scope.

(** X8: for a 4-D attention tensor [(N, Hd, W, K)], images [(B, ...)]
    and routing weights [(_, P, ...)], the reduction fails only in the
    reshape and only with [ValueError]: when [B * P * W] is zero or does
    not divide the [N * W * K] elements left by the mean over the heads.
    Otherwise it gives [B] and an array of shape [(B, P * W)], whether or
    not [N] is [B * P]. *)
Theorem reduce_attention_defined x r_weight attn B P N Hd W K :
  shape x !! 0 = Some B ->
  shape r_weight !! 1 = Some P ->
  shape attn = [N; Hd; W; K] ->
  match reduce_attention x r_weight attn with
  | Ok (b, a) =>
      b = B /\ shape a = [B; P * W]
      /\ B * P * W <> 0 /\ (N * W * K) mod (B * P * W) = 0
  | Err e =>
      e = ValueError
      /\ (B * P * W = 0 \/ (N * W * K) mod (B * P * W) <> 0)
  end.
Proof.
  intros Hx Hr Hattn. destruct attn as [sh d]. cbn [shape data] in *. subst sh.
  unfold reduce_attention, Np.shape_at, Np.mean, Np.reshape_infer.
  rewrite Hx, Hr. cbn -[Np.tabulate Nat.div Nat.modulo Nat.mul Nat.eqb].
  replace (B * (P * W * 1)) with (B * P * W) by lia.
  replace (N * (W * (K * 1))) with (N * W * K) by lia.
  destruct (Nat.eqb_spec (B * P * W) 0) as [Hz|Hz];
    cbn -[Np.tabulate Nat.div Nat.modulo Nat.mul Nat.eqb]; [by auto|].
  destruct (Nat.eqb_spec ((N * W * K) mod (B * P * W)) 0) as [Hm|Hm];
    cbn -[Np.tabulate Nat.div Nat.modulo Nat.mul]; [|by auto].
  repeat split; auto.
Qed.

(** Under [captured_dims] the cells of a batch are those that the loop
    over its first 100 samples draws on the reduced attention. *)
Lemma attention_cells_dims (dataset : list (Image * Z)) target cache n alpha
    B P Hd W K :
  captured_dims cache B P Hd W K ->
  exists a,
    shape a = [B; P * W]
    /\ attention_cells dataset target cache n alpha
       = draw_cells dataset target a B n alpha (seq 0 100).
Proof.
  intros (x & rw & ri & attn & Hx & Hrw & Hri & Hattn & HB & HP & Hsh & Hne).
  destruct (reduce_attention_spec _ _ _ _ _ _ _ _ HB HP Hsh Hne)
    as (a & Hred & Hshape & _).
  exists a. split; [exact Hshape|].
  unfold attention_cells. rewrite Hx, Hrw, Hri, Hattn.
  cbn [mbind res_mbind res_bind]. rewrite Hred. reflexivity.
Qed.

(** A sample beyond the end of the original dataset stops the loop. *)
Lemma draw_cells_short (dataset : list (Image * Z)) target a B N L n alpha indices :
  shape a = [B; N] -> N = L * L ->
  Forall (fun i => i < B /\ i < length target) indices ->
  Exists (fun i => length dataset <= B * n + i) indices ->
  draw_cells dataset target a B n alpha indices = Err IndexError.
Proof.
  intros Ha HN Hall Hex.
  induction Hall as [|i indices [HiB Hit] Hall IH]; [by inversion Hex|].
  cbn [draw_cells].
  destruct (dataset !! (B * n + i)) as [[image label]|] eqn:Hds; [|reflexivity].
  destruct (lookup_lt_is_Some_2 target _ Hit) as [t ->].
  cbn [of_option mbind res_mbind res_bind].
  apply Exists_cons in Hex as [Hhead|Htail].
  { apply lookup_lt_Some in Hds. lia. }
  rewrite (IH Htail).
  destruct (attention_map_of_square a B N L i Ha HiB HN) as (m & -> & _).
  by destruct (label =? t)%Z.
Qed.


(** The cache after a forward pass: a name has an entry exactly when the
    pass captured something under it, and no entry is an empty list. *)
Lemma cache_record_all_is_Some entries (c : cache_t) name :
  is_Some (cache_record_all entries c !! name)
  <-> name ∈ entries.*1 \/ is_Some (c !! name).
Proof.
  revert c. induction entries as [|[k a] entries IH]; intros c.
  - cbn. split; [by right|]. intros [Hin|Hc]; [|exact Hc].
    by apply elem_of_nil in Hin.
  - change (cache_record_all ((k, a) :: entries) c)
      with (cache_record_all entries (cache_record c (k, a))).
    rewrite IH. unfold cache_record. cbn [fst snd fmap list_fmap].
    rewrite lookup_insert_is_Some', elem_of_cons. split.
    + intros [Hin|[->|Hc]]; auto.
    + intros [[->|Hin]|Hc]; auto.
Qed.

Lemma cache_record_all_nonempty entries (c : cache_t) name :
  (forall l, c !! name = Some l -> l <> []) ->
  forall l, cache_record_all entries c !! name = Some l -> l <> [].
Proof.
  revert c. induction entries as [|[k a] entries IH]; intros c Hc; [exact Hc|].
  change (cache_record_all ((k, a) :: entries) c)
    with (cache_record_all entries (cache_record c (k, a))).
  apply IH. intros l. unfold cache_record. cbn [fst snd].
  destruct (decide (k = name)) as [->|Hk].
  - rewrite lookup_insert_eq. intros [= <-]. by destruct (c !!! name).
  - rewrite lookup_insert_ne by done. apply Hc.
Qed.

Lemma cache_first_fresh entries name :
  match cache_first (cache_record_all entries ∅) name with
  | Ok _ => name ∈ entries.*1
  | Err e => e = KeyError /\ name ∉ entries.*1
  end.
Proof.
  unfold cache_first.
  pose proof (cache_record_all_is_Some entries ∅ name) as Hsome.
  pose proof (cache_record_all_nonempty entries ∅ name) as Hne.
  destruct (cache_record_all entries ∅ !! name) as [l|];
    cbn [of_option mbind res_mbind res_bind].
  - assert (Hemp : forall l0, (∅ : cache_t) !! name = Some l0 -> l0 <> [])
      by (intros l0; by rewrite lookup_empty).
    destruct l as [|a l]; [by destruct (Hne Hemp [] eq_refl)|]. cbn.
    destruct (proj1 Hsome ltac:(by eexists)) as [Hin|[l0 Hl0]]; [exact Hin|].
    by rewrite lookup_empty in Hl0.
  - split; [reflexivity|]. intros Hin.
    destruct (proj2 Hsome (or_introl Hin)) as [? [=]].
Qed.

Lemma NoDup_list_filter {A} (f : A -> bool) (l : list A) :
  NoDup l -> NoDup (List.filter f l).
Proof.
  induction 1 as [|a l Ha _ IH]; [constructor|].
  cbn [List.filter]. destruct (f a); [|exact IH].
  constructor; [|exact IH]. intros Hin. apply Ha.
  apply list_elem_of_In, List.filter_In in Hin as [Hin _].
  by apply list_elem_of_In.
Qed.
End AttentionEdgeFacts.

(** ** Runs of the evaluation driver *)

Section EvalRunFacts.
Context `{Collaborators}.
Variable ori_dataset : option (list (Image * Z)).

Local Abbreviation body := (fun _ : nat => eval_step ori_dataset).

(** The three ways in which a step of the loop ends. *)
Lemma eval_step_cases batch s :
  let r := eval_step ori_dataset batch s in
  let s1 := forwarded batch.1 s in
  let seen := set_e_meters (record_metrics (e_world s) batch) in
  (drawn ori_dataset batch.2 (e_cache s1) (batch_num s) = None
   /\ r = (seen s1, [EvCacheClear; EvForward batch.1], Done tt))
  \/ (exists cells,
        drawn ori_dataset batch.2 (e_cache s1) (batch_num s) = Some (Ok cells)
        /\ r = (seen (set_batch_num (fun n => (n + 1)%nat)
                         (set_visual_dir (fun _ => true) s1)),
                [EvCacheClear; EvForward batch.1]
                  ++ figure_events (batch_num s) cells,
                Done tt))
  \/ (exists e,
        drawn ori_dataset batch.2 (e_cache s1) (batch_num s) = Some (Err e)
        /\ r = (s1, [EvCacheClear; EvForward batch.1], Raised e)).
Proof.
  cbv zeta. rewrite eval_step_eq. unfold eval_step_run.
  destruct (drawn _ _ _ _) as [[cells|e]|]; eauto.
Qed.

(** A loop either runs its first step to the end and goes on with the
    rest, or stops where that step raises. *)
Lemma eval_loop_cons i batch batches s :
  let r1 := eval_step ori_dataset batch s in
  for_enum i (batch :: batches) body s =
  match result r1 with
  | Done _ =>
      let r := for_enum (S i) batches body (final r1) in
      (final r, trace r1 ++ trace r, result r)
  | _ => r1
  end.
Proof.
  cbv zeta. cbn [for_enum]. unfold bind, result, final, trace.
  destruct (eval_step ori_dataset batch s) as [[s1 t1] [[]|c|e]]; cbn [fst snd];
    [|reflexivity..].
  by destruct (for_enum _ batches _ s1) as [[s2 t2] r2].
Qed.

(** What a loop does whatever its outcome: the model is left alone, the
    batches forwarded are an initial segment of the loader, and the figures
    saved are numbered from the counter on. *)
Lemma eval_loop_any batches i s :
  let r := for_enum i batches body s in
  e_world (final r) = e_world s
  /\ Forall (fun e => is_training_event e = false /\ forall flag, e <> EvSetMode flag)
       (trace r)
  /\ (exists k,
        forwards (trace r) = take k batches.*1
        /\ (result r = Done tt -> forwards (trace r) = batches.*1))
  /\ (exists k,
        saved_paths (trace r)
        = (fun j => figure_path j alpha_02) <$> seq (batch_num s) k).
Proof.
  cbv zeta. revert i s. induction batches as [|b batches IH]; intros i s.
  - cbn. repeat split; [constructor|by exists 0%nat|by exists 0%nat].
  - rewrite eval_loop_cons. cbv zeta.
    assert (Hquiet : forall cells,
              Forall (fun e => is_training_event e = false
                               /\ forall flag, e <> EvSetMode flag)
                ([EvCacheClear; EvForward b.1] ++ figure_events (batch_num s) cells)).
    { intros cells. unfold figure_events. cbn [app]. repeat constructor; done. }
    assert (Hquiet0 : Forall (fun e => is_training_event e = false
                                      /\ forall flag, e <> EvSetMode flag)
                        [EvCacheClear; EvForward b.1]).
    { repeat constructor; done. }
    destruct (eval_step_cases b s) as [[_ ->]|[(cells & _ & ->)|(e & _ & ->)]];
      unfold result, final, trace; cbn [fst snd].
    + destruct (IH (S i) (set_e_meters (record_metrics (e_world s) b)
                            (forwarded b.1 s)))
        as (Hw & Hev & (k & Hfw & Hall) & (m & Hpaths)).
      unfold result, final, trace in *. split; [exact Hw|].
      split; [by apply Forall_app|]. split.
      * exists (S k). unfold forwards in *.
        split; [by rewrite omap_app, Hfw|].
        intros Hdone. by rewrite omap_app, (Hall Hdone).
      * exists m. unfold saved_paths in *. by rewrite omap_app, Hpaths.
    + destruct (IH (S i) (set_e_meters (record_metrics (e_world s) b)
                            (set_batch_num (fun n => (n + 1)%nat)
                               (set_visual_dir (fun _ => true)
                                  (forwarded b.1 s)))))
        as (Hw & Hev & (k & Hfw & Hall) & (m & Hpaths)).
      unfold result, final, trace in *. split; [exact Hw|].
      split; [by apply Forall_app|]. split.
      * exists (S k). unfold forwards in *.
        split; [by rewrite omap_app, Hfw|].
        intros Hdone. by rewrite omap_app, (Hall Hdone).
      * exists (S m). unfold saved_paths in *. rewrite omap_app, Hpaths.
        cbn [set_e_meters set_batch_num set_visual_dir forwarded set_e_cache
             batch_num].
        cbn [seq fmap list_fmap]. by rewrite Nat.add_1_r.
    + split; [reflexivity|]. split; [exact Hquiet0|]. split.
      * exists 1%nat. split; [reflexivity|discriminate].
      * by exists 0%nat.
Qed.

Lemma quiet_modes (t : list event) :
  Forall quiet t ->
  modes t = [] /\ Forall (fun e => is_training_event e = false) t.
Proof.
  intros Ht. split.
  - induction Ht as [|e t [_ He] _ IHt]; [done|].
    unfold modes in *. cbn [omap list_omap]. rewrite IHt.
    destruct e; try done. by destruct (He training).
  - eapply Forall_impl; [exact Ht|]. by intros e [He _].
Qed.

Lemma kernel_stage_quiet s :
  Forall quiet (kernel_stage ori_dataset s).1
  /\ forwards (kernel_stage ori_dataset s).1 = [].
Proof.
  destruct (kernel_stage_events ori_dataset s) as [Hev _].
  induction Hev as [|ev t [q ->] _ [IHq IHf]]; [by split|].
  split; [|exact IHf]. constructor; [by split|exact IHq].
Qed.

Lemma eval_body_quiet data_loader s :
  Forall quiet
    (trace (bind (for_each data_loader (eval_step ori_dataset))
              (fun _ => eval_epilogue) s)).
Proof.
  destruct (eval_loop_any data_loader 0 s) as (_ & Hev & _ & _).
  unfold for_each, bind.
  destruct (for_enum 0 data_loader _ _) as [[s1 t1] [[]|c|e]];
    unfold trace in *; cbn [fst snd] in *; try exact Hev.
  destruct (eval_epilogue_run s1) as (_ & Htr & _).
  destruct (eval_epilogue s1) as [[s2 t2] r2]. unfold trace in Htr.
  cbn [fst snd] in *. apply Forall_app. split; [exact Hev|].
  destruct Htr as [->|[line ->]]; repeat constructor; done.
Qed.

(** X9: [evaluate] takes no optimization step, updates no EMA model and
    logs nothing, however the pass ends.  When the kernels stage returns,
    the model is put in evaluation mode exactly once, after that stage and
    before the first forward pass, and its mode is not set again; when the
    kernels stage raises, the mode is never set and no batch is
    forwarded. *)
Theorem evaluate_never_trains data_loader s :
  let r := evaluate ori_dataset data_loader s in
  Forall (fun e => is_training_event e = false) (trace r)
  /\ match result (visualize_kernels ori_dataset s) with
     | Done _ =>
         exists pre post,
           trace r = pre ++ EvSetMode false :: post
           /\ pre = EvRcParams :: trace (visualize_kernels ori_dataset s)
           /\ forwards pre = [] /\ modes pre = [] /\ modes post = []
     | _ => modes (trace r) = [] /\ forwards (trace r) = []
     end.
Proof.
  cbv zeta. rewrite visualize_kernels_run, evaluate_eq. cbv zeta.
  destruct (kernel_stage_quiet s) as [Hk Hkf].
  destruct (quiet_modes _ Hk) as [Hkm Hkt].
  pose proof (eval_body_quiet data_loader (eval_prologue s)) as Hbody.
  destruct (quiet_modes _ Hbody) as [Hbm Hbt].
  destruct (kernel_stage ori_dataset s) as [kt [[]|c|e]];
    unfold result at 1, trace at 1 2; cbn [fst snd] in *.
  - split.
    + constructor; [done|]. apply Forall_app. split; [exact Hkt|].
      by constructor.
    + exists (EvRcParams :: kt), (trace (bind (for_each data_loader
                                             (eval_step ori_dataset))
                                      (fun _ => eval_epilogue) (eval_prologue s))).
      unfold trace at 2. cbn [fst snd]. by repeat split.
  - split; [by constructor|]. by split.
  - split; [by constructor|]. by split.
Qed.

(** X10: [evaluate] forwards the batches of the data loader in order, each
    at most once, and never anything else; when it returns it has
    forwarded every batch exactly once, visualized or not. *)
Theorem evaluate_forwards_each_batch_once data_loader s :
  let r := evaluate ori_dataset data_loader s in
  (exists k, forwards (trace r) = take k data_loader.*1)
  /\ (forall d, result r = Done d -> forwards (trace r) = data_loader.*1).
Proof.
  cbv zeta. rewrite evaluate_eq. cbv zeta.
  destruct (kernel_stage_quiet s) as [_ Hk].
  destruct (kernel_stage ori_dataset s) as [kt [[]|c|e]];
    unfold result at 1, trace at 1 3; cbn [fst snd] in *.
  2,3: split; [by exists 0%nat|discriminate].
  destruct (eval_loop_any data_loader 0 (eval_prologue s))
    as (_ & _ & (k & Hfw & Hall) & _).
  assert (Hpre : forall t : list event,
            forwards (EvRcParams :: kt ++ EvSetMode false :: t) = forwards t).
  { intros t.
    change (EvRcParams :: ?k ++ EvSetMode false :: ?u)
      with ([EvRcParams] ++ k ++ [EvSetMode false] ++ u).
    unfold forwards in *. by rewrite !omap_app, Hk. }
  unfold for_each, bind.
  destruct (for_enum 0 data_loader _ _) as [[s1 t1] r1] eqn:Hloop.
  unfold result, trace in *. cbn [fst snd] in *.
  destruct r1 as [[]|c|e]; cbn [fst snd].
  - destruct (eval_epilogue_run s1) as (_ & Htr & _).
    destruct (eval_epilogue s1) as [[s2 t2] r2]. unfold trace in Htr.
    cbn [fst snd] in *.
    assert (Hep : forwards t2 = []) by by destruct Htr as [->|[line ->]].
    assert (Hfull : forwards (t1 ++ t2) = forwards t1).
    { unfold forwards in *. by rewrite omap_app, Hep, app_nil_r. }
    rewrite !Hpre, !Hfull. split; [by exists k|]. intros d _. exact (Hall eq_refl).
  - rewrite !Hpre. split; [by exists k|]. discriminate.
  - rewrite !Hpre. split; [by exists k|]. discriminate.
Qed.

(** A batch that enters the visualization branch and whose cells cannot be
    drawn stops the pass right after its forward pass. *)
Lemma eval_step_raises dataset batch s e :
  ori_dataset = Some dataset ->
  (100 <= length batch.2)%nat ->
  attention_cells dataset batch.2 (e_cache (forwarded batch.1 s)) (batch_num s)
    alpha_02 = Err e ->
  eval_step ori_dataset batch s
  = (forwarded batch.1 s, [EvCacheClear; EvForward batch.1], Raised e).
Proof.
  intros Hori Hlen Hcells. rewrite eval_step_eq. unfold eval_step_run, drawn.
  rewrite Hori. apply Nat.leb_le in Hlen. by rewrite Hlen, Hcells.
Qed.

(** X11: when the forward pass of a batch that is to be visualized has
    captured nothing under one of the four names that [evaluate] reads,
    [r_idx], which is not used afterwards, included, the step raises a
    lookup error right after the forward pass: no figure is saved, the
    metrics of the batch are not recorded and the counter stays. *)
Theorem missing_capture_raises dataset batch s name :
  ori_dataset = Some dataset ->
  (100 <= length batch.2)%nat ->
  name ∈ cache_names ->
  name ∉ (captures (e_world s) batch.1).*1 ->
  exists e,
    (e = KeyError \/ e = IndexError)
    /\ eval_step ori_dataset batch s
       = (forwarded batch.1 s, [EvCacheClear; EvForward batch.1], Raised e).
Proof.
  intros Hori Hlen Hname Hmissing. exists KeyError. split; [by left|].
  apply (eval_step_raises dataset); [exact Hori|exact Hlen|].
  change (e_cache (forwarded batch.1 s))
    with (cache_record_all (captures (e_world s) batch.1) ∅).
  set (entries := captures (e_world s) batch.1) in *.
  pose proof (cache_first_fresh entries "Block.local_images.images") as H1.
  pose proof (cache_first_fresh entries "Block.local_r_weight.r_weight") as H2.
  pose proof (cache_first_fresh entries "Block.local_r_idx.r_idx") as H3.
  pose proof (cache_first_fresh entries "Block.local_attn_weight.attn_weight") as H4.
  unfold attention_cells.
  destruct (cache_first _ "Block.local_images.images") as [x|e1];
    [|by destruct H1 as [-> _]].
  destruct (cache_first _ "Block.local_r_weight.r_weight") as [rw|e2];
    [|by destruct H2 as [-> _]].
  destruct (cache_first _ "Block.local_r_idx.r_idx") as [ri|e3];
    [|by destruct H3 as [-> _]].
  destruct (cache_first _ "Block.local_attn_weight.attn_weight") as [aw|e4];
    [|by destruct H4 as [-> _]].
  exfalso. unfold cache_names in Hname.
  repeat (apply elem_of_cons in Hname as [->|Hname]; [by apply Hmissing|]).
  by apply elem_of_nil in Hname.
Qed.

(** X12: when the original dataset ends before the 100 samples that the
    step looks up from [batch_size * batch_num] on, the step raises
    [IndexError] right after the forward pass and saves no figure, even if
    earlier samples of the batch could be drawn. *)
Theorem dataset_too_short_raises dataset batch s B P Hd W K L :
  ori_dataset = Some dataset ->
  (100 <= length batch.2)%nat ->
  captured_dims (e_cache (forwarded batch.1 s)) B P Hd W K ->
  (P * W = L * L)%nat ->
  (100 <= B)%nat ->
  (length dataset < B * batch_num s + 100)%nat ->
  eval_step ori_dataset batch s
  = (forwarded batch.1 s, [EvCacheClear; EvForward batch.1], Raised IndexError).
Proof.
  intros Hori Hlen Hdims Hsq HB Hshort.
  apply (eval_step_raises dataset); [exact Hori|exact Hlen|].
  destruct (attention_cells_dims dataset batch.2 _ (batch_num s) alpha_02
              _ _ _ _ _ Hdims) as (a & Hshape & ->).
  apply (draw_cells_short dataset batch.2 a B (P * W) L); [exact Hshape|exact Hsq|..].
  - apply Forall_forall. intros i Hi. apply elem_of_seq in Hi. lia.
  - apply Exists_exists. exists 99%nat. split; [|lia].
    apply elem_of_seq. lia.
Qed.


Lemma string_app_length (s1 s2 : string) :
  String.length (s1 +:+ s2) = (String.length s1 + String.length s2)%nat.
Proof. induction s1 as [|c s1 IH]; [done|]. simpl. by f_equal. Qed.

Lemma string_app_inv_tail (s1 s2 t : string) : s1 +:+ t = s2 +:+ t -> s1 = s2.
Proof.
  revert s2. induction s1 as [|c s1 IH]; intros [|c2 s2] Heq.
  - reflexivity.
  - apply (f_equal String.length) in Heq.
    rewrite !string_app_length in Heq. simpl in Heq. lia.
  - apply (f_equal String.length) in Heq.
    rewrite !string_app_length in Heq. simpl in Heq. lia.
  - cbn in Heq. injection Heq as -> Heq. f_equal. by apply IH.
Qed.

Lemma figure_path_inj alpha j1 j2 :
  figure_path j1 alpha = figure_path j2 alpha -> j1 = j2.
Proof.
  unfold figure_path. intros Heq.
  apply (inj (String.append _)) in Heq.
  apply string_app_inv_tail in Heq. by apply (inj pretty).
Qed.

Lemma kernel_paths s :
  NoDup (named_parameters (e_world s)).*1 ->
  saved_paths (kernel_stage ori_dataset s).1 = []
  \/ saved_paths (kernel_stage ori_dataset s).1 = [kernels_path].
Proof.
  intros Hnd. pose proof (kernel_stage_events ori_dataset s) as [Hev _].
  revert Hev. unfold kernel_stage.
  destruct ori_dataset as [dataset|]; [|by left].
  destruct (decide ("downsample_layers.0.0.weight"
                      ∈ (named_parameters (e_world s)).*1)) as [Hin|Hout].
  - apply list_elem_of_fmap in Hin as ([k param] & Hk & Hin). cbn in Hk. subst k.
    rewrite (kernels_run_unique _ _ _ Hnd Hin).
    destruct (kernel_figure _ param) as [ev|e]; cbn [fst]; [|by left].
    intros Hev. apply Forall_cons in Hev as [[q ->] _]. by right.
  - rewrite (kernels_run_absent _ _ Hout). by left.
Qed.

(** X14: with parameter names that are distinct, no two figures of a pass
    are saved to the same path, however the pass ends: the attention
    figures are numbered 0, 1, 2, ... in the order of the visualized
    batches and none has the path of the kernels figure. *)
Theorem figures_never_overwritten data_loader s :
  NoDup (named_parameters (e_world s)).*1 ->
  NoDup (saved_paths (trace (evaluate ori_dataset data_loader s))).
Proof.
  intros Hnd. rewrite evaluate_eq. cbv zeta.
  pose proof (kernel_paths s Hnd) as Hkernels.
  destruct (kernel_stage ori_dataset s) as [kt [[]|c|e]];
    unfold trace at 1; cbn [fst snd] in *.
  2,3: change (NoDup (saved_paths kt));
       destruct Hkernels as [->| ->]; [constructor|apply NoDup_singleton].
  destruct (eval_loop_any data_loader 0 (eval_prologue s))
    as (_ & _ & _ & (k & Hpaths)).
  cbn [eval_prologue batch_num] in Hpaths.
  assert (Hloop : saved_paths
                    (trace (bind (for_each data_loader (eval_step ori_dataset))
                              (fun _ => eval_epilogue) (eval_prologue s)))
                  = (fun j => figure_path j alpha_02) <$> seq 0 k).
  { unfold for_each, bind.
    destruct (for_enum 0 data_loader _ _) as [[s1 t1] [[]|c|e]];
      unfold trace in *; cbn [fst snd] in *; try exact Hpaths.
    destruct (eval_epilogue_run s1) as (_ & Htr & _).
    destruct (eval_epilogue s1) as [[s2 t2] r2]. unfold trace in Htr.
    cbn [fst snd] in *. unfold saved_paths in *. rewrite omap_app, Hpaths.
    destruct Htr as [->|[line ->]]; by rewrite app_nil_r. }
  change (EvRcParams :: ?ks ++ EvSetMode false :: ?u)
    with ([EvRcParams] ++ ks ++ [EvSetMode false] ++ u).
  unfold saved_paths in *. rewrite !omap_app, Hloop. cbn [omap list_omap app].
  assert (Hfigs : NoDup ((fun j => figure_path j alpha_02) <$> seq 0 k)).
  { apply NoDup_fmap_2; [|apply NoDup_seq].
    intros j1 j2. apply figure_path_inj. }
  destruct Hkernels as [Hk|Hk];
    unfold saved_paths in Hk; rewrite Hk; [exact Hfigs|].
  cbn [app]. apply NoDup_cons. split; [|exact Hfigs].
  intros Hin. apply list_elem_of_fmap in Hin as (j & Hj & _).
  unfold kernels_path, figure_path in Hj. cbn in Hj. discriminate.
Qed.

(** X15: whatever the batch, the dataset and the tensors captured, an
    attention figure that a step saves is named after the counter, and
    its cells lie in the 10 x 10 grid, no two at the same place, all drawn
    with transparency 0.2. *)
Theorem cells_within_grid batch s path cells :
  EvSavefig path (AttentionGrid cells) ∈ trace (eval_step ori_dataset batch s) ->
  path = figure_path (batch_num s) alpha_02
  /\ Forall (fun c => (cell_row c < 10)%nat /\ (cell_col c < 10)%nat
                      /\ cell_alpha c = alpha_02) cells
  /\ NoDup (cell_position <$> cells)
  /\ (length cells <= 100)%nat.
Proof.
  destruct (eval_step_cases batch s)
    as [[_ ->]|[(cells' & Hdrawn & ->)|(e & _ & ->)]];
    unfold trace; cbn [fst snd]; intros Hin.
  - repeat (apply elem_of_cons in Hin as [[=]|Hin]). by apply elem_of_nil in Hin.
  - unfold figure_events in Hin. cbn [app] in Hin.
    repeat (apply elem_of_cons in Hin as [Heq|Hin]; try discriminate).
    2:{ by apply elem_of_nil in Hin. }
    injection Heq as -> ->. split; [reflexivity|].
    unfold drawn in Hdrawn. destruct ori_dataset as [dataset|]; [|discriminate].
    destruct (100 <=? length batch.2)%nat; [|discriminate].
    injection Hdrawn as Hcells.
    apply attention_cells_inv in Hcells as (x & B & a & _ & _ & Hdraw).
    pose proof (draw_cells_spec _ _ _ _ _ _ _ _ Hdraw) as Hspec.
    pose proof (drawn_cells_indices _ _ _ _ _ _ _ _ Hdraw) as Hidx.
    assert (Hnd : NoDup (cell_position <$> cells')).
    { unfold cell_position. rewrite Hidx. apply NoDup_list_filter, NoDup_seq. }
    split; [|split; [exact Hnd|]].
    + apply Forall_forall. intros c Hc.
      apply list_elem_of_lookup in Hc as [j Hj].
      destruct (Forall2_lookup_l _ _ _ _ _ Hspec Hj)
        as (i & Hi & label & _ & _ & -> & -> & _ & ->).
      apply list_elem_of_lookup_2, list_elem_of_In, List.filter_In in Hi as [Hi _].
      apply in_seq in Hi. repeat split.
      * apply Nat.Div0.div_lt_upper_bound. lia.
      * apply Nat.mod_upper_bound. lia.
    + rewrite <- (length_fmap cell_position). unfold cell_position. rewrite Hidx.
      etransitivity; [apply List.filter_length_le|]. by rewrite length_seq.
  - repeat (apply elem_of_cons in Hin as [[=]|Hin]). by apply elem_of_nil in Hin.
Qed.

Lemma eval_meters_keys_iff w batches (meters : gmap string meter) k :
  is_Some (eval_meters w batches meters !! k)
  <-> (batches <> [] /\ k ∈ ["loss"; "acc1"; "acc5"]) \/ is_Some (meters !! k).
Proof.
  split; [|apply eval_meters_keys].
  revert meters. induction batches as [|b batches IH]; intros meters; [by right|].
  change (eval_meters w (b :: batches) meters)
    with (eval_meters w batches (record_metrics w b meters)).
  intros Hk. apply IH in Hk as [[_ Hk]|Hk]; [by left|].
  unfold record_metrics, meter_update in Hk.
  rewrite !lookup_insert_is_Some' in Hk.
  destruct Hk as [<-|[<-|[<-|Hk]]]; [left..|by right];
    (split; [done|]); rewrite !elem_of_cons; auto.
Qed.

Lemma eval_epilogue_needs_meters s d :
  result (eval_epilogue s) = Done d -> is_Some (e_meters s !! "acc1").
Proof.
  unfold eval_epilogue, meter_attr.
  cbv beta iota zeta delta [bind emit modify get result].
  cbn [fst snd e_meters set_e_meters].
  unfold synchronize_between_processes. rewrite !lookup_fmap.
  destruct (e_meters s !! "acc1") as [top1|]; [by eexists|].
  cbn. discriminate.
Qed.

(** X16: the mapping that [evaluate] returns has exactly the keys [loss],
    [acc1] and [acc5]. *)
Theorem evaluate_returned_keys data_loader s d :
  result (evaluate ori_dataset data_loader s) = Done d ->
  forall k, is_Some (d !! k) <-> k ∈ ["loss"; "acc1"; "acc5"].
Proof.
  intros Hres. pose proof (evaluate_done_kernels _ _ _ _ Hres) as Hstage.
  revert Hres. rewrite evaluate_after_kernels by exact Hstage.
  cbv zeta. unfold result at 1. cbn [snd].
  unfold for_each, bind.
  destruct (for_enum 0 data_loader _ _) as [[s1 t1] [[]|c|e]] eqn:Hloop;
    unfold result; cbn [snd]; try discriminate.
  apply eval_loop_done in Hloop as (_ & Hm & _).
  cbn [eval_prologue e_world e_meters] in Hm.
  destruct (eval_epilogue_run s1) as (_ & _ & Hd & _).
  pose proof (eval_epilogue_needs_meters s1) as Hneeds.
  destruct (eval_epilogue s1) as [[s2 t2] r2]. unfold result in *.
  cbn [fst snd] in *. intros ->. rewrite (Hd d eq_refl).
  specialize (Hneeds d eq_refl). rewrite Hm in Hneeds.
  apply eval_meters_keys_iff in Hneeds as [[Hne _]|Hemp].
  2:{ rewrite lookup_empty in Hemp. by destruct Hemp. }
  intros k. unfold global_avgs, synchronize_between_processes.
  rewrite !lookup_fmap, !fmap_is_Some, Hm, eval_meters_keys_iff, lookup_empty.
  split.
  - intros [[_ Hk]|[? [=]]]. exact Hk.
  - intros Hk. left. by split.
Qed.
End EvalRunFacts.

(** * Concrete runs *)

(** ** The float model against the standard library's binary64 *)

Example truediv_29_100 :
  agrees (int_truediv 29 100) (SFdiv prec emax (spec_of_int 29) (spec_of_int 100)) = true.
Proof. vm_compute. reflexivity. Qed.

Example truediv_1_3 :
  agrees (int_truediv 1 3) (SFdiv prec emax (spec_of_int 1) (spec_of_int 3)) = true.
Proof. vm_compute. reflexivity. Qed.

Example float_of_big_int :
  agrees (float_of_int (2 ^ 53 + 1)) (spec_of_int (2 ^ 53 + 1)) = true
  /\ agrees (float_of_int (2 ^ 53 + 3)) (spec_of_int (2 ^ 53 + 3)) = true.
Proof. split; vm_compute; reflexivity. Qed.

Example add_third_and_seven :
  agrees (res_bind (int_truediv 1 3) (fun x => fadd_int x 7))
    (SFadd prec emax (SFdiv prec emax (spec_of_int 1) (spec_of_int 3)) (spec_of_int 7))
  = true.
Proof. vm_compute. reflexivity. Qed.

Example mul_by_1000 :
  agrees (res_bind (int_truediv 57 100) (fun x => fmul_int x 1000))
    (SFmul prec emax (SFdiv prec emax (spec_of_int 57) (spec_of_int 100))
       (spec_of_int 1000))
  = true.
Proof. vm_compute. reflexivity. Qed.

Example epoch_1000x_values :
  epoch_1000x 1 4 3 = Ok 3250
  /\ epoch_1000x 29 100 0 = Ok 290
  /\ epoch_1000x 0 0 0 = Err ZeroDivisionError
  /\ epoch_1000x 0 1 (2 ^ 1024) = Err OverflowError.
Proof. repeat split; vm_compute; reflexivity. Qed.

(** ** The drivers on the small instance *)

#[local] Existing Instance Tiny.collaborators.

(** Witness of C1: an epoch whose second batch has a NaN loss exits with
    status 1 right after the diagnostic, with one optimization step taken. *)
Lemma stability_guard_witness :
  train_one_epoch None 0 (Fin 0) None true
    [Tiny.first_batch; Tiny.diverging_batch; Tiny.later_batch] Tiny.train0
  = ({| t_world := 1%nat; t_ema := Some 1%nat;
        t_meters := {[ "loss" := [(Fin 1, 1)];
                       "lr" := [(Fin (inject_Z 1), 1)] ]} |},
     [EvSetMode true; EvForward 8%nat; EvZeroGrad; EvScaledStep (Fin 0) false;
      EvCudaSynchronize; EvEmaUpdate; EvAllReduceMean (Fin 1);
      EvForward 8%nat; EvPrint "Loss is nan, stopping training"],
     Exited 1).
Proof.
  refine (proj1 (train_one_epoch_stability_guard None 0 (Fin 0) None true
                   [Tiny.first_batch] Tiny.diverging_batch [Tiny.later_batch]
                   Tiny.train0
                   {| t_world := 1%nat; t_ema := Some 1%nat;
                      t_meters := {[ "loss" := [(Fin 1, 1)];
                                     "lr" := [(Fin (inject_Z 1), 1)] ]} |}
                   [EvForward 8%nat; EvZeroGrad; EvScaledStep (Fin 0) false;
                    EvCudaSynchronize; EvEmaUpdate; EvAllReduceMean (Fin 1)]
                   _) _).
  - vm_compute. reflexivity.
  - reflexivity.
Defined.

(** Witness of C6: a step of the small model, with an EMA model. *)
Lemma synchronize_before_ema_witness :
  isfinite (loss_at None Tiny.train0 Tiny.first_batch) = true
  /\ exists tail,
       trace (train_step None 0 (Fin 0) None 3 0 Tiny.first_batch Tiny.train0)
       = [EvForward 8%nat; EvZeroGrad; EvScaledStep (Fin 0) false; EvCudaSynchronize]
         ++ [EvEmaUpdate] ++ tail
       /\ (EvCudaSynchronize ∉ tail)
       /\ (EvEmaUpdate ∉ tail).
Proof.
  split; [reflexivity|].
  destruct (train_step_synchronize_before_ema None 0 (Fin 0) None 3 0
              Tiny.first_batch Tiny.train0 eq_refl)
    as (tail & Htrace & Hsync & Hema & _).
  exists tail. split; [exact Htrace|]. split; assumption.
Defined.

(** Witness of C9: three steps of the small model, whose learning rate is
    the number of optimization steps taken. *)
Lemma recorded_lr_witness :
  result (for_enum 0 Tiny.finite_batches
            (train_step None 0 (Fin 0) (Some "runs") 3) Tiny.train0) = Done tt
  /\ t_meters (final (for_enum 0 Tiny.finite_batches
                        (train_step None 0 (Fin 0) (Some "runs") 3) Tiny.train0))
       !!! "lr"
     = [(Fin (inject_Z 1), 1); (Fin (inject_Z 2), 1); (Fin (inject_Z 3), 1)]
  /\ logged_lrs (trace (for_enum 0 Tiny.finite_batches
                          (train_step None 0 (Fin 0) (Some "runs") 3) Tiny.train0))
     = [Fin (inject_Z 1); Fin (inject_Z 2); Fin (inject_Z 3)].
Proof.
  set (r := for_enum 0 Tiny.finite_batches
              (train_step None 0 (Fin 0) (Some "runs") 3) Tiny.train0).
  split; [vm_compute; reflexivity|].
  destruct (recorded_lr_is_current None 0 (Fin 0) (Some "runs") 3 0
              Tiny.finite_batches Tiny.train0 (final r) (trace r))
    as (Hmeter & Hsink & _).
  - vm_compute. reflexivity.
  - split; [exact Hmeter|exact Hsink].
Defined.



(** Witness of C4: a batch of 150 samples, one batch into the run, with
    four positions, two heads, a window of one and three keys. *)
Lemma attention_reduction_witness :
  exists a cells,
    shape a = [150; 4]%nat
    /\ result (eval_step (Some Tiny.dataset) Tiny.batch_150 Tiny.eval1) = Done tt
    /\ figures (trace (eval_step (Some Tiny.dataset) Tiny.batch_150 Tiny.eval1))
       = [AttentionGrid cells]
    /\ Forall (fun c => shape (cell_overlay c) = [6; 6]%nat) cells.
Proof.
  destruct (attention_mean_reshape_upsample (Some Tiny.dataset) Tiny.dataset
              Tiny.batch_150 Tiny.eval1 150%nat 4%nat 2%nat 1%nat 3%nat 2%nat
              eq_refl)
    as (x & rw & attn & a & cells & _ & _ & _ & _ & Hshape & _ & _
        & Hdone & Hfig & Hcells).
  - vm_compute. lia.
  - exists (Tiny.arange [150%nat]), (Tiny.arange [150; 4; 1]%nat),
      (Tiny.arange [150; 4; 1]%nat), (Tiny.arange [600; 2; 1; 3]%nat).
    repeat split; try (vm_compute; reflexivity). lia.
  - lia.
  - vm_compute. lia.
  - exists a, cells. split; [exact Hshape|]. split; [exact Hdone|].
    split; [exact Hfig|].
    eapply Forall2_Forall_l; [exact Hcells|].
    apply Forall_forall. intros i _ c [Hc _]. exact Hc.
Defined.

(** Counterexample to C3 as stated: with an original dataset and a single
    batch of 99 samples a figure is written all the same, that of the
    convolution kernels; and a batch of 150 samples of which ten carry the
    label of the dataset gives a figure of ten cells. *)
Lemma figures_despite_small_batches :
  (length Tiny.batch_99.2 <= 99)%nat
  /\ figures (trace (evaluate (Some Tiny.dataset) [Tiny.batch_99] Tiny.eval0))
     = [KernelGrid 0%nat]
  /\ length Tiny.batch_150_zeros.2 = 150%nat
  /\ length <$> attention_figures
       (trace (eval_step (Some Tiny.dataset) Tiny.batch_150_zeros Tiny.eval1))
     = [10%nat].
Proof. repeat split; vm_compute; reflexivity. Qed.

(** Witness of C3: a batch of 150 samples, one batch into the run, all of
    whose first 100 samples carry the label of the dataset. *)
Lemma visualization_witness :
  exists cells,
    result (eval_step (Some Tiny.dataset) Tiny.batch_150 Tiny.eval1) = Done tt
    /\ figures (trace (eval_step (Some Tiny.dataset) Tiny.batch_150 Tiny.eval1))
       = [AttentionGrid cells]
    /\ length cells = 100%nat.
Proof.
  destruct (proj2 (proj2 (visualization_trigger_and_cells (Some Tiny.dataset)))
              Tiny.dataset Tiny.batch_150 Tiny.eval1 150%nat 4%nat 2%nat 1%nat 3%nat
              2%nat eq_refl)
    as (cells & Hdone & Hfig & _ & _ & Hall).
  - vm_compute. lia.
  - exists (Tiny.arange [150%nat]), (Tiny.arange [150; 4; 1]%nat),
      (Tiny.arange [150; 4; 1]%nat), (Tiny.arange [600; 2; 1; 3]%nat).
    repeat split; try (vm_compute; reflexivity). lia.
  - lia.
  - vm_compute. lia.
  - exists cells. split; [exact Hdone|]. split; [exact Hfig|].
    apply Hall. intros i Hi.
    apply (proj1 (List.forallb_forall
                    (label_matches Tiny.dataset Tiny.batch_150.2 150 1) (seq 0 100))).
    + vm_compute. reflexivity.
    + apply in_seq. lia.
Defined.

(** Witness of C5: a batch of 99 samples, then one of 100. *)
Lemma batch_counter_witness :
  result (for_each ([Tiny.batch_99] ++ Tiny.batch_100 :: [])
            (eval_step (Some Tiny.dataset)) (eval_prologue Tiny.eval0)) = Done tt
  /\ batch_num (final (for_each ([Tiny.batch_99] ++ Tiny.batch_100 :: [])
                         (eval_step (Some Tiny.dataset))
                         (eval_prologue Tiny.eval0))) = 1%nat
  /\ exists s1 t1,
       for_each [Tiny.batch_99] (eval_step (Some Tiny.dataset))
         (eval_prologue Tiny.eval0) = (s1, t1, Done tt)
       /\ batch_num s1 = 0%nat.
Proof.
  set (r := for_each ([Tiny.batch_99] ++ Tiny.batch_100 :: [])
              (eval_step (Some Tiny.dataset)) (eval_prologue Tiny.eval0)).
  destruct (batch_counter_and_global_index (Some Tiny.dataset) [Tiny.batch_99]
              Tiny.batch_100 [] Tiny.eval0 (final r) (trace r))
    as (s1 & t1 & Hpre & Hn1 & _ & Hn & _).
  - vm_compute. reflexivity.
  - split; [vm_compute; reflexivity|]. split; [exact Hn|].
    exists s1, t1. split; [exact Hpre|exact Hn1].
Defined.

(** Witness of C7: two batches without an original dataset. *)
Lemma evaluate_metrics_witness :
  exists d,
    result (evaluate None [Tiny.batch_99; Tiny.batch_100] Tiny.eval0) = Done d
    /\ eval_meters 0%nat [Tiny.batch_99; Tiny.batch_100] ∅ !!! "acc1"
       = [(Fin 50, 99); (Fin 50, 100)]
    /\ eval_meters 0%nat [Tiny.batch_99; Tiny.batch_100] ∅ !!! "loss"
       = [(Fin 1, 1); (Fin 1, 1)].
Proof.
  destruct (evaluate_records_and_returns_metrics None
              [Tiny.batch_99; Tiny.batch_100] Tiny.eval0) as [Hret Hrec].
  destruct (Hret eq_refl ltac:(discriminate)) as [d Hd]. exists d. split; [exact Hd|].
  destruct (Hrec d Hd) as (Hloss & Hacc1 & _). split; [exact Hacc1|exact Hloss].
Defined.



(** ** The properties of the runs on the small instances *)

(** Witness of X2: the first and the second step of four, in epoch 3. *)
Lemma coordinate_range_witness :
  epoch_1000x 0 4 3 = Ok 3000
  /\ exists x, epoch_1000x 1 4 3 = Ok x /\ 3000 <= x <= 4000.
Proof.
  split.
  - destruct (epoch_1000x_range 0 4 3 ltac:(lia) ltac:(lia) ltac:(lia))
      as (x & -> & _ & Hfirst).
    f_equal. by apply Hfirst.
  - destruct (epoch_1000x_range 1 4 3 ltac:(lia) ltac:(lia) ltac:(lia))
      as (x & Hx & Hrange & _).
    exists x. split; [exact Hx|lia].
Defined.

(** Witness of X3: an epoch of three batches of the small model, with a log
    sink. *)
Lemma train_epoch_returns_witness :
  exists d,
    result (train_one_epoch None 3 (Fin 0) (Some "runs") true
              Tiny.finite_batches Tiny.train0) = Done d
    /\ is_Some (d !! "loss") /\ is_Some (d !! "lr").
Proof.
  pose proof (train_one_epoch_returns None 3 (Fin 0) (Some "runs") true
                Tiny.finite_batches Tiny.train0) as Hreturns.
  cbv zeta in Hreturns.
  destruct Hreturns as (d & Hd & Hkeys & _).
  - discriminate.
  - cbn. repeat constructor.
  - right. lia.
  - exists d. split; [exact Hd|]. split; apply Hkeys; [by left|by right].
Defined.

(** Witness of X4: an epoch number beyond the binary64 range. *)
Lemma overflow_witness :
  result (train_one_epoch None (2 ^ 1024) (Fin 0) (Some "runs") true
            [Tiny.first_batch] Tiny.train0) = Raised OverflowError
  /\ is_Some (Some "runs").
Proof.
  assert (Hraised : result (train_one_epoch None (2 ^ 1024) (Fin 0) (Some "runs")
                              true [Tiny.first_batch] Tiny.train0)
                    = Raised OverflowError) by (vm_compute; reflexivity).
  split; [exact Hraised|].
  exact (proj1 (proj2 (proj1 (train_one_epoch_raises_only_overflow None (2 ^ 1024)
                                (Fin 0) (Some "runs") true [Tiny.first_batch]
                                Tiny.train0) _ Hraised))).
Defined.

(** Witness of X5: the coordinates of three steps in epoch 3. *)
Lemma log_entries_witness :
  exists xs,
    Forall2 (fun k x => epoch_1000x (Z.of_nat k) (Z.of_nat 3) 3 = Ok x)
      (seq 0 3) xs
    /\ forall j k x y, (j <= k)%nat -> xs !! j = Some x -> xs !! k = Some y ->
                       x <= y.
Proof.
  set (r := for_enum 0 Tiny.finite_batches
              (train_step None 3 (Fin 0) (Some "runs") 3) Tiny.train0).
  destruct (epoch_log_entries None 3 (Fin 0) (Some "runs") 3 0
              Tiny.finite_batches Tiny.train0 (final r) (trace r))
    as (xs & Hxs & _ & Hsorted).
  - vm_compute. reflexivity.
  - exists xs. split; [exact Hxs|exact Hsorted].
Defined.

(** Witness of X6: three steps of the small model, without a log sink. *)
Lemma all_reduce_witness :
  all_reduces (trace (for_enum 0 Tiny.finite_batches
                        (train_step None 3 (Fin 0) None 3) Tiny.train0))
  = [Fin 1; Fin 2; Fin 3].
Proof.
  set (r := for_enum 0 Tiny.finite_batches
              (train_step None 3 (Fin 0) None 3) Tiny.train0).
  destruct (all_reduce_every_step None 3 (Fin 0) None 3 0
              Tiny.finite_batches Tiny.train0 (final r) (trace r)) as [Hall _].
  - vm_compute. reflexivity.
  - rewrite Hall. reflexivity.
Defined.

(** Witness of X7: three steps of the small model, which has an EMA
    model. *)
Lemma ema_updates_witness :
  ema_updates (trace (for_enum 0 Tiny.finite_batches
                        (train_step None 3 (Fin 0) None 3) Tiny.train0))
  = 3%nat.
Proof.
  set (r := for_enum 0 Tiny.finite_batches
              (train_step None 3 (Fin 0) None 3) Tiny.train0).
  destruct (ema_updated_once_per_batch None 3 (Fin 0) None 3 0
              Tiny.finite_batches Tiny.train0 (final r) (trace r)) as [_ Hcount].
  - vm_compute. reflexivity.
  - rewrite Hcount. reflexivity.
Defined.

(** Witness of X8: seven windows cannot be split over two images of four
    positions. *)
Lemma reduction_fails_witness :
  reduce_attention (Tiny.arange [2%nat]) (Tiny.arange [2; 4; 1]%nat)
    (Tiny.arange [7; 2; 1; 3]%nat) = Err ValueError.
Proof.
  pose proof (reduce_attention_defined (Tiny.arange [2%nat])
                (Tiny.arange [2; 4; 1]%nat) (Tiny.arange [7; 2; 1; 3]%nat)
                2 4 7 2 1 3 eq_refl eq_refl eq_refl) as Hdefined.
  destruct (reduce_attention _ _ _) as [[b a]|e].
  - destruct Hdefined as (_ & _ & _ & Hmod). vm_compute in Hmod. discriminate.
  - by destruct Hdefined as [-> _].
Defined.

(** Witness of X12: a third batch of 150 samples on a dataset of 300. *)
Lemma dataset_too_short_witness :
  eval_step (Some Tiny.dataset) Tiny.batch_150
    {| e_world := 0%nat; e_cache := ∅; e_meters := ∅; batch_num := 2;
       visual_dir := true |}
  = (forwarded Tiny.batch_150.1
       {| e_world := 0%nat; e_cache := ∅; e_meters := ∅; batch_num := 2;
       visual_dir := true |},
     [EvCacheClear; EvForward 150%nat], Raised IndexError).
Proof.
  apply (dataset_too_short_raises (Some Tiny.dataset) Tiny.dataset Tiny.batch_150
           _ 150%nat 4%nat 2%nat 1%nat 3%nat 2%nat eq_refl).
  - vm_compute. lia.
  - exists (Tiny.arange [150%nat]), (Tiny.arange [150; 4; 1]%nat),
      (Tiny.arange [150; 4; 1]%nat), (Tiny.arange [600; 2; 1; 3]%nat).
    repeat split; try (vm_compute; reflexivity). lia.
  - reflexivity.
  - lia.
  - vm_compute. lia.
Defined.

(** Witness of X14: a pass over a batch of 99 and one of 100 samples. *)
Lemma figures_never_overwritten_witness :
  NoDup (saved_paths (trace (evaluate (Some Tiny.dataset)
                               [Tiny.batch_99; Tiny.batch_100] Tiny.eval0))).
Proof.
  apply (figures_never_overwritten (Some Tiny.dataset)
           [Tiny.batch_99; Tiny.batch_100] Tiny.eval0).
  cbn. apply NoDup_cons. split; [|apply NoDup_singleton].
  intros Hin. apply list_elem_of_singleton in Hin. discriminate.
Defined.

(** Witness of X15: the figure of a batch of 150 samples. *)
Lemma cells_within_grid_witness :
  exists path cells,
    EvSavefig path (AttentionGrid cells)
      ∈ trace (eval_step (Some Tiny.dataset) Tiny.batch_150 Tiny.eval1)
    /\ path = figure_path 1 alpha_02
    /\ NoDup (cell_position <$> cells)
    /\ length cells = 100%nat.
Proof.
  let saved := eval vm_compute in
      (trace (eval_step (Some Tiny.dataset) Tiny.batch_150 Tiny.eval1) !! 3%nat) in
  assert (Hsaved : trace (eval_step (Some Tiny.dataset) Tiny.batch_150 Tiny.eval1)
                     !! 3%nat = saved) by (vm_compute; reflexivity).
  match type of Hsaved with
  | _ = Some (EvSavefig ?path (AttentionGrid ?cells)) => exists path, cells
  end.
  pose proof (list_elem_of_lookup_2 _ _ _ Hsaved) as Hin.
  destruct (cells_within_grid (Some Tiny.dataset) Tiny.batch_150 Tiny.eval1
              _ _ Hin) as (Hpath & _ & Hnd & _).
  split; [exact Hin|]. split; [exact Hpath|]. split; [exact Hnd|].
  vm_compute. reflexivity.
Defined.

(** Witness of X16: a pass over two batches without an original dataset. *)
Lemma returned_keys_witness :
  exists d,
    result (evaluate None [Tiny.batch_99; Tiny.batch_100] Tiny.eval0) = Done d
    /\ is_Some (d !! "acc5") /\ d !! "lr" = None.
Proof.
  destruct (result (evaluate None [Tiny.batch_99; Tiny.batch_100] Tiny.eval0))
    as [d|c|e] eqn:Hresult; try (vm_compute in Hresult; discriminate).
  exists d. split; [reflexivity|].
  pose proof (evaluate_returned_keys None [Tiny.batch_99; Tiny.batch_100]
                Tiny.eval0 d Hresult) as Hkeys.
  split.
  - apply Hkeys. rewrite !elem_of_cons. auto.
  - apply eq_None_not_Some. intros Hlr. apply Hkeys in Hlr.
    repeat (apply elem_of_cons in Hlr as [[=]|Hlr]). by apply elem_of_nil in Hlr.
Defined.

Section EdgeRuns.
#[local] Existing Instance Edge.collaborators.

(** Witness of X11: the model that captures no routing indices. *)
Lemma missing_capture_witness :
  exists e,
    (e = KeyError \/ e = IndexError)
    /\ eval_step (Some Edge.dataset) Edge.batch_150 Edge.eval_missing
       = (forwarded Edge.batch_150.1 Edge.eval_missing,
          [EvCacheClear; EvForward Edge.batch_150.1], Raised e).
Proof.
  apply (missing_capture_raises (Some Edge.dataset) Edge.dataset Edge.batch_150
           Edge.eval_missing "Block.local_r_idx.r_idx" eq_refl).
  - vm_compute. lia.
  - unfold cache_names. rewrite !elem_of_cons. auto.
  - cbn. intros Hin.
    repeat (apply elem_of_cons in Hin as [[=]|Hin]). by apply elem_of_nil in Hin.
Defined.

End EdgeRuns.
